(** * TTD-DR: the iterative refine-and-converge control loop

    A shallow embedding of the Python sources of the Test-Time Diffusion
    Deep Researcher:

    - [ttd_dr/memory/state.py]            ([AgentState], [SearchResult]),
    - [ttd_dr/refinement/evaluator.py]    ([LLMEvaluator]),
    - [ttd_dr/refinement/self_evolution.py] ([SelfEvolution]),
    - [ttd_dr/planner/planner.py]         ([ResearchPlanner]),
    - [ttd_dr/agents/ttd_dr_agent.py]     ([TTDDRAgent] and the graph nodes).

    Conventions.  A Python [str] is a Rocq [string], one [ascii] per
    character, so texts range over 8-bit characters; the emoji of the
    source's log messages appear as their UTF-8 bytes (every test the code
    makes on a message looks for ASCII letters only).  A Python [int] is a
    [Z].  The language model, the web search tool, the vector store, the
    clock and the JSON decoder are external: they are fields of an
    environment [Env] that every theorem quantifies over, and every call
    to the model, the search tool and the vector store is recorded in a
    log. *)

From Stdlib Require Import String Ascii List ZArith QArith Lia Bool Arith.
From Stdlib Require Import DecimalString.
Import ListNotations.

Set Warnings "-register-all".
Local Close Scope Q_scope.
Local Open Scope list_scope.
Local Open Scope string_scope.
Local Open Scope nat_scope.

(* ------------------------------------------------------------------ *)
(** * Python strings *)
(* ------------------------------------------------------------------ *)

Module PyStr.

(** [str.isspace] on one character (the 8-bit part of Unicode
    whitespace): TAB..CR, FS..US, space, NEL and NBSP. *)
Definition is_space (c : ascii) : bool :=
  let n := nat_of_ascii c in
  ((9 <=? n) && (n <=? 13)) || ((28 <=? n) && (n <=? 32))
  || (n =? 133) || (n =? 160).

Definition is_digit (c : ascii) : bool :=
  let n := nat_of_ascii c in (48 <=? n) && (n <=? 57).

Definition upper_char (c : ascii) : ascii :=
  let n := nat_of_ascii c in
  if (97 <=? n) && (n <=? 122) then ascii_of_nat (n - 32) else c.

Definition lower_char (c : ascii) : ascii :=
  let n := nat_of_ascii c in
  if (65 <=? n) && (n <=? 90) then ascii_of_nat (n + 32) else c.

Fixpoint smap (f : ascii -> ascii) (s : string) : string :=
  match s with
  | EmptyString => EmptyString
  | String c s' => String (f c) (smap f s')
  end.

(** [s.upper()] and [s.lower()] on the letters a-z / A-Z.  The other
    characters are left as they are: the code only looks for ASCII
    letters in the result, and no other 8-bit character becomes one of
    them under Python's case mappings. *)
Definition upper : string -> string := smap upper_char.
Definition lower : string -> string := smap lower_char.

(** [s.lstrip()], [s.rstrip()], [s.strip()]. *)
Fixpoint lstrip (s : string) : string :=
  match s with
  | EmptyString => EmptyString
  | String c s' => if is_space c then lstrip s' else s
  end.

Fixpoint rstrip (s : string) : string :=
  match s with
  | EmptyString => EmptyString
  | String c s' =>
      match rstrip s' with
      | EmptyString => if is_space c then EmptyString else String c EmptyString
      | r => String c r
      end
  end.

Definition strip (s : string) : string := rstrip (lstrip s).

(** [s.startswith(p)]. *)
Fixpoint startswith (p s : string) : bool :=
  match p, s with
  | EmptyString, _ => true
  | String a p', String b s' => Ascii.eqb a b && startswith p' s'
  | String _ _, EmptyString => false
  end.

(** [p in s]. *)
Fixpoint contains (p s : string) : bool :=
  startswith p s ||
  match s with
  | EmptyString => false
  | String _ s' => contains p s'
  end.

(** [s[:n]] for [0 <= n]. *)
Fixpoint take (n : nat) (s : string) : string :=
  match n, s with
  | S n', String c s' => String c (take n' s')
  | _, _ => EmptyString
  end.

(** [s[n:]] for [0 <= n]. *)
Fixpoint drop (n : nat) (s : string) : string :=
  match n, s with
  | S n', String _ s' => drop n' s'
  | _, _ => s
  end.

(** [s.find(c)] for a one-character needle: the first index, or -1. *)
Fixpoint find_from (c : ascii) (s : string) (i : Z) : Z :=
  match s with
  | EmptyString => (-1)%Z
  | String a s' => if Ascii.eqb a c then i else find_from c s' (i + 1)%Z
  end.
Definition find (c : ascii) (s : string) : Z := find_from c s 0%Z.

(** [s.rfind(c)]: the last index, or -1. *)
Fixpoint rfind_from (c : ascii) (s : string) (i : Z) (last : Z) : Z :=
  match s with
  | EmptyString => last
  | String a s' =>
      rfind_from c s' (i + 1)%Z (if Ascii.eqb a c then i else last)
  end.
Definition rfind (c : ascii) (s : string) : Z := rfind_from c s 0%Z (-1)%Z.

(** [s[a:b]] for [0 <= a]. *)
Definition slice (a b : Z) (s : string) : string :=
  take (Z.to_nat (b - a)) (drop (Z.to_nat a) s).

(** [sep.join(l)]. *)
Definition join (sep : string) (l : list string) : string :=
  String.concat sep l.

(** [str(n)] for a natural number. *)
Definition of_nat (n : nat) : string :=
  NilEmpty.string_of_uint (Nat.to_uint n).

(** [l[-n:]] on a list, for [0 < n]. *)
Definition last_n {A} (n : nat) (l : list A) : list A :=
  skipn (List.length l - n) l.

(** [enumerate(l, k)]. *)
Fixpoint enumerate {A} (k : nat) (l : list A) : list (nat * A) :=
  match l with
  | [] => []
  | x :: l' => (k, x) :: enumerate (S k) l'
  end.

(** Python truthiness of a string. *)
Definition truthy (s : string) : bool :=
  match s with EmptyString => false | _ => true end.

End PyStr.

(* ------------------------------------------------------------------ *)
(** * Python floats read from decimal text *)
(* ------------------------------------------------------------------ *)

Module PyFloat.

(** The values [float(text)] can take on an unsigned decimal numeral: a
    finite binary64 value, kept as the rational it denotes, or [inf]. *)
Inductive t := Finite (q : Q) | Infinity.

Definition round_half_even (n d : Z) : Z :=
  let q := (n / d)%Z in
  let r := (n mod d)%Z in
  if (2 * r <? d)%Z then q
  else if (d <? 2 * r)%Z then (q + 1)%Z
  else if Z.even q then q else (q + 1)%Z.

(** Scale [n/d] by [2^-e]. *)
Definition scaled (n d e : Z) : Z * Z :=
  if (e <? 0)%Z then ((n * 2 ^ (- e))%Z, d) else (n, (d * 2 ^ e)%Z).

(** The binary64 nearest to [n/d] (ties to even), for [0 <= n], [0 < d]:
    a 53-bit significand [m] and an exponent [e >= -1074]. *)
Definition nearest (n d : Z) : t :=
  if (n =? 0)%Z then Finite 0 else
  let e1 := (Z.log2 n - Z.log2 d - 53)%Z in
  let '(a, b) := scaled n d e1 in
  let e2 := if (a / b <? 2 ^ 53)%Z then e1 else (e1 + 1)%Z in
  let e := Z.max e2 (-1074) in
  let '(a', b') := scaled n d e in
  let m := round_half_even a' b' in
  if (e <? 0)%Z
  then Finite (Qred (Qmake m (Z.to_pos (2 ^ (- e)))))
  else if (2 ^ 1024 <=? m * 2 ^ e)%Z then Infinity
       else Finite (inject_Z (m * 2 ^ e)).

Fixpoint digits_value (s : string) (acc : Z) : Z :=
  match s with
  | EmptyString => acc
  | String c s' =>
      digits_value s' (10 * acc + Z.of_nat (nat_of_ascii c - 48))%Z
  end.

(** [float(i + "." + f)] for digit strings [i] and [f] ([f] may be
    empty: no fraction). *)
Definition of_decimal (i f : string) : t :=
  nearest (digits_value f (digits_value i 0))
          (10 ^ Z.of_nat (String.length f)).

(** [x >= y] for a float [x] and a rational constant [y]. *)
Definition geb (x : t) (y : Q) : bool :=
  match x with
  | Finite q => Qle_bool y q
  | Infinity => true
  end.

End PyFloat.

(* ------------------------------------------------------------------ *)
(** * Decoded JSON values *)
(* ------------------------------------------------------------------ *)

Module Json.
Import PyStr.

(** What [json.loads] returns.  A number keeps its lexeme; an object is
    its members in document order, duplicates included ([get] reads the
    last one, as the resulting [dict] does). *)
Inductive json :=
  | JNull
  | JBool (b : bool)
  | JNum (lexeme : string)
  | JStr (s : string)
  | JArr (items : list json)
  | JObj (members : list (string * json)).

Fixpoint assoc_last (k : string) (kvs : list (string * json)) : option json :=
  match kvs with
  | [] => None
  | (k', v) :: rest =>
      match assoc_last k rest with
      | Some v' => Some v'
      | None => if String.eqb k k' then Some v else None
      end
  end.

(** ** A decoder for JSON text

    The grammar that [json.loads] accepts, on 8-bit text.  An escape
    [\uXXXX] above U+00FF names a character outside the character
    model and is not decoded. *)

Fixpoint skip_ws (s : string) : string :=
  match s with
  | String c s' =>
      if (Ascii.eqb c " " || Ascii.eqb c "009" || Ascii.eqb c "010"
          || Ascii.eqb c "013")%bool
      then skip_ws s' else s
  | EmptyString => s
  end.

(** The double quote. *)
Definition dquote : ascii := "034"%char.

Definition hex_val (c : ascii) : option nat :=
  let n := nat_of_ascii c in
  if (48 <=? n) && (n <=? 57) then Some (n - 48)
  else if (97 <=? n) && (n <=? 102) then Some (n - 87)
  else if (65 <=? n) && (n <=? 70) then Some (n - 55)
  else None.

Definition hex4 (a b c d : ascii) : option nat :=
  match hex_val a, hex_val b, hex_val c, hex_val d with
  | Some x, Some y, Some z, Some w => Some (((x * 16 + y) * 16 + z) * 16 + w)
  | _, _, _, _ => None
  end.

Definition simple_escape (e : ascii) : option ascii :=
  if Ascii.eqb e dquote then Some dquote
  else if Ascii.eqb e "\" then Some "\"%char
  else if Ascii.eqb e "/" then Some "/"%char
  else if Ascii.eqb e "b" then Some "008"%char
  else if Ascii.eqb e "f" then Some "012"%char
  else if Ascii.eqb e "n" then Some "010"%char
  else if Ascii.eqb e "r" then Some "013"%char
  else if Ascii.eqb e "t" then Some "009"%char
  else None.

(** The body of a string literal, after its opening quote. *)
Fixpoint parse_string (s : string) : option (string * string) :=
  match s with
  | EmptyString => None
  | String c s' =>
      if Ascii.eqb c dquote then Some (EmptyString, s')
      else if Ascii.eqb c "\" then
        match s' with
        | String "u" (String h1 (String h2 (String h3 (String h4 s5)))) =>
            match hex4 h1 h2 h3 h4 with
            | Some n =>
                if n <? 256 then
                  match parse_string s5 with
                  | Some (str, rest) => Some (String (ascii_of_nat n) str, rest)
                  | None => None
                  end
                else None
            | None => None
            end
        | String e s'' =>
            match simple_escape e with
            | Some ch =>
                match parse_string s'' with
                | Some (str, rest) => Some (String ch str, rest)
                | None => None
                end
            | None => None
            end
        | EmptyString => None
        end
      else if nat_of_ascii c <? 32 then None
      else
        match parse_string s' with
        | Some (str, rest) => Some (String c str, rest)
        | None => None
        end
  end.

Fixpoint span_digits (s : string) : string * string :=
  match s with
  | String c s' =>
      if is_digit c then let '(a, b) := span_digits s' in (String c a, b)
      else (EmptyString, s)
  | EmptyString => (EmptyString, EmptyString)
  end.

(** A JSON number at the head of [s]: an optional minus, an integer
    part without a leading zero, an optional fraction and an optional
    exponent, each taken only when its digits are there. *)
Definition parse_number (s : string) : option (string * string) :=
  let '(sign, s1) :=
    match s with
    | String "-" r => ("-", r)
    | _ => (EmptyString, s)
    end in
  let int_part :=
    match s1 with
    | String "0" r => Some ("0", r)
    | _ => match span_digits s1 with
           | (EmptyString, _) => None
           | (ds, r) => Some (ds, r)
           end
    end in
  match int_part with
  | None => None
  | Some (ds, s2) =>
      let '(frac, s3) :=
        match s2 with
        | String "." r =>
            match span_digits r with
            | (EmptyString, _) => (EmptyString, s2)
            | (fs, r') => ("." ++ fs, r')
            end
        | _ => (EmptyString, s2)
        end in
      let '(exp, s4) :=
        match s3 with
        | String e r =>
            if (Ascii.eqb e "e" || Ascii.eqb e "E")%bool then
              let '(sg, r1) :=
                match r with
                | String "-" r' => ("-", r')
                | String "+" r' => ("+", r')
                | _ => (EmptyString, r)
                end in
              match span_digits r1 with
              | (EmptyString, _) => (EmptyString, s3)
              | (es, r2) => (String e (sg ++ es), r2)
              end
            else (EmptyString, s3)
        | _ => (EmptyString, s3)
        end in
      Some (sign ++ ds ++ frac ++ exp, s4)
  end.

Definition literal (lit : string) (v : json) (s : string)
  : option (json * string) :=
  if startswith lit s then Some (v, drop (String.length lit) s) else None.

Fixpoint parse_value (fuel : nat) (s : string) {struct fuel}
  : option (json * string) :=
  match fuel with
  | O => None
  | S fuel' =>
      match s with
      | String "034" r =>
          match parse_string r with
          | Some (str, rest) => Some (JStr str, rest)
          | None => None
          end
      | String "[" r =>
          match skip_ws r with
          | String "]" rest => Some (JArr [], rest)
          | r' =>
              match parse_elements fuel' r' with
              | Some (items, rest) => Some (JArr items, rest)
              | None => None
              end
          end
      | String "{" r =>
          match skip_ws r with
          | String "}" rest => Some (JObj [], rest)
          | r' =>
              match parse_members fuel' r' with
              | Some (kvs, rest) => Some (JObj kvs, rest)
              | None => None
              end
          end
      | String "n" _ => literal "null" JNull s
      | String "t" _ => literal "true" (JBool true) s
      | String "f" _ => literal "false" (JBool false) s
      | String "N" _ => literal "NaN" (JNum "NaN") s
      | String "I" _ => literal "Infinity" (JNum "Infinity") s
      | _ =>
          if startswith "-Infinity" s
          then Some (JNum "-Infinity", drop 9 s)
          else
            match parse_number s with
            | Some (lexeme, rest) => Some (JNum lexeme, rest)
            | None => None
            end
      end
  end

(** The items of an array after ["["], up to and including ["]"]. *)
with parse_elements (fuel : nat) (s : string) {struct fuel}
  : option (list json * string) :=
  match fuel with
  | O => None
  | S fuel' =>
      match parse_value fuel' s with
      | Some (v, rest) =>
          match skip_ws rest with
          | String "]" rest' => Some ([v], rest')
          | String "," rest' =>
              match parse_elements fuel' (skip_ws rest') with
              | Some (vs, rest'') => Some (v :: vs, rest'')
              | None => None
              end
          | _ => None
          end
      | None => None
      end
  end

(** The members of an object after ["{"], up to and including ["}"]. *)
with parse_members (fuel : nat) (s : string) {struct fuel}
  : option (list (string * json) * string) :=
  match fuel with
  | O => None
  | S fuel' =>
      match s with
      | String "034" r =>
          match parse_string r with
          | Some (key, rest) =>
              match skip_ws rest with
              | String ":" rest1 =>
                  match parse_value fuel' (skip_ws rest1) with
                  | Some (v, rest2) =>
                      match skip_ws rest2 with
                      | String "}" rest3 => Some ([(key, v)], rest3)
                      | String "," rest3 =>
                          match parse_members fuel' (skip_ws rest3) with
                          | Some (kvs, rest4) => Some ((key, v) :: kvs, rest4)
                          | None => None
                          end
                      | _ => None
                      end
                  | None => None
                  end
              | _ => None
              end
          | None => None
          end
      | _ => None
      end
  end.

(** One value, whitespace around it, nothing else. *)
Definition loads (s : string) : option json :=
  match parse_value (2 * String.length s + 2) (skip_ws s) with
  | Some (v, rest) =>
      match skip_ws rest with
      | EmptyString => Some v
      | _ => None
      end
  | None => None
  end.

End Json.

(* ------------------------------------------------------------------ *)
(** * The outside world: model, search tool, vector store, clock *)
(* ------------------------------------------------------------------ *)

Module World.
Export Json.

(** A prompt template with the dictionary it is invoked on:
    [(ChatPromptTemplate.from_messages([("system", s), ("user", u)])
      | model).invoke(vars)]. *)
Record Prompt := mkPrompt {
  system : string;
  user : string;
  vars : list (string * string)
  }.

(** A document returned by the retriever: [d['metadata']['name']] and
    [d['content']]. *)
Record Doc := mkDoc { doc_name : string; doc_content : string }.

(** The calls that leave the process, with what came back. *)
Inductive Event :=
  | LLM (p : Prompt) (response : string)
  | WebSearch (query : string) (results : string)
  | Retrieve (query : string) (top_k : Z) (docs : option (list Doc)).

Definition Log := list Event.

(** The collaborators.  Each answer may depend on everything that
    happened before, so nothing is assumed about the model.
    - [model log p] is [response.content];
    - [web_search_tool log q] is [str(web_search_tool.invoke(...))];
    - [retriever] is [None] when the manifest is missing; a retrieval
      gives [None] when it raises;
    - [now] is [datetime.now().isoformat()];
    - [json_loads] is [json.loads] ([None]: [JSONDecodeError]);
    - [py_repr] is the interpreter's [str()] of a decoded value that is
      not a string. *)
Record Env := mkEnv {
  model : Log -> Prompt -> string;
  web_search_tool : Log -> string -> string;
  retriever : option (Log -> string -> Z -> option (list Doc));
  now : Log -> string;
  json_loads : string -> option json;
  py_repr : json -> string
  }.

Inductive exn := JSONDecodeError | AttributeError | TypeError.

Inductive Result (A : Type) :=
  | Ok (a : A)
  | Raise (e : exn).
Arguments Ok {A} a.
Arguments Raise {A} e.

(** Computations that call out and may raise. *)
Definition M (A : Type) : Type := Log -> Result A * Log.

Definition ret {A} (a : A) : M A := fun log => (Ok a, log).

Definition bind {A B} (c : M A) (k : A -> M B) : M B :=
  fun log =>
    match c log with
    | (Ok a, log') => k a log'
    | (Raise e, log') => (Raise e, log')
    end.

Definition raise {A} (e : exn) : M A := fun log => (Raise e, log).

Definition lift {A} (r : Result A) : M A := fun log => (r, log).

(** [for x in l: body], where the body may [break]. *)
Inductive control (S : Type) := Continue (s : S) | Break (s : S).
Arguments Continue {S} s.
Arguments Break {S} s.

Fixpoint for_each {X S} (l : list X) (body : X -> S -> M (control S)) (s : S)
  : M S :=
  match l with
  | [] => ret s
  | x :: l' =>
      bind (body x s) (fun c =>
        match c with
        | Continue s' => for_each l' body s'
        | Break s' => ret s'
        end)
  end.

Fixpoint map_m {X Y} (f : X -> M Y) (l : list X) : M (list Y) :=
  match l with
  | [] => ret []
  | x :: l' => bind (f x) (fun y => bind (map_m f l') (fun ys => ret (y :: ys)))
  end.

(** [range(n)]. *)
Definition range (n : Z) : list Z :=
  map Z.of_nat (seq 0 (Z.to_nat n)).

Section Calls.
Variable env : Env.

Definition invoke (p : Prompt) : M string :=
  fun log => let r := model env log p in (Ok r, (log ++ [LLM p r])%list).

Definition web_search (q : string) : M string :=
  fun log =>
  let r := web_search_tool env log q in (Ok r, (log ++ [WebSearch q r])%list).

Definition retrieve (f : Log -> string -> Z -> option (list Doc))
           (q : string) (top_k : Z) : M (option (list Doc)) :=
  fun log => let r := f log q top_k in (Ok r, (log ++ [Retrieve q top_k r])%list).

Definition clock : M string := fun log => (Ok (now env log), log).
End Calls.

Definition is_web (e : Event) : bool :=
  match e with WebSearch _ _ => true | _ => false end.

Definition is_llm (sys : string) (e : Event) : bool :=
  match e with LLM p _ => String.eqb (system p) sys | _ => false end.

Definition count (f : Event -> bool) (log : Log) : nat :=
  List.length (filter f log).

End World.

Declare Scope m_scope.
Delimit Scope m_scope with m.
Notation "x <- c ;; k" := (World.bind c (fun x => k))
  (at level 61, c at next level, right associativity) : m_scope.
Notation "' p <- c ;; k" := (World.bind c (fun p => k))
  (at level 61, p pattern, c at next level, right associativity) : m_scope.

Definition nl : string := String "010" EmptyString.

(* ------------------------------------------------------------------ *)
(** * refinement/evaluator.py: score and feedback extraction *)
(* ------------------------------------------------------------------ *)

Module Evaluator.
Import PyStr World.

(** A literal of the pattern matched under [re.IGNORECASE]. *)
Definition startswith_ci (lit s : string) : bool :=
  startswith (lower lit) (lower (take (String.length lit) s)).

(** The longest prefix of characters satisfying [p], and the rest. *)
Fixpoint span (p : ascii -> bool) (s : string) : string * string :=
  match s with
  | EmptyString => (EmptyString, EmptyString)
  | String c s' =>
      if p c then let '(a, b) := span p s' in (String c a, b)
      else (EmptyString, s)
  end.

(** [Score:\s*(\d+(?:\.\d+)?)] anchored at the head of [s]: the integer
    and fraction digits of group 1.  [\s*] and [\d+] are greedy and the
    classes are disjoint, so no shorter choice can succeed where the
    longest fails. *)
Definition match_score_at (s : string) : option (string * string) :=
  if startswith_ci "Score:" s then
    let rest := lstrip (drop 6 s) in
    let '(int_part, after) := span is_digit rest in
    match int_part with
    | EmptyString => None
    | _ =>
        match after with
        | String "." after' =>
            let '(frac, _) := span is_digit after' in
            Some (int_part, frac)
        | _ => Some (int_part, EmptyString)
        end
    end
  else None.

(** [re.search]: the leftmost position where the anchored match
    succeeds. *)
Fixpoint search {A} (m : string -> option A) (s : string) : option A :=
  match m s with
  | Some g => Some g
  | None =>
      match s with
      | EmptyString => None
      | String _ s' => search m s'
      end
  end.

Definition _extract_score (content : string) : PyFloat.t :=
  match search match_score_at content with
  | Some (i, f) => PyFloat.of_decimal i f
  | None => PyFloat.Finite 5
  end.

Fixpoint last_char (s : string) : string :=
  match s with
  | EmptyString => EmptyString
  | String c EmptyString => s
  | String _ s' => last_char s'
  end.

(** [Feedback:\s*(.+)] with [re.DOTALL], anchored at the head of [s]:
    group 1 is everything after the label and its whitespace; when only
    whitespace follows the label, [\s*] gives back its last character
    to [.+]. *)
Definition match_feedback_at (s : string) : option string :=
  if startswith_ci "Feedback:" s then
    let rest := drop 9 s in
    match lstrip rest with
    | EmptyString =>
        match rest with
        | EmptyString => None
        | _ => Some (last_char rest)
        end
    | g => Some g
    end
  else None.

Definition _extract_feedback (content : string) : string :=
  match search match_feedback_at content with
  | Some g => strip g
  | None => content
  end.

(** ** The judge calls *)

Definition answer_system : string :=
  "Expert evaluator. Rate answer on: Helpfulness, Accuracy, Completeness. Format: 'Score: X"
  ++ nl ++ "Feedback: ...'".
Definition answer_user : string :=
  "Question: {question}" ++ nl ++ "Answer: {answer}".

Definition report_system : string :=
  "Expert evaluator. Rate feasibility report on: Comprehensiveness, Professional Quality, Actionability. Format: 'Score: X"
  ++ nl ++ "Feedback: ...'".
Definition report_user : string :=
  "Query: {query}" ++ nl ++ "Report:" ++ nl ++ "{report}".

Definition answer_prompt (question answer : string) : Prompt :=
  mkPrompt answer_system answer_user
           [("question", question); ("answer", answer)].

Section WithEnv.
Variable env : Env.

Definition evaluate_answer (question answer : string)
  : M (PyFloat.t * string) :=
  (content <- invoke env (answer_prompt question answer) ;;
  ret (_extract_score content, _extract_feedback content))%m.

Definition evaluate_report (query report : string)
  : M (PyFloat.t * string) :=
  (content <- invoke env (mkPrompt report_system report_user
                            [("query", query); ("report", report)]) ;;
  ret (_extract_score content, _extract_feedback content))%m.
End WithEnv.

End Evaluator.

(* ------------------------------------------------------------------ *)
(** * refinement/self_evolution.py *)
(* ------------------------------------------------------------------ *)

Module SelfEvolution.
Import PyStr World.

Definition variants_system : string :=
  "Generate diverse, comprehensive answer. Focus on different aspects than previous.".
Definition variants_user : string :=
  "Question: {question}" ++ nl ++ "Initial: {initial_answer}".

Definition revise_system : string := "Improve answer based on feedback.".
Definition revise_user : string :=
  "Question: {question}" ++ nl ++ "Answer: {answer}" ++ nl
  ++ "Feedback: {feedback}" ++ nl ++ nl ++ "Improved:".

Definition merge_system : string :=
  "Merge candidate answers into comprehensive answer. Combine best info, reconcile conflicts.".
Definition merge_user : string :=
  "Question: {question}" ++ nl ++ "Candidates:" ++ nl ++ "{variants}".

Definition revise_prompt (question answer feedback : string) : Prompt :=
  mkPrompt revise_system revise_user
           [("question", question); ("answer", answer);
            ("feedback", feedback)].

Section WithEnv.
Variable env : Env.

Definition _generate_variants (question initial_answer : string)
           (num_variants : Z) : M (list string) :=
  map_m (fun _ : Z =>
           invoke env (mkPrompt variants_system variants_user
                         [("question", question);
                          ("initial_answer", initial_answer)]))
        (range num_variants).

Definition _revise_with_feedback (question answer feedback : string)
  : M string :=
  invoke env (revise_prompt question answer feedback).

(** One round of [_evolve_variant]'s loop: judge, stop at a score of
    8.0 or more, else revise. *)
Definition evolve_round (question : string) (_ : Z) (current : string)
  : M (control string) :=
  ('(score, feedback) <- Evaluator.evaluate_answer env question current ;;
  if PyFloat.geb score 8
  then ret (Break current)
  else
     revised <- _revise_with_feedback question current feedback ;;
     ret (Continue revised))%m.

Definition _evolve_variant (question variant : string)
           (num_iterations : Z) : M string :=
  for_each (range num_iterations) (evolve_round question) variant.

Definition _merge_variants (question : string) (variants : list string)
  : M string :=
  let variants_text :=
  join (nl ++ nl ++ "---" ++ nl ++ nl)
         (map (fun '(i, v) => "Variant " ++ of_nat (i + 1) ++ ":" ++ nl ++ v)
              (enumerate 0 variants)) in
  invoke env (mkPrompt merge_system merge_user
                [("question", question); ("variants", variants_text)]).

Definition evolve_answer (question initial_answer : string)
           (num_variants num_iterations : Z) : M string :=
  (variants <- _generate_variants question initial_answer num_variants ;;
  evolved_variants <-
     map_m (fun v => _evolve_variant question v num_iterations) variants ;;
  _merge_variants question evolved_variants)%m.
End WithEnv.

End SelfEvolution.

(* ------------------------------------------------------------------ *)
(** * planner/planner.py *)
(* ------------------------------------------------------------------ *)

Module Planner.
Import PyStr World.

Definition planner_system : string :=
  "Expert real estate analyst. Generate comprehensive research plan covering: Site Context, Zoning, Environmental, Infrastructure, Market, Opportunities, Risks. Output JSON with 'sections' array containing objects with 'title' and 'questions' fields.".

Definition full_query (query brief : string) : string :=
  "Address: " ++ query
  ++ (if truthy brief then nl ++ "Brief: " ++ brief else EmptyString).

Definition planner_prompt (query brief : string) : Prompt :=
  mkPrompt planner_system "{query}" [("query", full_query query brief)].

(** [{"sections": [{"title": "General Research", "questions": [query]}]}] *)
Definition default_plan (query : string) : json :=
  JObj [("sections",
         JArr [JObj [("title", JStr "General Research");
                     ("questions", JArr [JStr query])]])].

Section WithEnv.
Variable env : Env.

(** What [generate_plan] does with the model's text. *)
Definition plan_of_content (query content : string) : Result json :=
  match json_loads env content with
  | Some plan => Ok plan
  | None =>
      let start := find "{" content in
      let end_ := (rfind "}" content + 1)%Z in
      if negb (start =? -1)%Z && (start <? end_)%Z then
        match json_loads env (slice start end_ content) with
        | Some plan => Ok plan
        | None => Raise JSONDecodeError
        end
      else Ok (default_plan query)
  end.

Definition generate_plan (query brief : string) : M json :=
  (content <- invoke env (planner_prompt query brief) ;;
  lift (plan_of_content query content))%m.
End WithEnv.

End Planner.


(* ------------------------------------------------------------------ *)
(** * What the agent does with a decoded plan *)
(* ------------------------------------------------------------------ *)

Module PyJson.
Import PyStr World.

Definition rbind {A B} (r : Result A) (k : A -> Result B) : Result B :=
  match r with
  | Ok a => k a
  | Raise e => Raise e
  end.

Fixpoint rmap {A B} (f : A -> Result B) (l : list A) : Result (list B) :=
  match l with
  | [] => Ok []
  | x :: l' =>
      rbind (f x) (fun y => rbind (rmap f l') (fun ys => Ok (y :: ys)))
  end.

(** [v.get(k, default)]: only a dict has [get]. *)
Definition dict_get (v : json) (k : string) (default : json) : Result json :=
  match v with
  | JObj kvs =>
      Ok (match assoc_last k kvs with Some x => x | None => default end)
  | _ => Raise AttributeError
  end.

Fixpoint chars (s : string) : list json :=
  match s with
  | EmptyString => []
  | String c s' => JStr (String c EmptyString) :: chars s'
  end.

Fixpoint keys (seen : list string) (kvs : list (string * json)) : list json :=
  match kvs with
  | [] => []
  | (k, _) :: rest =>
      if existsb (String.eqb k) seen then keys seen rest
      else JStr k :: keys (k :: seen) rest
  end.

(** [for x in v]: the items of a list, the characters of a string, the
    keys of a dict; nothing else is iterable. *)
Definition py_iter (v : json) : Result (list json) :=
  match v with
  | JArr l => Ok l
  | JStr s => Ok (chars s)
  | JObj kvs => Ok (keys [] kvs)
  | _ => Raise TypeError
  end.

(** [len(v)]. *)
Definition py_len (v : json) : Result nat :=
  match v with
  | JArr l => Ok (List.length l)
  | JStr s => Ok (String.length s)
  | JObj kvs => Ok (List.length (keys [] kvs))
  | _ => Raise TypeError
  end.

(** [v[:n]]: lists and strings can be sliced; a dict or a scalar
    raises ([TypeError]; for a dict [KeyError] from Python 3.12 on, a
    difference that plays no part below). *)
Definition py_slice_to (n : nat) (v : json) : Result json :=
  match v with
  | JArr l => Ok (JArr (firstn n l))
  | JStr s => Ok (JStr (take n s))
  | _ => Raise TypeError
  end.

(** [str(v)] inside an f-string. *)
Definition py_str (env : Env) (v : json) : string :=
  match v with
  | JStr s => s
  | _ => py_repr env v
  end.

(** [str(z)] for an integer. *)
Definition of_Z (z : Z) : string := NilEmpty.string_of_int (Z.to_int z).

End PyJson.

Declare Scope r_scope.
Delimit Scope r_scope with r.
Notation "x <- c ;; k" := (PyJson.rbind c (fun x => k))
  (at level 61, c at next level, right associativity) : r_scope.

(* ------------------------------------------------------------------ *)
(** * memory/state.py *)
(* ------------------------------------------------------------------ *)

Module State.
Import PyStr World.

Record SearchResult := mkSearchResult {
  question : string;
  answer : string;
  sources : list string;
  timestamp : string;
  score : PyFloat.t
  }.

Record AgentState := mkAgentState {
  query : string;
  brief : string;
  plan : json;
  search_history : list SearchResult;
  draft_report : string;
  revision_count : Z;
  final_report : string;
  metadata : list (string * json)
  }.

(** [AgentState(query=address, brief=brief)]. *)
Definition new_state (query brief : string) : AgentState :=
  mkAgentState query brief (JObj []) [] EmptyString 0 EmptyString [].

(** Attribute assignments [state.plan = ...] and the like. *)
Definition set_plan (st : AgentState) (p : json) : AgentState :=
  mkAgentState (query st) (brief st) p (search_history st)
               (draft_report st) (revision_count st) (final_report st)
               (metadata st).

Definition set_draft_report (st : AgentState) (d : string) : AgentState :=
  mkAgentState (query st) (brief st) (plan st) (search_history st)
               d (revision_count st) (final_report st) (metadata st).

Definition set_final_report (st : AgentState) (r : string) : AgentState :=
  mkAgentState (query st) (brief st) (plan st) (search_history st)
               (draft_report st) (revision_count st) r (metadata st).

(** [self.search_history.append(SearchResult(...))] with the record
    already built. *)
Definition append_result (st : AgentState) (r : SearchResult) : AgentState :=
  mkAgentState (query st) (brief st) (plan st)
               (search_history st ++ [r])%list
               (draft_report st) (revision_count st) (final_report st)
               (metadata st).

Section WithEnv.
Variable env : Env.

(** [add_search_result]: the timestamp is read from the clock when the
    record is built; [sources or []]. *)
Definition add_search_result (st : AgentState) (question answer : string)
           (sources : option (list string)) : M AgentState :=
  (ts <- clock env ;;
  ret (append_result st
          (mkSearchResult question answer
             (match sources with Some l => l | None => [] end)
             ts (PyFloat.Finite 0))))%m.
End WithEnv.

Definition get_search_context (st : AgentState) (last_n : Z) : string :=
  let recent :=
    if (0 <? last_n)%Z
    then PyStr.last_n (Z.to_nat last_n) (search_history st)
    else search_history st in
  join (nl ++ nl)
       (map (fun '(i, r) =>
               "Q" ++ of_nat i ++ ": " ++ question r ++ nl
               ++ "A" ++ of_nat i ++ ": " ++ answer r)
            (enumerate 1 recent)).

Definition update_draft (st : AgentState) (new_draft : string) : AgentState :=
  mkAgentState (query st) (brief st) (plan st) (search_history st)
               new_draft (revision_count st + 1)%Z (final_report st)
               (metadata st).

End State.

(* ------------------------------------------------------------------ *)
(** * agents/ttd_dr_agent.py: the direct-call agent *)
(* ------------------------------------------------------------------ *)

Module Agent.
Import PyStr World PyJson State.

(** The settings kept by [TTDDRAgent.__init__]. *)
Record Config := mkConfig {
  max_search_steps : Z;
  use_self_evolution : bool;
  use_diffusion : bool
  }.

Definition draft_system : string :=
  "Generate an initial draft feasibility study. Use internal knowledge plus knowledge base to create a preliminary structure that will be refined through research.".
Definition draft_user : string :=
  "Address: {address}" ++ nl ++ "Brief: {brief}" ++ nl ++ "Plan:" ++ nl
  ++ "{plan}" ++ nl ++ nl ++ "Generate initial draft.".

Definition question_system : string :=
  "Generate the next specific search question for the feasibility study. Consider the plan, previous questions, and current gaps. Return a focused question or 'DONE' if complete.".
Definition question_user : string :=
  "Address: {address}" ++ nl ++ "Plan:" ++ nl ++ "{plan}" ++ nl
  ++ "Previous:" ++ nl ++ "{previous}" ++ nl ++ "Draft:" ++ nl ++ "{draft}"
  ++ nl ++ nl ++ "Next question:".

Definition synth_system : string :=
  "Synthesize a comprehensive answer from search results. Focus on property feasibility facts.".
Definition synth_user : string :=
  "Question: {question}" ++ nl ++ nl ++ "Web:" ++ nl ++ "{web}" ++ nl ++ nl
  ++ "KB:" ++ nl ++ "{kb}" ++ nl ++ nl ++ "Answer:".

Definition denoise_system : string :=
  "Refine the draft by incorporating new research. Update facts, verify information, add details.".
Definition denoise_user : string :=
  "Draft:" ++ nl ++ "{draft}" ++ nl ++ nl ++ "Latest:" ++ nl ++ "{latest}"
  ++ nl ++ nl ++ "Refine:".

Definition final_system : string :=
  "Generate a comprehensive investor-grade feasibility study. Structure: Executive Summary, Site Context, Zoning, Environmental, Infrastructure, Market, Opportunities, Risks, Recommendations. Use professional language and cite sources.".
Definition final_user : string :=
  "Address: {address}" ++ nl ++ "Brief: {brief}" ++ nl ++ "Research:" ++ nl
  ++ "{research}" ++ nl ++ "Draft:" ++ nl ++ "{draft}" ++ nl ++ nl
  ++ "Generate final report:".

(** [state.brief or "General feasibility assessment"]. *)
Definition brief_or_default (b : string) : string :=
  if truthy b then b else "General feasibility assessment".

(** [f"Q: {r.question}\nA: {r.answer}"] joined by blank lines. *)
Definition qa_text (l : list SearchResult) : string :=
  join (nl ++ nl)
       (map (fun r => "Q: " ++ question r ++ nl ++ "A: " ++ answer r) l).

(** The knowledge-base block of [_search_and_answer]. *)
Definition kb_text (docs : list Doc) : string :=
  join (nl ++ nl)
       (map (fun d => "[" ++ doc_name d ++ "]" ++ nl
                      ++ take 300 (doc_content d)) docs).

Section WithEnv.
Variable env : Env.

(** The lines one section contributes to [_format_plan]. *)
Definition section_lines (i : nat) (section : json) : Result (list string) :=
  (title <- dict_get section "title" (JStr "Section") ;;
  qs <- dict_get section "questions" (JArr []) ;;
  qs3 <- py_slice_to 3 qs ;;
  items <- py_iter qs3 ;;
  Ok ((of_nat i ++ ". " ++ py_str env title)
         :: map (fun q => "   - " ++ py_str env q) items))%r.

Definition _format_plan (plan : json) : Result string :=
  (sections <- dict_get plan "sections" (JArr []) ;;
  items <- py_iter sections ;;
  lines <- rmap (fun '(i, section) => section_lines i section)
                 (enumerate 1 items) ;;
  Ok (join nl (List.concat lines)))%r.

(** The dictionary the draft template is invoked on. *)
Definition initial_draft_vars (st : AgentState)
  : Result (list (string * string)) :=
  (plan_text <- _format_plan (plan st) ;;
  Ok [("address", query st);
       ("brief", brief_or_default (brief st));
       ("plan", plan_text)])%r.

Definition _generate_initial_draft (st : AgentState) : M string :=
  (vars <- lift (initial_draft_vars st) ;;
  invoke env (mkPrompt draft_system draft_user vars))%m.

(** [previous]: the last five questions, numbered from 1 in the order
    of the history, or ["None"]. *)
Definition previous_questions (st : AgentState) : string :=
  let text :=
  join nl (map (fun '(i, r) => of_nat (i + 1) ++ ". " ++ question r)
                 (enumerate 0 (last_n 5 (search_history st)))) in
  if truthy text then text else "None".

(** [state.draft_report[:500] if state.draft_report else "No draft"]. *)
Definition draft_snapshot (st : AgentState) : string :=
  if truthy (draft_report st) then take 500 (draft_report st)
  else "No draft".

(** The dictionary the question template is invoked on. *)
Definition question_vars (st : AgentState)
  : Result (list (string * string)) :=
  (plan_text <- _format_plan (plan st) ;;
  Ok [("address", query st);
       ("plan", plan_text);
       ("previous", previous_questions st);
       ("draft", draft_snapshot st)])%r.

Definition question_prompt (vars : list (string * string)) : Prompt :=
  mkPrompt question_system question_user vars.

Definition _generate_search_question (st : AgentState) : M string :=
  (vars <- lift (question_vars st) ;;
  content <- invoke env (question_prompt vars) ;;
  ret (strip content))%m.

(** The retrieval of [_search_and_answer]: skipped without a
    retriever, and an exception leaves [kb_results] empty. *)
Definition kb_lookup (question : string) : M string :=
  match retriever env with
  | None => ret EmptyString
  | Some f =>
      (docs <- retrieve f question 2 ;;
       ret (match docs with
            | Some ds => kb_text ds
            | None => EmptyString
            end))%m
  end.

Definition synth_prompt (question web kb : string) : Prompt :=
  mkPrompt synth_system synth_user
           [("question", question);
            ("web", take 2000 web);
            ("kb", if truthy kb then take 1000 kb else "N/A")].

Definition _search_and_answer (question : string) (st : AgentState)
  : M string :=
  (web_results <- web_search env question ;;
  kb_results <- kb_lookup question ;;
  invoke env (synth_prompt question web_results kb_results))%m.

Definition _denoise_draft (st : AgentState) : M string :=
  let latest := last_n 3 (search_history st) in
  invoke env (mkPrompt denoise_system denoise_user
                [("draft", draft_report st); ("latest", qa_text latest)]).

Definition _generate_final_report (cfg : Config) (st : AgentState)
  : M string :=
  invoke env (mkPrompt final_system final_user
                [("address", query st);
                 ("brief", brief_or_default (brief st));
                 ("research", qa_text (search_history st));
                 ("draft", if use_diffusion cfg then draft_report st
                           else EmptyString)]).

(** [not question or question == "DONE"]. *)
Definition is_done (question : string) : bool :=
  negb (truthy question) || String.eqb question "DONE".

(** The self-evolution test of the loop. *)
Definition evolves (cfg : Config) (step : Z) : bool :=
  use_self_evolution cfg && (step mod 3 =? 0)%Z.

(** The end of the loop body: [state.add_search_result(question, answer)],
    then [state.update_draft(self._denoise_draft(state))] under
    [use_diffusion]. *)
Definition store_and_denoise (cfg : Config) (st : AgentState)
           (question answer : string) : M (control AgentState) :=
  (st <- add_search_result env st question answer None ;;
   st <- (if use_diffusion cfg
          then (d <- _denoise_draft st ;; ret (update_draft st d))
          else ret st) ;;
   ret (Continue st))%m.

(** The body of the [for step in range(self.max_search_steps)] loop. *)
Definition search_step (cfg : Config) (step : Z) (st : AgentState)
  : M (control AgentState) :=
  (question <- _generate_search_question st ;;
   if is_done question then ret (Break st)
   else
     answer <- _search_and_answer question st ;;
     answer <- (if evolves cfg step
                then SelfEvolution.evolve_answer env question answer 2 1
                else ret answer) ;;
     store_and_denoise cfg st question answer)%m.

Definition _iterative_search_and_refine (cfg : Config) (st : AgentState)
  : M AgentState :=
  for_each (range (max_search_steps cfg)) (search_step cfg) st.

(** [len(state.plan.get('sections', []))], evaluated for the progress
    line. *)
Definition count_sections (plan : json) : Result nat :=
  (sections <- dict_get plan "sections" (JArr []) ;; py_len sections)%r.

Definition run (cfg : Config) (address brief : string) : M AgentState :=
  (let st := new_state address brief in
  plan <- Planner.generate_plan env address brief ;;
  let st := set_plan st plan in
  _ <- lift (count_sections plan) ;;
  st <- (if use_diffusion cfg
          then (d <- _generate_initial_draft st ;;
                ret (set_draft_report st d))
          else ret st) ;;
  st <- _iterative_search_and_refine cfg st ;;
  report <- _generate_final_report cfg st ;;
  ret (set_final_report st report))%m.
End WithEnv.

End Agent.

(* ------------------------------------------------------------------ *)
(** * agents/ttd_dr_agent.py: the graph nodes and their routing *)
(* ------------------------------------------------------------------ *)

Module Graph.
Import PyStr World PyJson.

(** [TTDDRGraphState].  A message is kept as its [content]; [messages]
    is the only key with a reducer ([operator.add]), every other key is
    overwritten by a node's update. *)
Record TTDDRGraphState := mkGraphState {
  messages : list string;
  address : string;
  brief : string;
  plan : json;
  search_history : list (string * string);
  draft_report : string;
  final_report : string;
  step_count : Z
  }.

Definition search_question_system : string :=
  "Generate the next specific search question for feasibility study. Consider plan, previous questions, and knowledge gaps. Return focused question or 'DONE'.".
Definition search_question_user : string :=
  "Address: {address}" ++ nl ++ "Step: {step}/2" ++ nl ++ "Plan:" ++ nl
  ++ "{plan}" ++ nl ++ "Previous:" ++ nl ++ "{history}" ++ nl ++ nl
  ++ "Next question:".

Definition graph_draft_system : string :=
  "Generate an initial feasibility draft. Use internal knowledge to create preliminary structure that will be refined through research.".
Definition graph_draft_user : string := Agent.draft_user.

Definition graph_answer_system : string :=
  "Synthesize answer from search results. Focus on property feasibility facts.".
Definition graph_answer_user : string :=
  "Question: {q}" ++ nl ++ "Web:" ++ nl ++ "{web}" ++ nl ++ "KB:" ++ nl
  ++ "{kb}" ++ nl ++ nl ++ "Answer:".

Definition graph_denoise_system : string :=
  "Refine draft through diffusion denoising. Incorporate research, update facts, verify consistency, maintain structure, improve clarity.".
Definition graph_denoise_user : string :=
  "Draft:" ++ nl ++ "{draft}" ++ nl ++ nl ++ "Research:" ++ nl
  ++ "{research}" ++ nl ++ nl ++ "Refine:".

Definition graph_final_system : string :=
  "Generate comprehensive investor-grade feasibility study. Structure: Executive Summary, Site Context, Zoning, Environmental, Infrastructure, Market, Opportunities, Risks, Recommendations. Use professional language, cite sources, be thorough.".
Definition graph_final_user : string := Agent.final_user.

Definition complete_message : string := "✓ Research complete".

Definition pairs_text (l : list (string * string)) : string :=
  join (nl ++ nl)
       (map (fun '(q, a) => "Q: " ++ q ++ nl ++ "A: " ++ a) l).

(** The reducer of [messages]: [operator.add]. *)
Definition operator_add (old new : list string) : list string :=
  (old ++ new)%list.

(** [l[-1]] of a non-empty list. *)
Definition last_message (l : list string) : string := List.last l EmptyString.

Section WithEnv.
Variable env : Env.

(** [parse_input_node]: each input message stands for the text the
    node reads from it. *)
Definition parse_input_node (st : TTDDRGraphState) : M TTDDRGraphState :=
  match messages st with
  | [] =>
      ret (mkGraphState (messages st) EmptyString EmptyString (plan st) []
                        (draft_report st) (final_report st) 0)
  | _ =>
      let user_input := last_message (messages st) in
      ret (mkGraphState
             (operator_add (messages st) ["🎯 Starting: " ++ user_input])
             user_input EmptyString (plan st) []
             (draft_report st) (final_report st) 0)
  end.

Definition stage1_plan_node (st : TTDDRGraphState) : M TTDDRGraphState :=
  (plan <- Planner.generate_plan env (address st) (brief st) ;;
  n <- lift (Agent.count_sections plan) ;;
  ret (mkGraphState
          (operator_add (messages st) ["📝 Plan: " ++ of_nat n ++ " sections"])
          (address st) (brief st) plan (search_history st)
          (draft_report st) (final_report st) (step_count st)))%m.

(** The titles of the plan's sections, as the nodes list them. *)
Definition titles (plan : json) : Result (list string) :=
  (sections <- dict_get plan "sections" (JArr []) ;;
  items <- py_iter sections ;;
  rmap (fun s => (t <- dict_get s "title" (JStr "Section") ;;
                   Ok (py_str env t))%r) items)%r.

Definition stage2_draft_node (st : TTDDRGraphState) : M TTDDRGraphState :=
  (ts <- lift (titles (plan st)) ;;
  let plan_text :=
     join nl (map (fun '(i, t) => of_nat (i + 1) ++ ". " ++ t)
                  (enumerate 0 ts)) in
  content <- invoke env (mkPrompt graph_draft_system graph_draft_user
                            [("address", address st);
                             ("brief", brief st);
                             ("plan", plan_text)]) ;;
  ret (mkGraphState
          (operator_add (messages st) ["✍️ Initial draft: " ++ of_nat (String.length content)
               ++ " chars"])
          (address st) (brief st) (plan st) (search_history st)
          content (final_report st) (step_count st)))%m.

Definition history_text (st : TTDDRGraphState) : string :=
  match search_history st with
  | [] => "None"
  | _ =>
      join nl (map (fun '(i, (q, _)) => of_nat (i + 1) ++ ". " ++ q)
                   (enumerate 0 (last_n 3 (search_history st))))
  end.

(** The dictionary the question template is invoked on. *)
Definition search_question_vars (st : TTDDRGraphState)
  : Result (list (string * string)) :=
  (ts <- titles (plan st) ;;
  let plan_text := join nl (map (fun t => "• " ++ t) ts) in
  Ok [("address", address st);
       ("step", of_Z (step_count st + 1));
       ("plan", plan_text);
       ("history", history_text st)])%r.

Definition search_question_prompt (vars : list (string * string)) : Prompt :=
  mkPrompt search_question_system search_question_user vars.

(** ["DONE" in question.upper() or step >= 2]. *)
Definition search_complete (question : string) (step : Z) : bool :=
  contains "DONE" (upper question) || (2 <=? step)%Z.

(** [step % 2 == 0 and step > 0]. *)
Definition graph_evolves (step : Z) : bool :=
  (step mod 2 =? 0)%Z && (0 <? step)%Z.

Definition graph_answer_prompt (question web kb : string) : Prompt :=
  mkPrompt graph_answer_system graph_answer_user
           [("q", question);
            ("web", take 1500 web);
            ("kb", if truthy kb then take 500 kb else "N/A")].

Definition search_node (st : TTDDRGraphState) : M TTDDRGraphState :=
  (let step := step_count st in
  vars <- lift (search_question_vars st) ;;
  content <- invoke env (search_question_prompt vars) ;;
  let question := strip content in
  if search_complete question step then
     ret (mkGraphState (operator_add (messages st) [complete_message])
            (address st) (brief st) (plan st) (search_history st)
            (draft_report st) (final_report st) (step_count st))
  else
     web_results <- web_search env question ;;
     kb_results <- Agent.kb_lookup env question ;;
     answer <- invoke env
                 (graph_answer_prompt question web_results kb_results) ;;
     let step_message :=
       "🔍 Step " ++ of_Z (step + 1) ++ ": " ++ take 80 question ++ "..." in
     '(messages_update, answer) <-
       (if graph_evolves step then
          (evolved <- SelfEvolution.evolve_answer env question answer 2 1 ;;
           ret ([step_message; "🧬 Self-evolution"], evolved))
        else ret ([step_message], answer)) ;;
     ret (mkGraphState (operator_add (messages st) messages_update)
            (address st) (brief st) (plan st)
            (search_history st ++ [(question, answer)])%list
            (draft_report st) (final_report st) (step + 1)%Z))%m.

Definition denoise_node (st : TTDDRGraphState) : M TTDDRGraphState :=
  match search_history st with
  | [] =>
      ret (mkGraphState (operator_add (messages st) ["⚠️ No research"])
             (address st) (brief st) (plan st) (search_history st)
             (draft_report st) (final_report st) (step_count st))
  | _ =>
      (let latest :=
         if 2 <=? List.length (search_history st)
         then last_n 2 (search_history st) else search_history st in
       content <- invoke env (mkPrompt graph_denoise_system
                                graph_denoise_user
                                [("draft", take 1500 (draft_report st));
                                 ("research", pairs_text latest)]) ;;
       ret (mkGraphState
              (operator_add (messages st) ["📝 Denoised (revision " ++ of_Z (step_count st) ++ ")"])
              (address st) (brief st) (plan st) (search_history st)
              content (final_report st) (step_count st)))%m
  end.

Definition final_report_node (st : TTDDRGraphState) : M TTDDRGraphState :=
  (content <- invoke env (mkPrompt graph_final_system graph_final_user
                            [("address", address st);
                             ("brief", brief st);
                             ("research",
                              take 3000 (pairs_text (search_history st)));
                             ("draft", take 1500 (draft_report st))]) ;;
  ret (mkGraphState
          (operator_add (messages st) ["✅ Final report: " ++ of_nat (String.length content)
               ++ " chars" ++ nl ++ nl ++ take 500 content ++ "..."])
          (address st) (brief st) (plan st) (search_history st)
          (draft_report st) content (step_count st)))%m.
End WithEnv.

(** ** Routing *)

Inductive Node :=
  | parse_input | stage1_plan | stage2_draft | search | denoise
  | final_report_n | END.

Definition should_continue_search (st : TTDDRGraphState) : Node :=
  if (2 <=? step_count st)%Z
     || (match messages st with
         | [] => false
         | _ => contains "complete" (lower (last_message (messages st)))
         end)
  then final_report_n else denoise.

Definition after_denoise_routing (st : TTDDRGraphState) : Node :=
  if (2 <=? step_count st)%Z then final_report_n else search.

(** ** The compiled graph: one node, then the edge out of it *)

Section Run.
Variable env : Env.

Definition step (n : Node) (st : TTDDRGraphState)
  : M (Node * TTDDRGraphState) :=
  match n with
  | parse_input =>
      (st' <- parse_input_node st ;; ret (stage1_plan, st'))%m
  | stage1_plan =>
      (st' <- stage1_plan_node env st ;; ret (stage2_draft, st'))%m
  | stage2_draft =>
      (st' <- stage2_draft_node env st ;; ret (search, st'))%m
  | search =>
      (st' <- search_node env st ;; ret (should_continue_search st', st'))%m
  | denoise =>
      (st' <- denoise_node env st ;; ret (after_denoise_routing st', st'))%m
  | final_report_n =>
      (st' <- final_report_node env st ;; ret (END, st'))%m
  | END => ret (END, st)
  end.

(** Run from node [n]; [None] when [fuel] nodes were not enough to
    reach [END].  (LangGraph stops a run after 25 steps by default; the
    graph needs 7.) *)
Fixpoint run_from (fuel : nat) (n : Node) (st : TTDDRGraphState)
  : M (option TTDDRGraphState) :=
  match n with
  | END => ret (Some st)
  | _ =>
      match fuel with
      | O => ret None
      | S fuel' =>
          ('(n', st') <- step n st ;; run_from fuel' n' st')%m
      end
  end.

(** [graph.invoke({"messages": msgs})]. *)
Definition input_state (msgs : list string) : TTDDRGraphState :=
  mkGraphState msgs EmptyString EmptyString (JObj []) [] EmptyString EmptyString 0.

Definition run_graph (fuel : nat) (msgs : list string)
  : M (option TTDDRGraphState) :=
  run_from fuel parse_input (input_state msgs).
End Run.

End Graph.

(* ------------------------------------------------------------------ *)
(** * A scripted environment, for running the code on concrete inputs *)
(* ------------------------------------------------------------------ *)

Module Demo.
Import PyStr World.

(** [s] between double quotes. *)
Definition quoted (s : string) : string :=
  String dquote (s ++ String dquote EmptyString).

(** [{"sections": [{"title": "Zoning", "questions": ["What is the zoning?"]}]}] *)
Definition plan_text : string :=
  "{" ++ quoted "sections" ++ ": [{" ++ quoted "title" ++ ": "
  ++ quoted "Zoning" ++ ", " ++ quoted "questions" ++ ": ["
  ++ quoted "What is the zoning?" ++ "]}]}".

(** A model that answers the planner with [plan], the question prompts
    with the next entry of [questions] (then ["DONE"]), the judge with
    [verdict], and everything else with ["text"]. *)
Definition scripted (plan : string) (questions : list string)
           (verdict : string) (log : Log) (p : Prompt) : string :=
  if String.eqb (system p) Planner.planner_system then plan
  else if String.eqb (system p) Agent.question_system then
    nth (count (is_llm Agent.question_system) log) questions "DONE"
  else if String.eqb (system p) Graph.search_question_system then
    nth (count (is_llm Graph.search_question_system) log) questions "DONE"
  else if String.eqb (system p) Evaluator.answer_system then verdict
  else "text".

Definition env_of (plan : string) (questions : list string)
           (verdict : string) : Env :=
  mkEnv (scripted plan questions verdict)
        (fun _ q => "results for " ++ q)
        None
        (fun _ => "2025-01-01T00:00:00")
        Json.loads
        (fun _ => "<value>").

Definition env (questions : list string) : Env :=
  env_of plan_text questions ("Score: 9" ++ nl ++ "Feedback: fine").

(** The text of the evaluator example. *)
Definition verdict_sample : string :=
  "Score: 7.5" ++ nl ++ "Feedback: looks good".

(** Three steps, self-evolution and denoising on. *)
Definition cfg : Agent.Config := Agent.mkConfig 3 true true.

(** A state whose history holds the two questions [q1], [q2] in this
    order, and whose draft is empty. *)
Definition two_questions : State.AgentState :=
  State.append_result
    (State.append_result (State.new_state "12 Main St" EmptyString)
       (State.mkSearchResult "q1" "a1" [] "t1" (PyFloat.Finite 0)))
    (State.mkSearchResult "q2" "a2" [] "t2" (PyFloat.Finite 0)).

(** A planner answer with braces around something that is not JSON. *)
Definition broken_plan : string := "Plan: {sections: []}".

Definition broken_env : Env :=
  env_of broken_plan [] ("Score: 9" ++ nl ++ "Feedback: fine").

(** A graph state at the second step after the first: two steps done. *)
Definition third_step : Graph.TTDDRGraphState :=
  Graph.mkGraphState ["12 Main St"] "12 Main St" EmptyString (JObj [])
                     [("q1", "a1"); ("q2", "a2")] "draft" EmptyString 2.

End Demo.

(* ------------------------------------------------------------------ *)
(** * Vocabulary of the statements *)
(* ------------------------------------------------------------------ *)

Module Spec.
Import PyStr World.

(** [c] adds to the log at most [n] events satisfying [f], whatever it
    returns. *)
Definition adds_at_most {A} (f : Event -> bool) (n : nat) (c : M A) : Prop :=
  forall log, exists new,
    snd (c log) = (log ++ new)%list /\ count f new <= n.

(** The iterations of the two search loops are counted by their
    question prompts (one opens every iteration) and by their web
    searches (one in every iteration that is not the last). *)
Definition is_question : Event -> bool := is_llm Agent.question_system.
Definition is_graph_question : Event -> bool :=
  is_llm Graph.search_question_system.

(** From node [n] in state [st] the graph reaches [END] (or raises)
    within [k] nodes, adding at most [w] web searches and [w] question
    prompts. *)
Definition reaches_end (env : Env) (k w : nat) (n : Graph.Node)
           (st : Graph.TTDDRGraphState) : Prop :=
  forall fuel log, k <= fuel ->
    let out := Graph.run_from env fuel n st log in
    fst out <> Ok None /\
    exists new, snd out = (log ++ new)%list
                /\ count is_web new <= w
                /\ count is_graph_question new <= w.

(** The call that writes the initial draft. *)
Definition is_initial_draft : Event -> bool := is_llm Agent.draft_system.

(** The judge's calls, the revisions, and the verdicts of 8.0 or more. *)
Definition is_judge : Event -> bool := is_llm Evaluator.answer_system.
Definition is_revise : Event -> bool := is_llm SelfEvolution.revise_system.

Definition good_verdict (e : Event) : bool :=
  match e with
  | LLM p r =>
      String.eqb (system p) Evaluator.answer_system
      && PyFloat.geb (Evaluator._extract_score r) 8
  | _ => false
  end.

(** In the calls [new] of an evolution loop that returned [result], a
    verdict of 8.0 or more is the last call, and it judged [result]. *)
Definition stops_at_good (question : string) (new : Log) (result : string)
  : Prop :=
  forall pre e post,
    new = (pre ++ e :: post)%list ->
    good_verdict e = true ->
    post = [] /\ exists r, e = LLM (Evaluator.answer_prompt question result) r.

(** The calls of self-evolution: variants, verdicts, revisions, merge. *)
Definition is_evolution (e : Event) : bool :=
  is_llm SelfEvolution.variants_system e
  || is_llm Evaluator.answer_system e
  || is_llm SelfEvolution.revise_system e
  || is_llm SelfEvolution.merge_system e.

(** The test [start != -1 and end > start] of the fallback. *)
Definition braces_found (content : string) : bool :=
  negb (find "{" content =? -1)%Z
  && (find "{" content <? rfind "}" content + 1)%Z.

(** The text from the first ["{"] to the last ["}"]. *)
Definition outermost_braces (content : string) : string :=
  slice (find "{" content) (rfind "}" content + 1) content.

(** [new] is [old], or [old] with exactly one entry appended. *)
Definition grows_by_at_most_one {A} (old new : list A) : Prop :=
  new = old \/ exists r, new = (old ++ [r])%list.

(** The operations the agent performs on an [AgentState]: its two
    mutating methods and the attribute assignments of [run].
    ([get_search_context] and [to_dict] only read.) *)
Inductive StateOp :=
| OpAddSearchResult (question answer : string) (sources : option (list string))
| OpUpdateDraft (new_draft : string)
| OpSetPlan (plan : json)
| OpSetDraftReport (draft : string)
| OpSetFinalReport (report : string).

Definition apply_op (env : Env) (op : StateOp) (st : State.AgentState)
  : M State.AgentState :=
  match op with
  | OpAddSearchResult q a srcs => State.add_search_result env st q a srcs
  | OpUpdateDraft d => ret (State.update_draft st d)
  | OpSetPlan p => ret (State.set_plan st p)
  | OpSetDraftReport d => ret (State.set_draft_report st d)
  | OpSetFinalReport r => ret (State.set_final_report st r)
  end.

(** Questions as numbered lines, [k. question], from number [k] on. *)
Fixpoint numbered (k : nat) (questions : list string) : list string :=
  match questions with
  | [] => []
  | q :: rest => (of_nat k ++ ". " ++ q) :: numbered (S k) rest
  end.

(** The window of the question prompt in the words of the
    specification: the last five questions, most recent first. *)
Definition previous_most_recent_first (st : State.AgentState) : string :=
  join nl (numbered 1 (rev (map State.question
                                (last_n 5 (State.search_history st))))).

End Spec.

(* ------------------------------------------------------------------ *)
(** * Further configurations to run the code on *)
(* ------------------------------------------------------------------ *)

Module Demo2.
Import PyStr World.

(** Self-evolution off, denoising on. *)
Definition no_evolution : Agent.Config := Agent.mkConfig 3 false true.

(** Self-evolution on, denoising off. *)
Definition no_diffusion : Agent.Config := Agent.mkConfig 3 true false.

End Demo2.

(* ------------------------------------------------------------------ *)
(** * Further vocabulary: kinds of calls, and shapes of text *)
(* ------------------------------------------------------------------ *)

Module Measure.
Import PyStr World.

Definition is_any_llm (e : Event) : bool :=
  match e with LLM _ _ => true | _ => false end.

Definition is_retrieve (e : Event) : bool :=
  match e with Retrieve _ _ _ => true | _ => false end.

Definition is_variants : Event -> bool := is_llm SelfEvolution.variants_system.
Definition is_merge : Event -> bool := is_llm SelfEvolution.merge_system.
Definition is_denoise : Event -> bool := is_llm Agent.denoise_system.
Definition is_final : Event -> bool := is_llm Agent.final_system.
Definition is_graph_denoise : Event -> bool :=
  is_llm Graph.graph_denoise_system.

(** No verdict of 8.0 or more among the calls. *)
Definition no_good_verdict (new : Log) : bool :=
  forallb (fun e => negb (Spec.good_verdict e)) new.

(** Whitespace only. *)
Fixpoint all_space (s : string) : bool :=
  match s with
  | EmptyString => true
  | String c s' => is_space c && all_space s'
  end.

(** The character [c] does not occur in [s]. *)
Fixpoint free_of (c : ascii) (s : string) : bool :=
  match s with
  | EmptyString => true
  | String a s' => negb (Ascii.eqb a c) && free_of c s'
  end.

(** The queries of the web searches of a log, in the order made. *)
Fixpoint web_queries (log : Log) : list string :=
  match log with
  | [] => []
  | WebSearch q _ :: l => q :: web_queries l
  | _ :: l => web_queries l
  end.

(** A question as the direct loop stores it: stripped, not empty, not
    the sentinel. *)
Definition clean_question (q : string) : Prop :=
  strip q = q /\ q <> EmptyString /\ q <> "DONE".

Definition is_graph_final : Event -> bool := is_llm Graph.graph_final_system.
Definition is_graph_draft : Event -> bool := is_llm Graph.graph_draft_system.

(** From node [n] in state [st] the graph adds at most [k] events
    satisfying [f], however much fuel it is given. *)
Definition graph_adds (env : Env) (f : Event -> bool) (k : nat)
           (n : Graph.Node) (st : Graph.TTDDRGraphState) : Prop :=
  forall fuel log, exists new,
    snd (Graph.run_from env fuel n st log) = (log ++ new)%list
    /\ count f new <= k.

(** What holds of a graph state from [parse_input] on: the step counter
    counts the stored pairs and stays within the budget of 2, and the
    brief is empty. *)
Definition graph_counted (st : Graph.TTDDRGraphState) : Prop :=
  Graph.step_count st = Z.of_nat (List.length (Graph.search_history st))
  /\ (Graph.step_count st <= 2)%Z
  /\ Graph.brief st = EmptyString.

End Measure.

(* ================================================================== *)
(** * Properties *)
(* ================================================================== *)

(* ------------------------------------------------------------------ *)
(** ** Logs and the computations that extend them *)
(* ------------------------------------------------------------------ *)

Section LogFacts.
Import World Spec.

Lemma count_app (f : Event -> bool) (a b : Log) :
  count f (a ++ b)%list = count f a + count f b.
Proof.
  unfold count. rewrite filter_app, length_app. reflexivity.
Qed.

Lemma count_nil (f : Event -> bool) : count f [] = 0.
Proof. reflexivity. Qed.

Lemma count_one_le (f : Event -> bool) (e : Event) : count f [e] <= 1.
Proof. unfold count. simpl. destruct (f e); simpl; lia. Qed.

Lemma adds_weaken {A} f n m (c : M A) :
  n <= m -> adds_at_most f n c -> adds_at_most f m c.
Proof.
  intros Hnm H log. destruct (H log) as [new [E Hc]].
  exists new. split; [assumption | lia].
Qed.

Lemma adds_ret {A} f (a : A) : adds_at_most f 0 (ret a).
Proof. intros log. exists []. simpl. rewrite app_nil_r. auto. Qed.

Lemma adds_raise {A} f e : adds_at_most f 0 (@raise A e).
Proof. intros log. exists []. simpl. rewrite app_nil_r. auto. Qed.

Lemma adds_lift {A} f (r : Result A) : adds_at_most f 0 (lift r).
Proof. intros log. exists []. simpl. rewrite app_nil_r. auto. Qed.

Lemma adds_bind {A B} f n m (c : M A) (k : A -> M B) :
  adds_at_most f n c ->
  (forall a, adds_at_most f m (k a)) ->
  adds_at_most f (n + m) (bind c k).
Proof.
  intros Hc Hk log. unfold bind.
  destruct (Hc log) as [new1 [E1 C1]].
  destruct (c log) as [[a | e] log1]; simpl in E1; subst log1.
  - destruct (Hk a (log ++ new1)%list) as [new2 [E2 C2]].
    exists (new1 ++ new2)%list. rewrite E2, app_assoc, count_app.
    split; [reflexivity | lia].
  - exists new1. simpl. split; [reflexivity | lia].
Qed.

Lemma adds_invoke (env : Env) f p : adds_at_most f 1 (invoke env p).
Proof.
  intros log. eexists. split; [reflexivity | apply count_one_le].
Qed.

Lemma adds_invoke_other (env : Env) f p :
  (forall r, f (LLM p r) = false) -> adds_at_most f 0 (invoke env p).
Proof.
  intros H log. eexists. split; [reflexivity |].
  unfold count. simpl. rewrite H. simpl. lia.
Qed.

Lemma adds_web_search (env : Env) f q : adds_at_most f 1 (web_search env q).
Proof.
  intros log. eexists. split; [reflexivity | apply count_one_le].
Qed.

Lemma adds_web_search_other (env : Env) f q :
  (forall r, f (WebSearch q r) = false) ->
  adds_at_most f 0 (web_search env q).
Proof.
  intros H log. eexists. split; [reflexivity |].
  unfold count. simpl. rewrite H. simpl. lia.
Qed.

Lemma adds_retrieve f g q k :
  (forall d, f (Retrieve q k d) = false) ->
  adds_at_most f 0 (retrieve g q k).
Proof.
  intros H log. eexists. split; [reflexivity |].
  unfold count. simpl. rewrite H. simpl. lia.
Qed.

Lemma adds_clock (env : Env) f : adds_at_most f 0 (clock env).
Proof. intros log. exists []. simpl. rewrite app_nil_r. auto. Qed.

Lemma adds_for_each {X S} f b (body : X -> S -> M (control S)) :
  (forall x s, adds_at_most f b (body x s)) ->
  forall l s, adds_at_most f (List.length l * b) (for_each l body s).
Proof.
  intros Hb l. induction l as [| x l IH]; intros s; simpl.
  - apply adds_ret.
  - apply adds_bind; [apply Hb |].
    intros [s' | s'].
    + apply IH.
    + eapply adds_weaken; [| apply adds_ret]. lia.
Qed.

Lemma adds_map_m {X Y} f b (g : X -> M Y) :
  (forall x, adds_at_most f b (g x)) ->
  forall l, adds_at_most f (List.length l * b) (map_m g l).
Proof.
  intros Hg l. induction l as [| x l IH]; simpl.
  - apply adds_ret.
  - apply adds_bind; [apply Hg |].
    intros y. replace (List.length l * b) with (List.length l * b + 0) by lia.
    apply adds_bind; [apply IH |]. intros ys. apply adds_ret.
Qed.

Lemma length_range (n : Z) : List.length (range n) = Z.to_nat n.
Proof. unfold range. rewrite length_map, length_seq. reflexivity. Qed.

End LogFacts.

Section AddsTactics.
Import World Spec.

Lemma adds_if {A} f n m (b : bool) (c1 c2 : M A) :
  adds_at_most f n c1 -> adds_at_most f m c2 ->
  adds_at_most f (Nat.max n m) (if b then c1 else c2).
Proof.
  intros H1 H2. destruct b; (eapply adds_weaken; [| eassumption]); lia.
Qed.

Lemma adds_map_m_zero {X Y} f (g : X -> M Y) :
  (forall x, adds_at_most f 0 (g x)) ->
  forall l, adds_at_most f 0 (map_m g l).
Proof.
  intros Hg l. eapply adds_weaken; [| apply adds_map_m with (b := 0)].
  - lia.
  - assumption.
Qed.

Lemma adds_for_each_zero {X S} f (body : X -> S -> M (control S)) :
  (forall x s, adds_at_most f 0 (body x s)) ->
  forall l s, adds_at_most f 0 (for_each l body s).
Proof.
  intros Hb l s. eapply adds_weaken; [| apply adds_for_each with (b := 0)].
  - lia.
  - assumption.
Qed.

End AddsTactics.

Create HintDb adds.

(** Bound the events a monadic term adds, following its shape. *)
Ltac adds_exact :=
  lazymatch goal with
  | |- Spec.adds_at_most _ _ (World.ret _) => apply adds_ret
  | |- Spec.adds_at_most _ _ (World.raise _) => apply adds_raise
  | |- Spec.adds_at_most _ _ (World.lift _) => apply adds_lift
  | |- Spec.adds_at_most _ _ (World.clock _) => apply adds_clock
  | |- Spec.adds_at_most _ _ (World.bind _ _) =>
      eapply adds_bind; [adds_exact | intros; adds_exact]
  | |- Spec.adds_at_most _ _ (World.invoke _ _) =>
      first [ apply adds_invoke_other; intros; reflexivity
            | apply adds_invoke ]
  | |- Spec.adds_at_most _ _ (World.web_search _ _) =>
      first [ apply adds_web_search_other; intros; reflexivity
            | apply adds_web_search ]
  | |- Spec.adds_at_most _ _ (World.retrieve _ _ _) =>
      apply adds_retrieve; intros; reflexivity
  | |- Spec.adds_at_most _ _ (if _ then _ else _) =>
      eapply adds_if; adds_exact
  | |- Spec.adds_at_most _ _ (World.for_each _ _ _) =>
      first [ apply adds_for_each_zero; intros; solve [adds_bound]
            | eapply adds_for_each; intros; adds_exact ]
  | |- Spec.adds_at_most _ _ (World.map_m _ _) =>
      first [ apply adds_map_m_zero; intros; solve [adds_bound]
            | eapply adds_map_m; intros; adds_exact ]
  | |- Spec.adds_at_most _ _ (let '(_, _) := ?p in _) =>
      destruct p; adds_exact
  | |- _ => solve [eauto with adds]
  end
with adds_bound :=
  eapply adds_weaken; [| adds_exact]; simpl; try lia.

(* ------------------------------------------------------------------ *)
(** ** The direct-call loop: calls per step *)
(* ------------------------------------------------------------------ *)

Section DirectCalls.
Import PyStr World Spec State Agent.
Variable env : Env.

Lemma web_evaluate q a :
  adds_at_most is_web 0 (Evaluator.evaluate_answer env q a).
Proof. unfold Evaluator.evaluate_answer. adds_bound. Qed.

Lemma question_evaluate q a :
  adds_at_most is_question 0 (Evaluator.evaluate_answer env q a).
Proof. unfold Evaluator.evaluate_answer. adds_bound. Qed.

Hint Resolve web_evaluate question_evaluate : adds.

Lemma web_evolve_variant q v n :
  adds_at_most is_web 0 (SelfEvolution._evolve_variant env q v n).
Proof.
  unfold SelfEvolution._evolve_variant, SelfEvolution.evolve_round,
    SelfEvolution._revise_with_feedback.
  adds_bound.
Qed.

Lemma question_evolve_variant q v n :
  adds_at_most is_question 0 (SelfEvolution._evolve_variant env q v n).
Proof.
  unfold SelfEvolution._evolve_variant, SelfEvolution.evolve_round,
    SelfEvolution._revise_with_feedback.
  adds_bound.
Qed.

Hint Resolve web_evolve_variant question_evolve_variant : adds.

Lemma web_evolve q a nv ni :
  adds_at_most is_web 0 (SelfEvolution.evolve_answer env q a nv ni).
Proof.
  unfold SelfEvolution.evolve_answer, SelfEvolution._generate_variants,
    SelfEvolution._merge_variants.
  adds_bound.
Qed.

Lemma question_evolve q a nv ni :
  adds_at_most is_question 0 (SelfEvolution.evolve_answer env q a nv ni).
Proof.
  unfold SelfEvolution.evolve_answer, SelfEvolution._generate_variants,
    SelfEvolution._merge_variants.
  adds_bound.
Qed.

Lemma web_kb_lookup q : adds_at_most is_web 0 (kb_lookup env q).
Proof. unfold kb_lookup. destruct (retriever env); adds_bound. Qed.

Lemma question_kb_lookup q : adds_at_most is_question 0 (kb_lookup env q).
Proof. unfold kb_lookup. destruct (retriever env); adds_bound. Qed.

Hint Resolve web_evolve question_evolve web_kb_lookup question_kb_lookup
  : adds.

Lemma web_search_step cfg step st :
  adds_at_most is_web 1 (search_step env cfg step st).
Proof.
  unfold search_step, _generate_search_question, _search_and_answer,
    store_and_denoise, add_search_result, _denoise_draft.
  adds_bound.
Qed.

Lemma question_search_step cfg step st :
  adds_at_most is_question 1 (search_step env cfg step st).
Proof.
  unfold search_step, _generate_search_question, _search_and_answer,
    store_and_denoise, add_search_result, _denoise_draft, synth_prompt.
  adds_bound.
Qed.

End DirectCalls.

(* ------------------------------------------------------------------ *)
(** ** The graph: what one search node does, and how far END is *)
(* ------------------------------------------------------------------ *)

Section GraphRun.
Import PyStr World Spec Graph.
Variable env : Env.

Lemma last_message_app (l : list string) (m : string) :
  last_message (operator_add l [m]) = m.
Proof. unfold last_message, operator_add. apply last_last. Qed.

Lemma operator_add_not_nil (l : list string) (m : string) :
  operator_add l [m] <> [].
Proof. unfold operator_add. destruct l; discriminate. Qed.

Lemma route_after_complete (l : list string) a b p h d f c :
  should_continue_search
    (mkGraphState (operator_add l [complete_message]) a b p h d f c)
  = final_report_n.
Proof.
  unfold should_continue_search. simpl.
  rewrite last_message_app.
  destruct (operator_add l [complete_message]) eqn:E.
  - exfalso. eapply operator_add_not_nil. exact E.
  - replace (contains "complete" (lower complete_message)) with true
      by (vm_compute; reflexivity).
    rewrite orb_true_r. reflexivity.
Qed.

Lemma web_graph_evolve q a :
  adds_at_most is_web 0 (SelfEvolution.evolve_answer env q a 2 1).
Proof. apply web_evolve. Qed.

Lemma gq_evolve q a nv ni :
  adds_at_most is_graph_question 0
               (SelfEvolution.evolve_answer env q a nv ni).
Proof.
  unfold SelfEvolution.evolve_answer, SelfEvolution._generate_variants,
    SelfEvolution._merge_variants, SelfEvolution._evolve_variant,
    SelfEvolution.evolve_round, SelfEvolution._revise_with_feedback,
    Evaluator.evaluate_answer.
  adds_bound.
Qed.

Lemma gq_kb_lookup q :
  adds_at_most is_graph_question 0 (Agent.kb_lookup env q).
Proof. unfold Agent.kb_lookup. destruct (retriever env); adds_bound. Qed.

Hint Resolve web_evolve web_kb_lookup gq_evolve gq_kb_lookup : adds.

Lemma web_search_node st : adds_at_most is_web 1 (search_node env st).
Proof. unfold search_node. adds_bound. Qed.

Lemma gq_search_node st :
  adds_at_most is_graph_question 1 (search_node env st).
Proof. unfold search_node, graph_answer_prompt. adds_bound. Qed.

(** The state a search node leaves: either the step counter stands and
    the route is to the final report, or the counter moved by one from
    below 2. *)
Lemma search_node_state st log st' log' :
  search_node env st log = (Ok st', log') ->
  (step_count st' = step_count st
   /\ should_continue_search st' = final_report_n)
  \/ (step_count st' = (step_count st + 1)%Z /\ (step_count st < 2)%Z).
Proof.
  unfold search_node, bind, lift, ret.
  destruct (search_question_vars env st) as [vars | e]; [| discriminate].
  unfold invoke at 1.
  destruct (search_complete _ (step_count st)) eqn:Hc.
  - intros H. inversion H; subst. left. split; [reflexivity |].
    apply route_after_complete.
  - assert (Hlt : (step_count st < 2)%Z).
    { unfold search_complete in Hc. apply orb_false_iff in Hc.
      destruct Hc as [_ Hc]. apply Z.leb_gt in Hc. exact Hc. }
    intros H. right. split; [| exact Hlt].
    revert H.
    repeat match goal with
           | |- context [match ?c ?l with (_, _) => _ end] =>
               destruct (c l) as [[? | ?] ?]
           | |- context [if ?b then _ else _] => destruct b
           | |- context [match ?x with (_, _) => _ end] =>
               is_var x; destruct x
           end;
      intros H; inversion H; subst; reflexivity.
Qed.

End GraphRun.

(** Split a monadic term on every intermediate result. *)
Ltac split_binds :=
  repeat match goal with
         | |- context [match ?x with (_, _) => _ end] =>
             is_var x; destruct x
         | |- context [match ?c ?l with (_, _) => _ end] =>
             destruct (c l) as [[? | ?] ?]
         | |- context [if ?b then _ else _] => destruct b
         end.

Section GraphTermination.
Import PyStr World Spec Graph.
Variable env : Env.

Lemma run_from_step fuel n st log :
  n <> END ->
  run_from env (S fuel) n st log
  = match step env n st log with
    | (Ok (n', st'), log1) => run_from env fuel n' st' log1
    | (Raise e, log1) => (Raise e, log1)
    end.
Proof.
  intros Hn. destruct n; try congruence; cbn [run_from]; unfold bind;
    match goal with
    | |- context [step env ?n st log] =>
        destruct (step env n st log) as [[[? ?] | ?] ?]
    end; reflexivity.
Qed.

Lemma reaches_weaken k w k' w' n st :
  k <= k' -> w <= w' ->
  reaches_end env k w n st -> reaches_end env k' w' n st.
Proof.
  intros Hk Hw H fuel log Hf.
  destruct (H fuel log ltac:(lia)) as [H1 [new [E [C1 C2]]]].
  split; [exact H1 |]. exists new. repeat split; [exact E | lia | lia].
Qed.

Lemma reaches_END st : reaches_end env 0 0 END st.
Proof.
  intros fuel log _. destruct fuel; simpl; (split; [discriminate |]);
    exists []; rewrite app_nil_r; repeat split; auto.
Qed.

(** One node, then the rest. *)
Lemma reaches_step n st k w a :
  n <> END ->
  adds_at_most is_web a (step env n st) ->
  adds_at_most is_graph_question a (step env n st) ->
  (forall log n' st' log',
      step env n st log = (Ok (n', st'), log') ->
      reaches_end env k w n' st') ->
  reaches_end env (S k) (a + w) n st.
Proof.
  intros Hn Hw Hq Hrest fuel log Hf.
  destruct fuel as [| fuel]; [lia |].
  rewrite run_from_step by exact Hn.
  destruct (Hw log) as [new1 [E1 C1]].
  destruct (Hq log) as [new2 [E2 C2]].
  rewrite E1 in E2. apply app_inv_head in E2. subst new2.
  destruct (step env n st log) as [[[n' st'] | e] log1] eqn:Hs;
    simpl in E1; subst log1.
  - destruct (Hrest _ _ _ _ Hs fuel (log ++ new1)%list ltac:(lia))
      as [H1 [new [E [C3 C4]]]].
    split; [exact H1 |].
    exists (new1 ++ new)%list. rewrite E, app_assoc, !count_app.
    repeat split; lia.
  - simpl. split; [discriminate |].
    exists new1. repeat split; lia.
Qed.

Lemma reaches_final st : reaches_end env 1 0 final_report_n st.
Proof.
  apply (reaches_step final_report_n st 0 0 0); [discriminate | | |].
  - unfold step, final_report_node. adds_bound.
  - unfold step, final_report_node. adds_bound.
  - unfold step, final_report_node, bind, ret, invoke.
    intros log n' st' log' H. inversion H; subst. apply reaches_END.
Qed.

Lemma search_adds_web st : adds_at_most is_web 1 (step env search st).
Proof.
  unfold step. eapply adds_weaken;
    [| eapply adds_bind; [apply web_search_node | intros; apply adds_ret]].
  lia.
Qed.

Lemma search_adds_question st :
  adds_at_most is_graph_question 1 (step env search st).
Proof.
  unfold step. eapply adds_weaken;
    [| eapply adds_bind; [apply gq_search_node | intros; apply adds_ret]].
  lia.
Qed.

Lemma step_search_inv st log n' st' log' :
  step env search st log = (Ok (n', st'), log') ->
  search_node env st log = (Ok st', log')
  /\ n' = should_continue_search st'.
Proof.
  unfold step, bind, ret.
  destruct (search_node env st log) as [[s | e] l]; intros H;
    inversion H; subst; auto.
Qed.

(** With one step done, a search node is followed by the final
    report. *)
Lemma reaches_search_late st :
  (1 <= step_count st)%Z -> reaches_end env 2 1 search st.
Proof.
  intros Hc.
  apply (reaches_step search st 1 0 1);
    [discriminate | apply search_adds_web | apply search_adds_question |].
  intros log n' st' log' H.
  apply step_search_inv in H. destruct H as [H ->].
  apply search_node_state in H.
  destruct H as [[_ ->] | [E _]]; [apply reaches_final |].
  unfold should_continue_search.
  replace (2 <=? step_count st')%Z with true
    by (symmetry; apply Z.leb_le; lia).
  simpl. apply reaches_final.
Qed.

Lemma denoise_keeps_count st log st' log' :
  denoise_node env st log = (Ok st', log') ->
  step_count st' = step_count st.
Proof.
  unfold denoise_node, bind, ret, invoke.
  destruct (search_history st); intros H; inversion H; reflexivity.
Qed.

Lemma reaches_denoise st :
  (1 <= step_count st)%Z -> reaches_end env 3 1 denoise st.
Proof.
  intros Hc.
  apply (reaches_step denoise st 2 1 0); [discriminate | | |].
  - unfold step, denoise_node. destruct (search_history st); adds_bound.
  - unfold step, denoise_node. destruct (search_history st); adds_bound.
  - intros log n' st' log'. unfold step, bind, ret.
    destruct (denoise_node env st log) as [[s | e] l] eqn:Hd;
      intros H; inversion H; subst.
    apply denoise_keeps_count in Hd.
    unfold after_denoise_routing.
    destruct (2 <=? step_count st')%Z.
    + eapply reaches_weaken; [| | apply reaches_final]; lia.
    + apply reaches_search_late. lia.
Qed.

Lemma reaches_search_first st :
  step_count st = 0%Z -> reaches_end env 4 2 search st.
Proof.
  intros Hc.
  apply (reaches_step search st 3 1 1);
    [discriminate | apply search_adds_web | apply search_adds_question |].
  intros log n' st' log' H.
  apply step_search_inv in H. destruct H as [H ->].
  apply search_node_state in H.
  destruct H as [[_ ->] | [E _]].
  - eapply reaches_weaken; [| | apply reaches_final]; lia.
  - unfold should_continue_search.
    match goal with |- context [if ?b then _ else _] => destruct b end.
    + eapply reaches_weaken; [| | apply reaches_final]; lia.
    + apply reaches_denoise. lia.
Qed.

Lemma reaches_stage2 st :
  step_count st = 0%Z -> reaches_end env 5 2 stage2_draft st.
Proof.
  intros Hc.
  apply (reaches_step stage2_draft st 4 2 0); [discriminate | | |].
  - unfold step, stage2_draft_node. adds_bound.
  - unfold step, stage2_draft_node. adds_bound.
  - intros log n' st' log'.
    unfold step, stage2_draft_node, bind, ret, lift, invoke.
    destruct (titles env (plan st)); intros H; inversion H; subst.
    apply reaches_search_first. exact Hc.
Qed.

Lemma web_generate_plan q b :
  adds_at_most is_web 0 (Planner.generate_plan env q b).
Proof. unfold Planner.generate_plan. adds_bound. Qed.

Lemma gq_generate_plan q b :
  adds_at_most is_graph_question 0 (Planner.generate_plan env q b).
Proof. unfold Planner.generate_plan, Planner.planner_prompt. adds_bound. Qed.

Hint Resolve web_generate_plan gq_generate_plan : adds.

Lemma reaches_stage1 st :
  step_count st = 0%Z -> reaches_end env 6 2 stage1_plan st.
Proof.
  intros Hc.
  apply (reaches_step stage1_plan st 5 2 0); [discriminate | | |].
  - unfold step, stage1_plan_node. adds_bound.
  - unfold step, stage1_plan_node. adds_bound.
  - intros log n' st' log'.
    unfold step, stage1_plan_node, bind, ret, lift.
    destruct (Planner.generate_plan env (address st) (brief st) log)
      as [[p | e] l]; [| discriminate].
    destruct (Agent.count_sections p); intros H; inversion H; subst.
    apply reaches_stage2. exact Hc.
Qed.

Lemma reaches_parse_input st : reaches_end env 7 2 parse_input st.
Proof.
  apply (reaches_step parse_input st 6 2 0); [discriminate | | |].
  - unfold step, parse_input_node. destruct (messages st); adds_bound.
  - unfold step, parse_input_node. destruct (messages st); adds_bound.
  - intros log n' st' log'.
    unfold step, parse_input_node, bind, ret.
    destruct (messages st); intros H; inversion H; subst;
      apply reaches_stage1; reflexivity.
Qed.

End GraphTermination.

(* ------------------------------------------------------------------ *)
(** ** C1: the search loops are bounded *)
(* ------------------------------------------------------------------ *)

Section LoopBound.
Import PyStr World Spec.
Variable env : Env.

Lemma direct_loop_adds f cfg st :
  (forall step s, adds_at_most f 1 (Agent.search_step env cfg step s)) ->
  adds_at_most f (Z.to_nat (Agent.max_search_steps cfg))
               (Agent._iterative_search_and_refine env cfg st).
Proof.
  intros H. unfold Agent._iterative_search_and_refine.
  eapply adds_weaken; [| apply adds_for_each with (b := 1); exact H].
  rewrite length_range. lia.
Qed.

Lemma direct_loop_bounded cfg st log :
  exists new,
    snd (Agent._iterative_search_and_refine env cfg st log)
    = (log ++ new)%list
    /\ count is_question new <= Z.to_nat (Agent.max_search_steps cfg)
    /\ count is_web new <= Z.to_nat (Agent.max_search_steps cfg).
Proof.
  destruct (direct_loop_adds is_question cfg st
              (question_search_step env cfg) log) as [n1 [E1 C1]].
  destruct (direct_loop_adds is_web cfg st
              (web_search_step env cfg) log) as [n2 [E2 C2]].
  rewrite E1 in E2. apply app_inv_head in E2. subst n2.
  exists n1. auto.
Qed.

End LoopBound.

(** C1.  For every step budget [N = max_search_steps], whatever the model,
    the search tool and the vector store answer, the direct-call loop is a
    total function of its inputs that opens at most [N] iterations (question
    prompts) and issues at most [N] web searches (none for [N <= 0]); and
    the graph, whose budget is the constant 2, reaches [END] or raises
    within 7 nodes, with at most 2 question prompts and 2 web searches. *)
Theorem search_loop_bounded (env : World.Env) :
  (forall cfg st log,
      exists new,
        snd (Agent._iterative_search_and_refine env cfg st log)
        = (log ++ new)%list
        /\ World.count Spec.is_question new
           <= Z.to_nat (Agent.max_search_steps cfg)
        /\ World.count World.is_web new
           <= Z.to_nat (Agent.max_search_steps cfg))
  /\ (forall msgs fuel log,
         7 <= fuel ->
         fst (Graph.run_graph env fuel msgs log) <> World.Ok None
         /\ exists new,
             snd (Graph.run_graph env fuel msgs log) = (log ++ new)%list
             /\ World.count World.is_web new <= 2
             /\ World.count Spec.is_graph_question new <= 2).
Proof.
  split.
  - intros cfg st log. apply direct_loop_bounded.
  - intros msgs fuel log Hf.
    exact (reaches_parse_input env (Graph.input_state msgs) fuel log Hf).
Qed.

Lemma search_loop_bounded_witness :
  fst (Graph.run_graph (Demo.env ["q1"; "q2"; "q3"]) 7 ["12 Main St"] [])
  <> World.Ok None.
Proof.
  exact (proj1 (proj2 (search_loop_bounded (Demo.env ["q1"; "q2"; "q3"]))
                 ["12 Main St"] 7 [] (le_n 7))).
Defined.

(* ------------------------------------------------------------------ *)
(** ** C10: the frame of [update_draft] *)
(* ------------------------------------------------------------------ *)

(** C10.  [update_draft(new_draft)] sets [draft_report] to [new_draft],
    adds exactly 1 to [revision_count], and leaves [query], [brief],
    [plan], [search_history], [final_report] and [metadata] as they
    were. *)
Theorem update_draft_frame (st : State.AgentState) (new_draft : string) :
  let st' := State.update_draft st new_draft in
  State.draft_report st' = new_draft
  /\ State.revision_count st' = (State.revision_count st + 1)%Z
  /\ State.query st' = State.query st
  /\ State.brief st' = State.brief st
  /\ State.plan st' = State.plan st
  /\ State.search_history st' = State.search_history st
  /\ State.final_report st' = State.final_report st
  /\ State.metadata st' = State.metadata st.
Proof. simpl. repeat split. Qed.

(* ------------------------------------------------------------------ *)
(** ** C5: what the evaluator reads from the judge's text *)
(* ------------------------------------------------------------------ *)

Section Extraction.
Import PyStr Evaluator.

Lemma startswith_take p : forall n s,
  startswith p (take n s) = true -> startswith p s = true.
Proof.
  induction p as [| a p IH]; intros n s H; [reflexivity |].
  destruct n as [| n]; destruct s as [| b s]; simpl in *; try discriminate.
  apply andb_true_iff in H. destruct H as [H1 H2].
  rewrite H1. simpl. eapply IH. exact H2.
Qed.

Lemma smap_take f : forall n s, smap f (take n s) = take n (smap f s).
Proof.
  induction n as [| n IH]; intros s; destruct s; simpl; try reflexivity.
  rewrite IH. reflexivity.
Qed.

Lemma startswith_ci_lower lit s :
  startswith_ci lit s = true -> startswith (lower lit) (lower s) = true.
Proof.
  unfold startswith_ci, lower. rewrite smap_take. apply startswith_take.
Qed.

(** A pattern that opens with a literal finds nothing in a text where the
    literal does not occur in any letter case. *)
Lemma search_without_label {A} (m : string -> option A) (lit : string) :
  (forall t, startswith_ci lit t = false -> m t = None) ->
  forall s, contains (lower lit) (lower s) = false -> search m s = None.
Proof.
  intros Hm. induction s as [| c s IH]; intros H; unfold lower in H;
    simpl in H; apply orb_false_iff in H; destruct H as [H1 H2].
  - simpl. rewrite Hm; [reflexivity |].
    destruct (startswith_ci lit EmptyString) eqn:E; [| reflexivity].
    apply startswith_ci_lower in E. unfold lower in E. simpl in E.
    congruence.
  - simpl. rewrite Hm.
    + apply IH. exact H2.
    + destruct (startswith_ci lit (String c s)) eqn:E; [| reflexivity].
      apply startswith_ci_lower in E. unfold lower in E. simpl in E.
      congruence.
Qed.

Lemma score_without_label content :
  contains "score:" (lower content) = false ->
  _extract_score content = PyFloat.Finite 5.
Proof.
  intros H. unfold _extract_score.
  rewrite (search_without_label match_score_at "Score:"); [reflexivity | |].
  - intros t Ht. unfold match_score_at. rewrite Ht. reflexivity.
  - exact H.
Qed.

Lemma feedback_without_label content :
  contains "feedback:" (lower content) = false ->
  _extract_feedback content = content.
Proof.
  intros H. unfold _extract_feedback.
  rewrite (search_without_label match_feedback_at "Feedback:");
    [reflexivity | |].
  - intros t Ht. unfold match_feedback_at. rewrite Ht. reflexivity.
  - exact H.
Qed.

End Extraction.

(** C5 (as amended).  The evaluator's result is a function of the response
    text alone.  On the text ["Score: 7.5\nFeedback: looks good"] it is
    [(7.5, "looks good")]; on a text with no ["Score:"] label in any
    letter case the score is 5.0; on a text with no ["Feedback:"] label in
    any letter case the feedback is the whole text. *)
Theorem evaluator_extraction :
  (forall env question answer log,
      let content := World.model env log
                       (Evaluator.answer_prompt question answer) in
      fst (Evaluator.evaluate_answer env question answer log)
      = World.Ok (Evaluator._extract_score content,
                  Evaluator._extract_feedback content))
  /\ (Evaluator._extract_score Demo.verdict_sample = PyFloat.Finite (15 # 2)
      /\ Evaluator._extract_feedback Demo.verdict_sample = "looks good")
  /\ (forall content,
         PyStr.contains "score:" (PyStr.lower content) = false ->
         Evaluator._extract_score content = PyFloat.Finite 5)
  /\ (forall content,
         PyStr.contains "feedback:" (PyStr.lower content) = false ->
         Evaluator._extract_feedback content = content).
Proof.
  split; [| split; [| split]].
  - intros. reflexivity.
  - split; vm_compute; reflexivity.
  - apply score_without_label.
  - apply feedback_without_label.
Qed.

Lemma evaluator_extraction_witness :
  Evaluator._extract_score "The answer is thorough." = PyFloat.Finite 5
  /\ Evaluator._extract_feedback "The answer is thorough."
     = "The answer is thorough.".
Proof.
  split.
  - apply (proj1 (proj2 (proj2 evaluator_extraction))). reflexivity.
  - apply (proj2 (proj2 (proj2 evaluator_extraction))). reflexivity.
Defined.

(** C5 as stated fails: a text that contains the sample after another
    score line yields that other score, and a text whose labels are in
    lower case has no ["Score:"] and no ["Feedback:"] label, yet both are
    read from it. *)
Lemma evaluator_extraction_counterexample :
  (let text := "Score: 3" ++ nl ++ Demo.verdict_sample in
   PyStr.contains Demo.verdict_sample text = true
   /\ Evaluator._extract_score text = PyFloat.Finite 3
   /\ Evaluator._extract_score text <> PyFloat.Finite (15 # 2))
  /\ (let text := "score: 9" ++ nl ++ "feedback: fine" in
      PyStr.contains "Score:" text = false
      /\ Evaluator._extract_score text = PyFloat.Finite 9
      /\ Evaluator._extract_score text <> PyFloat.Finite 5
      /\ PyStr.contains "Feedback:" text = false
      /\ Evaluator._extract_feedback text = "fine"
      /\ Evaluator._extract_feedback text <> text).
Proof.
  repeat split; try (vm_compute; reflexivity);
    vm_compute; intros H; discriminate H.
Qed.

(* ------------------------------------------------------------------ *)
(** ** C6: the per-variant evolution loop *)
(* ------------------------------------------------------------------ *)

Section EvolveLoop.
Import PyStr World Spec SelfEvolution.
Variable env : Env.
Variable question : string.

Lemma judge_event_counts current r :
  count is_judge [LLM (Evaluator.answer_prompt question current) r] = 1
  /\ count is_revise [LLM (Evaluator.answer_prompt question current) r] = 0.
Proof. split; reflexivity. Qed.

Lemma revise_event_counts current fb r :
  count is_judge [LLM (revise_prompt question current fb) r] = 0
  /\ count is_revise [LLM (revise_prompt question current fb) r] = 1.
Proof. split; reflexivity. Qed.

Lemma evolve_loop_spec (l : list Z) : forall current log,
  exists new result,
    for_each l (evolve_round env question) current log
    = (Ok result, (log ++ new)%list)
    /\ count is_judge new <= List.length l
    /\ count is_revise new <= List.length l
    /\ stops_at_good question new result.
Proof.
  induction l as [| x l IH]; intros current log.
  - exists [], current. simpl. rewrite app_nil_r.
    split; [reflexivity |]. split; [cbn; lia |]. split; [cbn; lia |].
    intros pre e post E. destruct pre; discriminate E.
  - simpl. unfold bind at 1. unfold evolve_round at 1.
    unfold Evaluator.evaluate_answer, bind, invoke, ret.
    set (r1 := model env log (Evaluator.answer_prompt question current)).
    set (e1 := LLM (Evaluator.answer_prompt question current) r1).
    destruct (PyFloat.geb (Evaluator._extract_score r1) 8) eqn:Hg.
    + exists [e1], current. split; [reflexivity |].
      split; [cbn; lia |]. split; [cbn; lia |].
      intros pre e post E Hgood.
      destruct pre as [| y pre].
      * inversion E; subst. split; [reflexivity |]. exists r1. reflexivity.
      * inversion E. destruct pre; discriminate.
    + unfold _revise_with_feedback, invoke.
      set (fb := Evaluator._extract_feedback r1).
      set (r2 := model env (log ++ [e1])%list
                       (revise_prompt question current fb)).
      set (e2 := LLM (revise_prompt question current fb) r2).
      destruct (IH r2 ((log ++ [e1]) ++ [e2])%list)
        as [new [result [E [C1 [C2 Hstop]]]]].
      exists (e1 :: e2 :: new), result.
      rewrite E. split; [rewrite <- !app_assoc; reflexivity |].
      split; [| split].
      * change (e1 :: e2 :: new) with ([e1] ++ [e2] ++ new)%list.
        rewrite !count_app. cbn. cbn in C1. lia.
      * change (e1 :: e2 :: new) with ([e1] ++ [e2] ++ new)%list.
        rewrite !count_app. cbn. cbn in C2. lia.
      * intros pre e post Epre Hgood.
        destruct pre as [| y1 [| y2 pre]]; inversion Epre; subst.
        -- assert (Hb : good_verdict e1
                        = PyFloat.geb (Evaluator._extract_score r1) 8)
             by reflexivity.
           rewrite Hb, Hg in Hgood. discriminate.
        -- simpl in Hgood. discriminate.
        -- eapply Hstop; eauto.
Qed.

End EvolveLoop.

(** C6.  For every [num_iterations], whatever the model answers,
    [_evolve_variant] returns a variant after at most [num_iterations]
    judge calls and at most [num_iterations] revisions (none when the
    bound is zero or negative); and a verdict of 8.0 or more ends the
    loop at once: it is the last call made, and the variant returned is
    the one it judged, with no revision after it. *)
Theorem evolve_variant_stops (env : World.Env)
        (question variant : string) (num_iterations : Z) (log : World.Log) :
  exists new result,
    SelfEvolution._evolve_variant env question variant num_iterations log
    = (World.Ok result, (log ++ new)%list)
    /\ World.count Spec.is_judge new <= Z.to_nat num_iterations
    /\ World.count Spec.is_revise new <= Z.to_nat num_iterations
    /\ Spec.stops_at_good question new result.
Proof.
  unfold SelfEvolution._evolve_variant.
  destruct (evolve_loop_spec env question (World.range num_iterations)
              variant log) as [new [result [E [C1 [C2 H]]]]].
  rewrite length_range in C1, C2.
  exists new, result. auto.
Qed.

(* ------------------------------------------------------------------ *)
(** ** The direct-call loop: what one iteration does *)
(* ------------------------------------------------------------------ *)

Section DirectStep.
Import PyStr World Spec State Agent.
Variable env : Env.

Lemma adds_zero_at {A} f (c : M A) log :
  adds_at_most f 0 c ->
  exists new, snd (c log) = (log ++ new)%list /\ count f new = 0.
Proof.
  intros H. destruct (H log) as [new [E C]]. exists new. split; [exact E | lia].
Qed.

Lemma draft_evolve q a nv ni :
  adds_at_most is_initial_draft 0 (SelfEvolution.evolve_answer env q a nv ni).
Proof.
  unfold SelfEvolution.evolve_answer, SelfEvolution._generate_variants,
    SelfEvolution._merge_variants, SelfEvolution._evolve_variant,
    SelfEvolution.evolve_round, SelfEvolution._revise_with_feedback,
    Evaluator.evaluate_answer.
  adds_bound.
Qed.

(** [_search_and_answer] never raises: one web search, the retrieval if
    there is a retriever, one synthesis call. *)
Lemma search_and_answer_log q st log :
  exists kb answer,
    _search_and_answer env q st log
    = (Ok answer,
       (log ++ WebSearch q (web_search_tool env log q) :: kb
            ++ [LLM (synth_prompt q (web_search_tool env log q)
                       (match kb with
                        | [Retrieve _ _ (Some ds)] => kb_text ds
                        | _ => EmptyString
                        end)) answer])%list)
    /\ count is_web kb = 0
    /\ count is_initial_draft kb = 0.
Proof.
  unfold _search_and_answer, kb_lookup, bind, web_search, invoke, ret,
    retrieve.
  destruct (retriever env) as [f |].
  - set (log1 := (log ++ [WebSearch q (web_search_tool env log q)])%list).
    destruct (f log1 q 2%Z) as [ds |] eqn:Ef.
    + eexists [Retrieve q 2%Z (Some ds)], _.
      split; [| split; reflexivity].
      unfold log1. rewrite <- !app_assoc. reflexivity.
    + eexists [Retrieve q 2%Z None], _.
      split; [| split; reflexivity].
      unfold log1. rewrite <- !app_assoc. reflexivity.
  - eexists [], _. split; [| split; reflexivity].
    rewrite <- !app_assoc. reflexivity.
Qed.

Lemma store_and_denoise_effect cfg st q stored log :
  exists s r tail,
    store_and_denoise env cfg st q stored log
    = (Ok (Continue s), (log ++ tail)%list)
    /\ count is_web tail = 0
    /\ count is_initial_draft tail = 0
    /\ search_history s = (search_history st ++ [r])%list
    /\ question r = q /\ answer r = stored
    /\ revision_count s
       = (revision_count st + (if use_diffusion cfg then 1 else 0))%Z
    /\ query s = query st /\ brief s = brief st /\ plan s = plan st
    /\ final_report s = final_report st /\ metadata s = metadata st.
Proof.
  unfold store_and_denoise, add_search_result, _denoise_draft, bind, clock,
    ret, invoke.
  destruct (use_diffusion cfg).
  - eexists _, _, [_]. split; [reflexivity |]. simpl.
    repeat split; reflexivity.
  - eexists _, _, []. rewrite app_nil_r. split; [reflexivity |]. simpl.
    repeat split; try reflexivity. lia.
Qed.

End DirectStep.

Lemma count_cons f (e : World.Event) (l : World.Log) :
  World.count f (e :: l) = (if f e then 1 else 0) + World.count f l.
Proof. unfold World.count. simpl. destruct (f e); reflexivity. Qed.

(** Count the events of a log written as a list of known events and
    unknown segments. *)
Ltac count_solve :=
  repeat (rewrite count_app || rewrite count_cons);
  rewrite ?count_nil; simpl; lia.

Section DirectLoop.
Import PyStr World Spec State Agent.
Variable env : Env.




(** One iteration that does not raise: the question call, then either the
    exit with nothing else done, or exactly one web search, one more
    result in the history, and one more revision under [use_diffusion]. *)
Lemma search_step_outcome cfg step st log c log' :
  search_step env cfg step st log = (Ok c, log') ->
  exists vars rest,
    question_vars env st = Ok vars
    /\ log' = (log ++ LLM (question_prompt vars)
                        (model env log (question_prompt vars)) :: rest)%list
    /\ let q := strip (model env log (question_prompt vars)) in
       match c with
       | Break s => s = st /\ is_done q = true /\ rest = []
       | Continue s =>
           is_done q = false
           /\ count is_web rest = 1
           /\ count is_initial_draft rest = 0
           /\ (exists r, search_history s = (search_history st ++ [r])%list
                         /\ question r = q)
           /\ revision_count s
              = (revision_count st + (if use_diffusion cfg then 1 else 0))%Z
           /\ query s = query st /\ brief s = brief st /\ plan s = plan st
           /\ final_report s = final_report st /\ metadata s = metadata st
       end.
Proof.
  unfold search_step, _generate_search_question, bind, lift, ret, invoke.
  destruct (question_vars env st) as [vars | e]; [| discriminate].
  set (raw := model env log (question_prompt vars)).
  set (log1 := (log ++ [LLM (question_prompt vars) raw])%list).
  destruct (is_done (strip raw)) eqn:Hd.
  - intros H. inversion H; subst. exists vars, [].
    split; [reflexivity |]. split; [reflexivity |]. simpl. auto.
  - destruct (search_and_answer_log env (strip raw) st log1)
      as [kb [answer [E [K1 K2]]]].
    rewrite E.
    set (log2 := (log1 ++ _)%list).
    set (c3 := if evolves cfg step
               then SelfEvolution.evolve_answer env (strip raw) answer 2 1
               else fun log0 : Log => (Ok answer, log0)).
    assert (W3 : adds_at_most is_web 0 c3).
    { unfold c3. destruct (evolves cfg step);
        [apply web_evolve | apply (adds_ret is_web answer)]. }
    assert (D3 : adds_at_most is_initial_draft 0 c3).
    { unfold c3. destruct (evolves cfg step);
        [apply draft_evolve | apply (adds_ret is_initial_draft answer)]. }
    destruct (adds_zero_at is_web c3 log2 W3) as [n3 [E3 C3]].
    destruct (adds_zero_at is_initial_draft c3 log2 D3) as [n3' [E3' C3']].
    rewrite E3 in E3'. apply app_inv_head in E3'. subst n3'.
    destruct (c3 log2) as [[stored | e] log3]; [| discriminate].
    simpl in E3. subst log3.
    destruct (store_and_denoise_effect env cfg st (strip raw) stored
                (log2 ++ n3)%list)
      as [s [r [tail [Es [T1 [T2 [Hh [Hq [Ha [Hr Hframe]]]]]]]]]].
    rewrite Es. intros H. inversion H; subst c log'.
    exists vars,
      (WebSearch (strip raw) (web_search_tool env log1 (strip raw))
         :: kb ++ [LLM (synth_prompt (strip raw)
                          (web_search_tool env log1 (strip raw))
                          (match kb with
                           | [Retrieve _ _ (Some ds)] => kb_text ds
                           | _ => EmptyString
                           end)) answer] ++ n3 ++ tail)%list.
    split; [reflexivity |]. split.
    + unfold log2, log1. rewrite <- !app_assoc. simpl.
      rewrite <- !app_assoc. reflexivity.
    + simpl. split; [exact Hd |].
      split; [count_solve |]. split; [count_solve |].
      split; [exists r; auto |]. split; [exact Hr | exact Hframe].
Qed.

(** The loop over any list of steps: the history grows by one result per
    web search, and never by more than the number of steps. *)
Lemma loop_effect cfg (l : list Z) : forall st log st' log',
  for_each l (search_step env cfg) st log = (Ok st', log') ->
  exists new added,
    log' = (log ++ new)%list
    /\ search_history st' = (search_history st ++ added)%list
    /\ List.length added = count is_web new
    /\ List.length added <= List.length l
    /\ count is_initial_draft new = 0
    /\ revision_count st'
       = (revision_count st
          + (if use_diffusion cfg then Z.of_nat (List.length added) else 0))%Z
    /\ query st' = query st /\ brief st' = brief st /\ plan st' = plan st
    /\ final_report st' = final_report st /\ metadata st' = metadata st.
Proof.
  induction l as [| x l IH]; intros st log st' log' H.
  - simpl in H. inversion H; subst. exists [], [].
    rewrite !app_nil_r. simpl. repeat split; try reflexivity; try lia.
    destruct (use_diffusion cfg); lia.
  - simpl in H. unfold bind at 1 in H.
    destruct (search_step env cfg x st log) as [[c | e] log1] eqn:Hs;
      [| discriminate].
    apply search_step_outcome in Hs.
    destruct Hs as [vars [rest [_ [El Hc]]]]. simpl in Hc.
    destruct c as [s | s].
    + destruct Hc as [_ [W [D [[r [Hh _]] [Hr [F1 [F2 [F3 [F4 F5]]]]]]]]].
      apply IH in H.
      destruct H as [new [added [E' [Hh' [L1 [L2 [D' [Hr' F']]]]]]]].
      exists (LLM (question_prompt vars)
                  (model env log (question_prompt vars)) :: rest ++ new)%list,
        (r :: added).
      split.
      { rewrite E', El. rewrite <- app_assoc. reflexivity. }
      split.
      { rewrite Hh', Hh. rewrite <- app_assoc. reflexivity. }
      split; [count_solve |].
      split; [simpl; lia |].
      split; [count_solve |].
      split.
      { rewrite Hr', Hr. destruct (use_diffusion cfg); simpl List.length; lia. }
      destruct F' as [G1 [G2 [G3 [G4 G5]]]].
      repeat split; congruence.
    + destruct Hc as [-> [_ ->]].
      unfold ret in H. inversion H; subst.
      exists [LLM (question_prompt vars)
                  (model env log (question_prompt vars))], [].
      rewrite app_nil_r. simpl.
      repeat split; try reflexivity; try lia.
      destruct (use_diffusion cfg); lia.
Qed.

End DirectLoop.

Section DirectRun.
Import PyStr World Spec State Agent.
Variable env : Env.

(** A whole run that does not raise. *)
Lemma run_effect cfg address brief log st log' :
  run env cfg address brief log = (Ok st, log') ->
  exists new,
    log' = (log ++ new)%list
    /\ List.length (search_history st) = count is_web new
    /\ List.length (search_history st) <= Z.to_nat (max_search_steps cfg)
    /\ count is_initial_draft new = (if use_diffusion cfg then 1 else 0)
    /\ revision_count st
       = (if use_diffusion cfg
          then Z.of_nat (List.length (search_history st)) else 0%Z).
Proof.
  unfold run, Planner.generate_plan, _generate_initial_draft,
    _generate_final_report, _iterative_search_and_refine.
  unfold bind at 1 2 3 4. unfold invoke at 1. unfold lift at 1 2.
  set (e0 := LLM (Planner.planner_prompt address brief) _).
  destruct (Planner.plan_of_content env address _) as [plan |];
    [| discriminate].
  destruct (count_sections plan) as [n |]; [| discriminate].
  unfold bind at 1.
  set (st0 := set_plan (new_state address brief) plan).
  assert (Hloop : forall s l1 stl ll,
             search_history s = [] -> revision_count s = 0%Z ->
             for_each (range (max_search_steps cfg)) (search_step env cfg)
                      s l1 = (Ok stl, ll) ->
             exists new, ll = (l1 ++ new)%list
               /\ List.length (search_history stl) = count is_web new
               /\ List.length (search_history stl)
                  <= Z.to_nat (max_search_steps cfg)
               /\ count is_initial_draft new = 0
               /\ revision_count stl
                  = (if use_diffusion cfg
                     then Z.of_nat (List.length (search_history stl))
                     else 0%Z)).
  { intros s l1 stl ll Hh Hr Hl. apply loop_effect in Hl.
    destruct Hl as [new [added [E [Hh' [L1 [L2 [D [Hr' _]]]]]]]].
    exists new. rewrite Hh', Hh. simpl. rewrite length_range in L2.
    repeat split; try assumption.
    rewrite Hr', Hr. destruct (use_diffusion cfg); reflexivity. }
  destruct (use_diffusion cfg) eqn:Hd.
  - unfold bind at 1 2. unfold lift.
    destruct (initial_draft_vars env st0) as [vars |]; [| discriminate].
    unfold invoke at 1. unfold ret at 1.
    set (e1 := LLM (mkPrompt draft_system draft_user vars) _).
    unfold bind at 1.
    destruct (for_each _ _ _ _) as [[stl | e] ll] eqn:Hl; [| discriminate].
    apply Hloop in Hl; [| reflexivity | reflexivity].
    destruct Hl as [new [E [L1 [L2 [D Hr]]]]].
    unfold bind, invoke, ret. intros H. inversion H; subst st log'. simpl.
    eexists (e0 :: e1 :: new ++ [_])%list.
    split; [rewrite E, <- !app_assoc; reflexivity |].
    split; [rewrite L1; unfold e0, e1; count_solve |].
    split; [exact L2 |].
    split; [unfold e0, e1; count_solve | exact Hr].
  - unfold ret at 1. unfold bind at 1.
    destruct (for_each _ _ _ _) as [[stl | e] ll] eqn:Hl; [| discriminate].
    apply Hloop in Hl; [| reflexivity | reflexivity].
    destruct Hl as [new [E [L1 [L2 [D Hr]]]]].
    unfold bind, invoke, ret. intros H. inversion H; subst st log'. simpl.
    eexists (e0 :: new ++ [_])%list.
    split; [rewrite E, <- !app_assoc; reflexivity |].
    split; [rewrite L1; unfold e0; count_solve |].
    split; [exact L2 |].
    split; [unfold e0; count_solve | exact Hr].
Qed.

End DirectRun.

(* ------------------------------------------------------------------ *)
(** ** C3: the revision counter *)
(* ------------------------------------------------------------------ *)

(** C3 (as amended).  After a run with [use_diffusion] enabled,
    [revision_count] equals the number of search iterations that ran to
    their end, that is the number of web searches issued and of results in
    [search_history]; the initial draft stage, which ran once, adds
    nothing to it. *)
Theorem revision_count_counts_iterations
        (env : World.Env) (cfg : Agent.Config) (address brief : string)
        (log : World.Log) (st : State.AgentState) (log' : World.Log) :
  Agent.use_diffusion cfg = true ->
  Agent.run env cfg address brief log = (World.Ok st, log') ->
  exists new,
    log' = (log ++ new)%list
    /\ World.count Spec.is_initial_draft new = 1
    /\ State.revision_count st = Z.of_nat (World.count World.is_web new)
    /\ State.revision_count st
       = Z.of_nat (List.length (State.search_history st)).
Proof.
  intros Hd Hrun. apply run_effect in Hrun.
  destruct Hrun as [new [E [L1 [_ [D Hr]]]]]. rewrite Hd in D, Hr.
  exists new. rewrite <- L1. auto.
Qed.

Lemma revision_count_counts_iterations_witness :
  match Agent.run (Demo.env ["q1"; "q2"]) Demo.cfg "12 Main St" EmptyString []
  with
  | (World.Ok st, _) =>
      State.revision_count st
      = Z.of_nat (List.length (State.search_history st))
  | (World.Raise _, _) => False
  end.
Proof.
  destruct (Agent.run (Demo.env ["q1"; "q2"]) Demo.cfg "12 Main St"
                      EmptyString []) as [[st | e] log'] eqn:E.
  - destruct (revision_count_counts_iterations
                (Demo.env ["q1"; "q2"]) Demo.cfg "12 Main St" EmptyString []
                st log' eq_refl E) as [new [_ [_ [_ H]]]].
    exact H.
  - vm_compute in E. discriminate E.
Defined.

(** C3 as stated fails: in this run the initial draft stage ran, two
    iterations ran to their end before the model answered DONE, and the
    counter is 2, not 2 plus one. *)
Lemma revision_count_counterexample :
  let out := Agent.run (Demo.env ["q1"; "q2"]) Demo.cfg
                       "12 Main St" EmptyString [] in
  exists st,
    fst out = World.Ok st
    /\ World.count Spec.is_initial_draft (snd out) = 1
    /\ World.count World.is_web (snd out) = 2
    /\ State.revision_count st = 2%Z
    /\ State.revision_count st
       <> (Z.of_nat (World.count World.is_web (snd out)) + 1)%Z.
Proof.
  eexists. split; [vm_compute; reflexivity |].
  split; [vm_compute; reflexivity |].
  split; [vm_compute; reflexivity |].
  split; [vm_compute; reflexivity |].
  vm_compute. discriminate.
Qed.

(* ------------------------------------------------------------------ *)
(** ** C9: the search history only grows, one result at a time *)
(* ------------------------------------------------------------------ *)

Section HistoryGrowth.
Import PyStr World Spec.
Variable env : Env.

Lemma apply_op_history op st log :
  exists st',
    fst (apply_op env op st log) = Ok st'
    /\ grows_by_at_most_one (State.search_history st)
                            (State.search_history st').
Proof.
  destruct op; simpl; eexists; (split; [reflexivity |]);
    try (left; reflexivity).
  right. eexists. reflexivity.
Qed.

Lemma search_step_history cfg step st log c :
  fst (Agent.search_step env cfg step st log) = Ok c ->
  match c with
  | Break s => s = st
  | Continue s =>
      exists r, State.search_history s = (State.search_history st ++ [r])%list
  end.
Proof.
  destruct (Agent.search_step env cfg step st log) as [r log'] eqn:E.
  simpl. intros ->. apply search_step_outcome in E.
  destruct E as [vars [rest [_ [_ H]]]]. simpl in H.
  destruct c as [s | s].
  - destruct H as [_ [_ [_ [[r [Hh _]] _]]]]. exists r. exact Hh.
  - destruct H as [H _]. exact H.
Qed.

Lemma loop_history cfg st log st' :
  fst (Agent._iterative_search_and_refine env cfg st log) = Ok st' ->
  exists added,
    State.search_history st' = (State.search_history st ++ added)%list
    /\ List.length added <= Z.to_nat (Agent.max_search_steps cfg).
Proof.
  unfold Agent._iterative_search_and_refine.
  destruct (for_each _ _ st log) as [r log'] eqn:E. simpl. intros ->.
  apply loop_effect in E.
  destruct E as [new [added [_ [Hh [_ [L _]]]]]].
  exists added. rewrite length_range in L. auto.
Qed.

(** The nodes of the graph after [parse_input], which starts the run with
    an empty history. *)
Lemma graph_step_history n st log n' st' :
  n <> Graph.parse_input ->
  fst (Graph.step env n st log) = Ok (n', st') ->
  grows_by_at_most_one (Graph.search_history st) (Graph.search_history st').
Proof.
  intros Hn. destruct n; try congruence; clear Hn; simpl.
  - unfold Graph.stage1_plan_node, bind, lift, ret.
    destruct (Planner.generate_plan env _ _ log) as [[p | e] l];
      [| discriminate].
    destruct (Agent.count_sections p); simpl; intros H; inversion H.
    left. reflexivity.
  - unfold Graph.stage2_draft_node, bind, lift, ret, invoke.
    destruct (Graph.titles env (Graph.plan st)); simpl; intros H;
      inversion H.
    left. reflexivity.
  - unfold Graph.search_node, bind, lift, ret.
    destruct (Graph.search_question_vars env st) as [vars | e];
      [| discriminate].
    unfold invoke at 1.
    destruct (Graph.search_complete _ _).
    + simpl. intros H. inversion H. left. reflexivity.
    + split_binds; simpl; intros H; inversion H; right; eexists;
        reflexivity.
  - unfold Graph.denoise_node, bind, ret, invoke.
    destruct (Graph.search_history st) eqn:Eh; simpl; intros H;
      inversion H; simpl; left; try rewrite Eh; reflexivity.
  - unfold Graph.final_report_node, bind, ret, invoke. simpl.
    intros H. inversion H. left. reflexivity.
  - unfold ret. simpl. intros H. inversion H. left. reflexivity.
Qed.

End HistoryGrowth.

(** C9.  Every operation on the agent state (its methods and the
    assignments of [run]) leaves [search_history] as it was or appends
    exactly one result at its end; so does every iteration of the search
    loop, so that the loop as a whole only extends the history it was
    given, by at most [max_search_steps] results; and so does every node
    of the graph after [parse_input], which starts the run.  Nothing
    removes or reorders an entry. *)
Theorem search_history_grows (env : World.Env) :
  (forall op st log,
      exists st',
        fst (Spec.apply_op env op st log) = World.Ok st'
        /\ Spec.grows_by_at_most_one (State.search_history st)
                                     (State.search_history st'))
  /\ (forall cfg step st log c,
         fst (Agent.search_step env cfg step st log) = World.Ok c ->
         match c with
         | World.Break s => s = st
         | World.Continue s =>
             exists r,
               State.search_history s = (State.search_history st ++ [r])%list
         end)
  /\ (forall cfg st log st',
         fst (Agent._iterative_search_and_refine env cfg st log)
         = World.Ok st' ->
         exists added,
           State.search_history st'
           = (State.search_history st ++ added)%list
           /\ List.length added <= Z.to_nat (Agent.max_search_steps cfg))
  /\ (forall n st log n' st',
         n <> Graph.parse_input ->
         fst (Graph.step env n st log) = World.Ok (n', st') ->
         Spec.grows_by_at_most_one (Graph.search_history st)
                                   (Graph.search_history st')).
Proof.
  split; [| split; [| split]].
  - apply apply_op_history.
  - apply search_step_history.
  - apply loop_history.
  - apply graph_step_history.
Qed.

Lemma search_history_grows_witness :
  exists st' added,
    fst (Agent._iterative_search_and_refine
           (Demo.env ["q1"; "q2"]) Demo.cfg
           (State.new_state "12 Main St" EmptyString) [])
    = World.Ok st'
    /\ State.search_history st' = added
    /\ List.length added <= 3.
Proof.
  eexists. 
  destruct (proj1 (proj2 (proj2 (search_history_grows (Demo.env ["q1"; "q2"]))))
              Demo.cfg (State.new_state "12 Main St" EmptyString) []
              _ ltac:(vm_compute; reflexivity))
    as [added [Hh L]].
  exists added. split; [vm_compute; reflexivity |]. split; [exact Hh | exact L].
Defined.

(* ------------------------------------------------------------------ *)
(** ** C7: what the question prompt is conditioned on *)
(* ------------------------------------------------------------------ *)

Section QuestionPrompt.
Import PyStr World Spec State Agent.
Variable env : Env.

Lemma numbered_enumerate (l : list SearchResult) : forall k,
  map (fun '(i, r) => of_nat (i + 1) ++ ". " ++ question r) (enumerate k l)
  = numbered (k + 1) (map question l).
Proof.
  induction l as [| r l IH]; intros k; simpl; [reflexivity |].
  f_equal. rewrite IH. reflexivity.
Qed.

Lemma last_n_window {A} (older window : list A) :
  List.length window = 5 \/ (older = [] /\ List.length window <= 5) ->
  last_n 5 (older ++ window)%list = window.
Proof.
  unfold last_n. rewrite length_app. intros [H | [-> H]].
  - replace (List.length older + List.length window - 5)
      with (List.length older) by lia.
    rewrite skipn_app, Nat.sub_diag, skipn_all. reflexivity.
  - simpl. replace (List.length window - 5) with 0 by lia. reflexivity.
Qed.

Lemma truthy_app_dot a b : truthy (a ++ ". " ++ b) = true.
Proof. destruct a; reflexivity. Qed.

Lemma truthy_join_numbered k q rest :
  truthy (join nl (numbered k (q :: rest))) = true.
Proof.
  unfold join. simpl. destruct (numbered (S k) rest).
  - apply truthy_app_dot.
  - destruct (of_nat k); reflexivity.
Qed.

Lemma previous_questions_window st older window :
  search_history st = (older ++ window)%list ->
  List.length window = 5 \/ (older = [] /\ List.length window <= 5) ->
  previous_questions st
  = match window with
    | [] => "None"
    | _ => join nl (numbered 1 (map question window))
    end.
Proof.
  intros Hh Hw. unfold previous_questions.
  rewrite Hh, (last_n_window older window Hw), numbered_enumerate.
  destruct window as [| r rest]; [reflexivity |].
  simpl map. rewrite truthy_join_numbered. reflexivity.
Qed.

Lemma take_length n : forall s, String.length (take n s) <= n.
Proof.
  induction n as [| n IH]; intros s; destruct s; simpl; try lia.
  specialize (IH s). lia.
Qed.

Lemma take_drop n : forall s, s = take n s ++ drop n s.
Proof.
  induction n as [| n IH]; intros s; destruct s; simpl; try reflexivity.
  rewrite <- IH. reflexivity.
Qed.

Lemma draft_snapshot_spec st :
  match draft_report st with
  | EmptyString => draft_snapshot st = "No draft"
  | _ =>
      String.length (draft_snapshot st) <= 500
      /\ draft_report st = draft_snapshot st ++ drop 500 (draft_report st)
  end.
Proof.
  unfold draft_snapshot. destruct (draft_report st) as [| c d] eqn:E.
  - reflexivity.
  - cbn [truthy]. split; [apply take_length | apply take_drop].
Qed.

Lemma question_call st vars log :
  question_vars env st = Ok vars ->
  (exists plan_text,
      vars = [("address", query st); ("plan", plan_text);
              ("previous", previous_questions st);
              ("draft", draft_snapshot st)])
  /\ _generate_search_question env st log
     = (Ok (strip (model env log (question_prompt vars))),
        (log ++ [LLM (question_prompt vars)
                     (model env log (question_prompt vars))])%list).
Proof.
  unfold _generate_search_question, question_vars, bind, lift, ret, invoke,
    PyJson.rbind.
  destruct (_format_plan env (plan st)) as [pt | e]; [| discriminate].
  intros H. inversion H; subst. split; [exists pt; reflexivity | reflexivity].
Qed.

End QuestionPrompt.

(** C7 (as amended).  In the direct-call variant the question-generation
    call is made on the dictionary [address], [plan], [previous], [draft].
    [previous] lists the last 5 questions of [search_history] (all of
    them when there are fewer), numbered from 1 in the order of the
    history, oldest first and most recent last, or is ["None"] when there
    is none.  [draft] is the first 500 characters of the current draft, or
    ["No draft"] when the draft is empty. *)
Theorem question_prompt_conditioning (env : World.Env) (st : State.AgentState) :
  (forall vars log,
      Agent.question_vars env st = World.Ok vars ->
      (exists plan_text,
          vars = [("address", State.query st); ("plan", plan_text);
                  ("previous", Agent.previous_questions st);
                  ("draft", Agent.draft_snapshot st)])
      /\ Agent._generate_search_question env st log
         = (World.Ok (PyStr.strip
                        (World.model env log (Agent.question_prompt vars))),
            (log ++ [World.LLM (Agent.question_prompt vars)
                       (World.model env log (Agent.question_prompt vars))])%list))
  /\ (forall older window,
         State.search_history st = (older ++ window)%list ->
         List.length window = 5 \/ (older = [] /\ List.length window <= 5) ->
         Agent.previous_questions st
         = match window with
           | [] => "None"
           | _ => PyStr.join nl (Spec.numbered 1 (map State.question window))
           end)
  /\ match State.draft_report st with
     | EmptyString => Agent.draft_snapshot st = "No draft"
     | _ =>
         String.length (Agent.draft_snapshot st) <= 500
         /\ State.draft_report st
            = Agent.draft_snapshot st ++ PyStr.drop 500 (State.draft_report st)
     end.
Proof.
  split; [| split].
  - intros vars log H. apply question_call. exact H.
  - apply previous_questions_window.
  - apply draft_snapshot_spec.
Qed.

Lemma question_prompt_conditioning_witness :
  Agent.previous_questions Demo.two_questions
  = PyStr.join nl (Spec.numbered 1 ["q1"; "q2"]).
Proof.
  exact (proj1 (proj2 (question_prompt_conditioning
                         (Demo.env []) Demo.two_questions))
           [] (State.search_history Demo.two_questions)
           eq_refl (or_intror (conj eq_refl (le_S _ _ (le_S _ _ (le_S _ _ (le_n 2))))))).
Defined.

(** C7 as stated fails: with the questions [q1] then [q2] in the history
    the prompt lists [q1] first, where most recent first would list [q2]
    first; and with an empty draft the prompt holds ["No draft"], not the
    (empty) truncated draft. *)
Lemma question_prompt_counterexample :
  Agent.previous_questions Demo.two_questions
  = "1. q1" ++ nl ++ "2. q2"
  /\ Spec.previous_most_recent_first Demo.two_questions
     = "1. q2" ++ nl ++ "2. q1"
  /\ Agent.previous_questions Demo.two_questions
     <> Spec.previous_most_recent_first Demo.two_questions
  /\ Agent.draft_snapshot Demo.two_questions
     <> PyStr.take 500 (State.draft_report Demo.two_questions).
Proof.
  split; [vm_compute; reflexivity |].
  split; [vm_compute; reflexivity |].
  split; vm_compute; intros H; discriminate H.
Qed.

(* ------------------------------------------------------------------ *)
(** ** C2: the early exit on the completion sentinel *)
(* ------------------------------------------------------------------ *)

Section EarlyExit.
Import PyStr World Spec.
Variable env : Env.

Lemma is_done_iff q :
  Agent.is_done q = true <-> q = EmptyString \/ q = "DONE".
Proof.
  unfold Agent.is_done. rewrite orb_true_iff, String.eqb_eq.
  destruct q; simpl; split; intros [H | H]; auto; discriminate.
Qed.

Lemma search_complete_iff q step :
  Graph.search_complete q step = true
  <-> contains "DONE" (upper q) = true \/ (2 <= step)%Z.
Proof.
  unfold Graph.search_complete. rewrite orb_true_iff, Z.leb_le. reflexivity.
Qed.

(** What follows the synthesis call in an iteration only adds to the
    log. *)
Lemma store_adds cfg st q a :
  adds_at_most is_web 0 (Agent.store_and_denoise env cfg st q a).
Proof.
  unfold Agent.store_and_denoise, State.add_search_result,
    Agent._denoise_draft.
  adds_bound.
Qed.

Lemma step_tail_adds cfg step st q a :
  adds_at_most is_web 0
    (bind (if Agent.evolves cfg step
           then SelfEvolution.evolve_answer env q a 2 1
           else ret a)
          (fun answer => Agent.store_and_denoise env cfg st q answer)).
Proof.
  apply (adds_bind is_web 0 0).
  - destruct (Agent.evolves cfg step); [apply web_evolve | apply adds_ret].
  - intros answer. apply store_adds.
Qed.

Lemma direct_step_exit cfg step st log vars :
  Agent.question_vars env st = Ok vars ->
  let raw := model env log (Agent.question_prompt vars) in
  let q := strip raw in
  let asked := LLM (Agent.question_prompt vars) raw in
  ((exists s, fst (Agent.search_step env cfg step st log) = Ok (Break s))
   <-> q = EmptyString \/ q = "DONE")
  /\ (q = EmptyString \/ q = "DONE" ->
      Agent.search_step env cfg step st log
      = (Ok (Break st), (log ++ [asked])%list))
  /\ (~ (q = EmptyString \/ q = "DONE") ->
      exists rest,
        snd (Agent.search_step env cfg step st log)
        = (log ++ asked
               :: WebSearch q (web_search_tool env (log ++ [asked])%list q)
               :: rest)%list).
Proof.
  intros Hv raw q asked.
  assert (Hq : Agent._generate_search_question env st log
               = (Ok q, (log ++ [asked])%list))
    by apply (proj2 (question_call env st vars log Hv)).
  assert (Hdone : q = EmptyString \/ q = "DONE" ->
                  Agent.search_step env cfg step st log
                  = (Ok (Break st), (log ++ [asked])%list)).
  { intros H. apply is_done_iff in H.
    unfold Agent.search_step. unfold bind at 1. rewrite Hq, H. reflexivity. }
  split; [| split; [exact Hdone |]].
  - split.
    + intros [s Hs].
      destruct (Agent.search_step env cfg step st log) as [r log'] eqn:E.
      simpl in Hs. subst r. apply search_step_outcome in E.
      destruct E as [vars' [rest [Hv' [_ H]]]].
      rewrite Hv in Hv'. inversion Hv'; subst vars'. simpl in H.
      apply is_done_iff. tauto.
    + intros H. exists st. rewrite (Hdone H). reflexivity.
  - intros Hn.
    assert (Hd : Agent.is_done q = false).
    { destruct (Agent.is_done q) eqn:E; [| reflexivity].
      apply is_done_iff in E. contradiction. }
    unfold Agent.search_step. unfold bind at 1. rewrite Hq, Hd.
    unfold bind at 1.
    destruct (search_and_answer_log env q st (log ++ [asked])%list)
      as [kb [answer [E _]]].
    rewrite E.
    match goal with
    | |- context [snd (bind ?c ?k ?l)] =>
        destruct (step_tail_adds cfg step st q answer l) as [new [En _]]
    end.
    rewrite En.
    exists (kb ++ [LLM (Agent.synth_prompt q
                         (web_search_tool env (log ++ [asked])%list q)
                         (match kb with
                          | [Retrieve _ _ (Some ds)] => Agent.kb_text ds
                          | _ => EmptyString
                          end)) answer] ++ new)%list.
    simpl. repeat (rewrite <- app_assoc; simpl). reflexivity.
Qed.

Lemma graph_search_exit st log vars :
  Graph.search_question_vars env st = Ok vars ->
  let raw := model env log (Graph.search_question_prompt vars) in
  let q := strip raw in
  let asked := LLM (Graph.search_question_prompt vars) raw in
  (Graph.search_complete q (Graph.step_count st) = true ->
   exists st',
     Graph.step env Graph.search st log
     = (Ok (Graph.final_report_n, st'), (log ++ [asked])%list)
     /\ Graph.search_history st' = Graph.search_history st
     /\ Graph.step_count st' = Graph.step_count st)
  /\ (Graph.search_complete q (Graph.step_count st) = false ->
      exists rest,
        snd (Graph.step env Graph.search st log)
        = (log ++ asked
               :: WebSearch q (web_search_tool env (log ++ [asked])%list q)
               :: rest)%list).
Proof.
  intros Hv raw q asked. split; intros Hc.
  - eexists. unfold Graph.step, Graph.search_node.
    unfold bind, lift, ret, invoke. rewrite Hv. fold raw. fold q.
    rewrite Hc. rewrite route_after_complete.
    split; [reflexivity |]. split; reflexivity.
  - unfold Graph.step. unfold bind at 1.
    assert (Hs : exists rest,
               snd (Graph.search_node env st log)
               = (log ++ asked
                      :: WebSearch q
                           (web_search_tool env (log ++ [asked])%list q)
                      :: rest)%list).
    { unfold Graph.search_node. unfold bind at 1. unfold lift. rewrite Hv.
      unfold bind at 1. unfold invoke at 1. fold raw. fold q. fold asked.
      rewrite Hc. unfold bind at 1. unfold web_search at 1.
      match goal with
      | |- context [snd (bind ?c ?k ?l)] =>
          assert (Ha : adds_at_most is_web 0 (bind c k))
      end.
      { apply (adds_bind is_web 0 0); [apply web_kb_lookup |].
        intros kb. apply (adds_bind is_web 0 0); [adds_exact |].
        intros answer. apply (adds_bind is_web 0 0).
        - destruct (Graph.graph_evolves (Graph.step_count st)).
          + apply (adds_bind is_web 0 0); [apply web_evolve |].
            intros. apply adds_ret.
          + apply adds_ret.
        - intros [mu ans]. apply adds_ret. }
      match goal with
      | |- context [snd (bind ?c ?k ?l)] =>
          destruct (Ha l) as [new [En _]]
      end.
      rewrite En. exists new. rewrite <- !app_assoc. reflexivity. }
    destruct Hs as [rest Hs].
    destruct (Graph.search_node env st log) as [[st' | e] l]; simpl in *;
      exists rest; exact Hs.
Qed.

End EarlyExit.

(** C2 (as amended).  In the direct-call variant an iteration leaves the
    loop if and only if the stripped question is empty or is exactly
    ["DONE"]; in the graph variant the search node takes its completion
    branch if and only if the upper-cased question contains ["DONE"] or
    the step counter has reached 2, and the graph then goes to the final
    report.  In both variants a step that takes this exit makes the
    question call and nothing else, so no web search is issued for it;
    a step that does not take it issues the web search for its question
    next. *)
Theorem early_exit_on_sentinel (env : World.Env) :
  (forall cfg step st log vars,
      Agent.question_vars env st = World.Ok vars ->
      let raw := World.model env log (Agent.question_prompt vars) in
      let q := PyStr.strip raw in
      let asked := World.LLM (Agent.question_prompt vars) raw in
      ((exists s, fst (Agent.search_step env cfg step st log)
                  = World.Ok (World.Break s))
       <-> q = EmptyString \/ q = "DONE")
      /\ (q = EmptyString \/ q = "DONE" ->
          Agent.search_step env cfg step st log
          = (World.Ok (World.Break st), (log ++ [asked])%list))
      /\ (~ (q = EmptyString \/ q = "DONE") ->
          exists rest,
            snd (Agent.search_step env cfg step st log)
            = (log ++ asked
                   :: World.WebSearch q
                        (World.web_search_tool env (log ++ [asked])%list q)
                   :: rest)%list))
  /\ (forall q step,
         Graph.search_complete q step = true
         <-> PyStr.contains "DONE" (PyStr.upper q) = true \/ (2 <= step)%Z)
  /\ (forall st log vars,
         Graph.search_question_vars env st = World.Ok vars ->
         let raw := World.model env log (Graph.search_question_prompt vars) in
         let q := PyStr.strip raw in
         let asked := World.LLM (Graph.search_question_prompt vars) raw in
         (Graph.search_complete q (Graph.step_count st) = true ->
          exists st',
            Graph.step env Graph.search st log
            = (World.Ok (Graph.final_report_n, st'), (log ++ [asked])%list)
            /\ Graph.search_history st' = Graph.search_history st
            /\ Graph.step_count st' = Graph.step_count st)
         /\ (Graph.search_complete q (Graph.step_count st) = false ->
             exists rest,
               snd (Graph.step env Graph.search st log)
               = (log ++ asked
                      :: World.WebSearch q
                           (World.web_search_tool env (log ++ [asked])%list q)
                      :: rest)%list)).
Proof.
  split; [| split].
  - intros cfg step st log vars Hv. apply direct_step_exit. exact Hv.
  - apply search_complete_iff.
  - intros st log vars Hv. apply graph_search_exit. exact Hv.
Qed.

Lemma early_exit_on_sentinel_witness :
  fst (Agent.search_step (Demo.env ["DONE"]) Demo.cfg 0
         (State.new_state "12 Main St" EmptyString) [])
  = World.Ok (World.Break (State.new_state "12 Main St" EmptyString)).
Proof.
  destruct (Agent.question_vars (Demo.env ["DONE"])
              (State.new_state "12 Main St" EmptyString)) as [vars | e] eqn:E.
  - rewrite (proj1 (proj2 (proj1 (early_exit_on_sentinel (Demo.env ["DONE"]))
                             Demo.cfg 0%Z
                             (State.new_state "12 Main St" EmptyString)
                             [] vars E))).
    + reflexivity.
    + right. vm_compute in E. inversion E; subst vars. vm_compute.
      reflexivity.
  - vm_compute in E. discriminate E.
Defined.

(** C2 as stated fails: the model answers the question prompt with
    blanks only; the stripped question is empty, which is not the
    sentinel ["DONE"], and the loop exits at its first step, with no web
    search made out of a budget of three. *)
Lemma early_exit_counterexample :
  let env := Demo.env ["   "] in
  let st := State.new_state "12 Main St" EmptyString in
  fst (Agent._generate_search_question env st []) = World.Ok EmptyString
  /\ EmptyString <> "DONE"
  /\ fst (Agent.search_step env Demo.cfg 0 st []) = World.Ok (World.Break st)
  /\ World.count World.is_web
       (snd (Agent._iterative_search_and_refine env Demo.cfg st [])) = 0.
Proof.
  split; [vm_compute; reflexivity |].
  split; [discriminate |].
  split; vm_compute; reflexivity.
Qed.

(** The graph's routing also ends the loop after a step whose message
    holds the word "complete": here the first question has no ["DONE"]
    in it, its web search is made, and the graph goes to the final
    report with one step done out of two. *)
Example graph_exits_on_the_word_complete :
  let out := Graph.run_graph (Demo.env ["Is the survey complete?"; "q2"])
                             7 ["12 Main St"] [] in
  PyStr.contains "DONE" (PyStr.upper "Is the survey complete?") = false
  /\ (exists st, fst out = World.Ok (Some st)
                 /\ Graph.step_count st = 1%Z
                 /\ List.length (Graph.search_history st) = 1)
  /\ World.count World.is_web (snd out) = 1.
Proof.
  split; [vm_compute; reflexivity |].
  split; [| vm_compute; reflexivity].
  eexists. split; [vm_compute; reflexivity |].
  split; vm_compute; reflexivity.
Qed.

(* ------------------------------------------------------------------ *)
(** ** C4: what [generate_plan] does with the model's text *)
(* ------------------------------------------------------------------ *)

Section Planning.
Import PyStr World Spec Planner.
Variable env : Env.

Lemma generate_plan_call query brief log :
  Planner.generate_plan env query brief log
  = (plan_of_content env query (model env log (planner_prompt query brief)),
     (log ++ [LLM (planner_prompt query brief)
                  (model env log (planner_prompt query brief))])%list).
Proof. reflexivity. Qed.

Lemma plan_of_valid query content v :
  json_loads env content = Some v ->
  plan_of_content env query content = Ok v.
Proof. unfold plan_of_content. intros ->. reflexivity. Qed.

Lemma plan_of_no_braces query content :
  json_loads env content = None ->
  braces_found content = false ->
  plan_of_content env query content = Ok (default_plan query).
Proof.
  unfold plan_of_content, braces_found. intros -> ->. reflexivity.
Qed.

Lemma plan_of_braces query content v :
  json_loads env content = None ->
  braces_found content = true ->
  json_loads env (outermost_braces content) = Some v ->
  plan_of_content env query content = Ok v.
Proof.
  unfold plan_of_content, braces_found, outermost_braces.
  intros -> -> ->. reflexivity.
Qed.

Lemma plan_of_broken_braces query content :
  json_loads env content = None ->
  braces_found content = true ->
  json_loads env (outermost_braces content) = None ->
  plan_of_content env query content = Raise JSONDecodeError.
Proof.
  unfold plan_of_content, braces_found, outermost_braces.
  intros -> -> ->. reflexivity.
Qed.

Lemma run_raises_with_plan cfg query brief log e :
  fst (Planner.generate_plan env query brief log) = Raise e ->
  fst (Agent.run env cfg query brief log) = Raise e.
Proof.
  unfold Agent.run. unfold bind at 1.
  destruct (Planner.generate_plan env query brief log) as [[p | e'] l];
    simpl; intros H; [discriminate H | inversion H; reflexivity].
Qed.

End Planning.

(** C4.  What [generate_plan] returns is decided by the model's text
    alone.  A text that is valid JSON is returned decoded.  A text that is
    not, and in which no ["{"] is followed by a last ["}"], gives the
    default plan: exactly one section, whose only question is the query
    verbatim.  A text that is not valid JSON but has such braces gives the
    decoding of the text from the first ["{"] to the last ["}"] when that
    is valid JSON; and when it is not, the second [json.loads] raises
    [JSONDecodeError] out of [generate_plan], and out of [run]: the
    planning stage does raise. *)
Theorem generate_plan_outcomes (env : World.Env) (query brief : string)
        (log : World.Log) :
  let content := World.model env log (Planner.planner_prompt query brief) in
  (forall v,
      World.json_loads env content = Some v ->
      fst (Planner.generate_plan env query brief log) = World.Ok v)
  /\ (World.json_loads env content = None ->
      Spec.braces_found content = false ->
      fst (Planner.generate_plan env query brief log)
      = World.Ok (Json.JObj
                    [("sections",
                      Json.JArr
                        [Json.JObj [("title", Json.JStr "General Research");
                                    ("questions",
                                     Json.JArr [Json.JStr query])]])]))
  /\ (forall v,
         World.json_loads env content = None ->
         Spec.braces_found content = true ->
         World.json_loads env (Spec.outermost_braces content) = Some v ->
         fst (Planner.generate_plan env query brief log) = World.Ok v)
  /\ (World.json_loads env content = None ->
      Spec.braces_found content = true ->
      World.json_loads env (Spec.outermost_braces content) = None ->
      fst (Planner.generate_plan env query brief log)
      = World.Raise World.JSONDecodeError
      /\ forall cfg,
          fst (Agent.run env cfg query brief log)
          = World.Raise World.JSONDecodeError).
Proof.
  intros content. rewrite generate_plan_call. fold content. simpl fst.
  split; [| split; [| split]].
  - intros v H. apply plan_of_valid. exact H.
  - intros H1 H2. apply plan_of_no_braces; assumption.
  - intros v H1 H2 H3. apply plan_of_braces; assumption.
  - intros H1 H2 H3.
    assert (H : Planner.plan_of_content env query content
                = World.Raise World.JSONDecodeError)
      by (apply plan_of_broken_braces; assumption).
    split; [exact H |].
    intros cfg. apply run_raises_with_plan.
    rewrite generate_plan_call. fold content. exact H.
Qed.

Lemma generate_plan_outcomes_witness :
  fst (Planner.generate_plan Demo.broken_env "12 Main St" EmptyString [])
  = World.Raise World.JSONDecodeError
  /\ fst (Agent.run Demo.broken_env Demo.cfg "12 Main St" EmptyString [])
     = World.Raise World.JSONDecodeError.
Proof.
  destruct (proj2 (proj2 (proj2 (generate_plan_outcomes
                                   Demo.broken_env "12 Main St"
                                   EmptyString [])))
              ltac:(vm_compute; reflexivity)
              ltac:(vm_compute; reflexivity)
              ltac:(vm_compute; reflexivity)) as [H1 H2].
  split; [exact H1 | exact (H2 Demo.cfg)].
Defined.

(* ------------------------------------------------------------------ *)
(** ** C8: when the answer is replaced by the evolved answer *)
(* ------------------------------------------------------------------ *)

Section Cadence.
Import PyStr World Spec.
Variable env : Env.


(** Graph variant: the node's own guard [step >= 2] leaves before any
    step that [step % 2 == 0 and step > 0] selects. *)
Lemma evolving_step_is_complete q step :
  Graph.graph_evolves step = true -> Graph.search_complete q step = true.
Proof.
  unfold Graph.graph_evolves, Graph.search_complete.
  intros H. apply andb_true_iff in H. destruct H as [Hm Hp].
  apply Z.eqb_eq in Hm. apply Z.ltb_lt in Hp.
  apply orb_true_iff. right. apply Z.leb_le.
  destruct (Z.eq_dec step 1) as [-> | Hne]; [discriminate Hm | lia].
Qed.

Lemma no_evolution_before_exit q step :
  Graph.search_complete q step = false -> Graph.graph_evolves step = false.
Proof.
  intros Hc. destruct (Graph.graph_evolves step) eqn:E; [| reflexivity].
  rewrite (evolving_step_is_complete q step E) in Hc. discriminate Hc.
Qed.





End Cadence.



(** Handed a state at the second step after the first (which the
    routing of the compiled graph never does), the search node stores no
    answer, evolved or not: it returns the completion message after the
    question call, and the graph goes to the final report. *)
Example third_step_stores_nothing :
  let out := Graph.step (Demo.env ["q1"; "q2"; "What about flood risk?"])
                        Graph.search Demo.third_step [] in
  Graph.graph_evolves (Graph.step_count Demo.third_step) = true
  /\ (exists st',
         fst out = World.Ok (Graph.final_report_n, st')
         /\ Graph.search_history st'
            = Graph.search_history Demo.third_step
         /\ Graph.last_message (Graph.messages st') = Graph.complete_message)
  /\ World.count Spec.is_evolution (snd out) = 0
  /\ World.count World.is_web (snd out) = 0.
Proof.
  split; [reflexivity |].
  split; [| split; vm_compute; reflexivity].
  eexists. split; [vm_compute; reflexivity |].
  split; vm_compute; reflexivity.
Qed.

(** In the direct-call variant the first step evolves the answer: the
    stored answer is the merge call's. *)
Example first_step_evolves :
  let out := Agent.search_step (Demo.env ["q1"]) Demo.cfg 0
               (State.new_state "12 Main St" EmptyString) [] in
  World.count Spec.is_evolution (snd out) = 5.
Proof. vm_compute. reflexivity. Qed.

(* ================================================================== *)
(** * Further properties of the code *)
(* ================================================================== *)

(* ------------------------------------------------------------------ *)
(** ** Self-evolution: calls made and value returned *)
(* ------------------------------------------------------------------ *)

Section EvolveAnswer.
Import PyStr World Spec Measure SelfEvolution.
Variable env : Env.

(** The same prompt asked once per element of a list. *)
Lemma map_m_invoke {X} (p : Prompt) (l : list X) : forall log,
  exists ys new,
    map_m (fun _ : X => invoke env p) l log = (Ok ys, (log ++ new)%list)
    /\ List.length ys = List.length l
    /\ List.length new = List.length l
    /\ Forall (fun e => exists r, e = LLM p r) new.
Proof.
  induction l as [| x l IH]; intros log.
  - exists [], []. simpl. rewrite app_nil_r. repeat split; constructor.
  - simpl. unfold bind at 1. unfold invoke at 1.
    set (r := model env log p).
    destruct (IH (log ++ [LLM p r])%list) as [ys [new [E [L1 [L2 F]]]]].
    unfold bind at 1. rewrite E. unfold ret.
    exists (r :: ys), (LLM p r :: new).
    split; [rewrite <- app_assoc; reflexivity |].
    split; [simpl; lia |]. split; [simpl; lia |].
    constructor; [exists r; reflexivity | exact F].
Qed.

Lemma count_forall_true f (new : Log) :
  Forall (fun e => f e = true) new -> count f new = List.length new.
Proof.
  induction 1 as [| e l He _ IH]; [reflexivity |].
  rewrite count_cons, He, IH. reflexivity.
Qed.

Lemma count_forall_false f (new : Log) :
  Forall (fun e => f e = false) new -> count f new = 0.
Proof.
  induction 1 as [| e l He _ IH]; [reflexivity |].
  rewrite count_cons, He, IH. reflexivity.
Qed.

Lemma forall_same_prompt p (new : Log) (P : Event -> Prop) :
  (forall r, P (LLM p r)) ->
  Forall (fun e => exists r, e = LLM p r) new -> Forall P new.
Proof.
  intros HP H. induction H as [| e l [r ->] _ IH]; constructor; auto.
Qed.

(** Every variant is evolved, whatever the model answers. *)
Lemma evolve_all_ok question n (vs : list string) : forall log,
  exists evolved new,
    map_m (fun v => _evolve_variant env question v n) vs log
    = (Ok evolved, (log ++ new)%list)
    /\ List.length evolved = List.length vs.
Proof.
  induction vs as [| v vs IH]; intros log.
  - exists [], []. simpl. rewrite app_nil_r. auto.
  - simpl. unfold bind at 1.
    destruct (evolve_loop_spec env question (range n) v log)
      as [new1 [result [E1 _]]].
    unfold _evolve_variant at 1. rewrite E1.
    destruct (IH (log ++ new1)%list) as [evolved [new2 [E2 L]]].
    unfold bind at 1. rewrite E2. unfold ret.
    exists (result :: evolved), (new1 ++ new2)%list.
    split; [rewrite app_assoc; reflexivity | simpl; lia].
Qed.

Lemma evolve_variant_adds f b question v n :
  (forall c r, f (LLM (Evaluator.answer_prompt question c) r) = b) ->
  (forall c fb r, f (LLM (revise_prompt question c fb) r) = b) ->
  adds_at_most f (Z.to_nat n * ((if b then 1 else 0) + (if b then 1 else 0)))
               (_evolve_variant env question v n).
Proof.
  intros Hj Hr. unfold _evolve_variant.
  rewrite <- length_range.
  apply adds_for_each. intros x s.
  unfold evolve_round, Evaluator.evaluate_answer, _revise_with_feedback.
  apply adds_bind.
  - eapply adds_weaken; [| apply adds_bind; [| intros; apply adds_ret]].
    2: { intros log. eexists. split; [reflexivity |].
         instantiate (1 := if b then 1 else 0).
         unfold count. simpl. rewrite Hj. destruct b; simpl; lia. }
    lia.
  - intros [score fb].
    destruct (PyFloat.geb score 8).
    + eapply adds_weaken; [| apply adds_ret]. lia.
    + eapply adds_weaken; [| apply adds_bind; [| intros; apply adds_ret]].
      2: { intros log. eexists. split; [reflexivity |].
           instantiate (1 := if b then 1 else 0).
           unfold count. simpl. rewrite Hr. destruct b; simpl; lia. }
      lia.
Qed.

Lemma is_judge_or_revise q (e : Event) :
  (exists c r, e = LLM (Evaluator.answer_prompt q c) r)
  \/ (exists c fb r, e = LLM (revise_prompt q c fb) r) ->
  is_variants e = false /\ is_merge e = false /\ is_web e = false
  /\ is_retrieve e = false /\ is_any_llm e = true.
Proof.
  intros [[c [r ->]] | [c [fb [r ->]]]]; repeat split; reflexivity.
Qed.

End EvolveAnswer.

Section EvolveAnswerCalls.
Import PyStr World Spec Measure SelfEvolution.
Variable env : Env.

Lemma judge_evolve_variant q v n :
  adds_at_most is_judge (Z.to_nat n) (_evolve_variant env q v n).
Proof.
  unfold _evolve_variant, evolve_round, Evaluator.evaluate_answer,
    _revise_with_feedback.
  adds_bound. rewrite length_range. lia.
Qed.

Lemma revise_evolve_variant q v n :
  adds_at_most is_revise (Z.to_nat n) (_evolve_variant env q v n).
Proof.
  unfold _evolve_variant, evolve_round, Evaluator.evaluate_answer,
    _revise_with_feedback.
  adds_bound. rewrite length_range. lia.
Qed.

Lemma llm_evolve_variant q v n :
  adds_at_most is_any_llm (Z.to_nat n * 2) (_evolve_variant env q v n).
Proof.
  apply (evolve_variant_adds env is_any_llm true); reflexivity.
Qed.

Lemma other_evolve_variant f q v n :
  f = is_variants \/ f = is_merge \/ f = is_web \/ f = is_retrieve ->
  adds_at_most f 0 (_evolve_variant env q v n).
Proof.
  intros Hf.
  eapply adds_weaken;
    [| apply (evolve_variant_adds env f false);
       destruct Hf as [-> | [-> | [-> | ->]]]; reflexivity].
  lia.
Qed.

(** The events of the second phase of [evolve_answer], counted by [f],
    given a bound per variant. *)
Lemma evolve_all_adds f b q n (vs : list string) log evolved new :
  (forall v, adds_at_most f b (_evolve_variant env q v n)) ->
  map_m (fun v => _evolve_variant env q v n) vs log
  = (Ok evolved, (log ++ new)%list) ->
  count f new <= List.length vs * b.
Proof.
  intros Hb E.
  destruct (adds_map_m f b (fun v => _evolve_variant env q v n) Hb vs log)
    as [new' [E' C]].
  rewrite E in E'. simpl in E'. apply app_inv_head in E'. subst new'.
  exact C.
Qed.

Lemma evolve_answer_spec q a nv ni log :
  exists result new,
    evolve_answer env q a nv ni log = (Ok result, (log ++ new)%list)
    /\ count is_variants new = Z.to_nat nv
    /\ count is_judge new <= Z.to_nat nv * Z.to_nat ni
    /\ count is_revise new <= Z.to_nat nv * Z.to_nat ni
    /\ count is_merge new = 1
    /\ count is_any_llm new <= Z.to_nat nv + Z.to_nat nv * Z.to_nat ni * 2 + 1
    /\ count is_web new = 0
    /\ count is_retrieve new = 0
    /\ exists pre p,
        new = (pre ++ [LLM p result])%list /\ system p = merge_system.
Proof.
  unfold evolve_answer, _generate_variants.
  set (vp := mkPrompt variants_system variants_user
               [("question", q); ("initial_answer", a)]).
  destruct (map_m_invoke env vp (range nv) log)
    as [vs [new1 [E1 [Lvs [Ln1 F1]]]]].
  rewrite length_range in Lvs, Ln1.
  unfold bind at 1. rewrite E1.
  destruct (evolve_all_ok env q ni vs (log ++ new1)%list)
    as [evolved [new2 [E2 _]]].
  unfold bind at 1. rewrite E2.
  unfold _merge_variants, invoke.
  set (mp := mkPrompt merge_system merge_user _).
  set (result := model env ((log ++ new1) ++ new2)%list mp).
  assert (Z0 : forall f,
             f = is_variants \/ f = is_merge \/ f = is_web \/ f = is_retrieve ->
             count f new2 = 0).
  { intros f Hf.
    assert (H : count f new2 <= List.length vs * 0).
    { apply (evolve_all_adds f 0 q ni vs (log ++ new1)%list evolved new2);
        [| exact E2].
      intros v. apply other_evolve_variant. exact Hf. }
    lia. }
  assert (J : count is_judge new2 <= List.length vs * Z.to_nat ni).
  { apply (evolve_all_adds is_judge (Z.to_nat ni) q ni vs
             (log ++ new1)%list evolved new2);
      [intros; apply judge_evolve_variant | exact E2]. }
  assert (R : count is_revise new2 <= List.length vs * Z.to_nat ni).
  { apply (evolve_all_adds is_revise (Z.to_nat ni) q ni vs
             (log ++ new1)%list evolved new2);
      [intros; apply revise_evolve_variant | exact E2]. }
  assert (L : count is_any_llm new2 <= List.length vs * (Z.to_nat ni * 2)).
  { apply (evolve_all_adds is_any_llm (Z.to_nat ni * 2) q ni vs
             (log ++ new1)%list evolved new2);
      [intros; apply llm_evolve_variant | exact E2]. }
  assert (V1 : count is_variants new1 = List.length new1).
  { apply count_forall_true.
    apply (forall_same_prompt vp); [reflexivity | exact F1]. }
  assert (A1 : count is_any_llm new1 = List.length new1).
  { apply count_forall_true.
    apply (forall_same_prompt vp); [reflexivity | exact F1]. }
  assert (O1 : forall f, (forall r, f (LLM vp r) = false) -> count f new1 = 0).
  { intros f Hf. apply count_forall_false.
    apply (forall_same_prompt vp); [exact Hf | exact F1]. }
  exists result, (new1 ++ new2 ++ [LLM mp result])%list.
  split; [rewrite !app_assoc; reflexivity |].
  rewrite !count_app.
  rewrite (Z0 is_variants), (Z0 is_merge), (Z0 is_web), (Z0 is_retrieve)
    by auto.
  rewrite (O1 is_judge), (O1 is_revise), (O1 is_merge), (O1 is_web),
    (O1 is_retrieve) by reflexivity.
  rewrite V1, A1, Ln1, Lvs in *.
  split; [cbn; lia |]. split; [cbn; lia |]. split; [cbn; lia |].
  split; [cbn; lia |]. split; [cbn; nia |]. split; [cbn; lia |].
  split; [cbn; lia |].
  exists (new1 ++ new2)%list, mp.
  split; [rewrite app_assoc; reflexivity | reflexivity].
Qed.

End EvolveAnswerCalls.

(** X1.  [evolve_answer] never raises.  It asks for exactly
    [num_variants] variants (none when the number is zero or negative),
    makes at most [num_variants * num_iterations] judge calls and as many
    revisions, and exactly one merge call, which is its last call and
    whose response is the value returned; it makes no other model call,
    no web search and no retrieval. *)
Theorem evolve_answer_calls (env : World.Env) (question initial_answer : string)
        (num_variants num_iterations : Z) (log : World.Log) :
  exists result new,
    SelfEvolution.evolve_answer env question initial_answer
                                num_variants num_iterations log
    = (World.Ok result, (log ++ new)%list)
    /\ World.count Measure.is_variants new = Z.to_nat num_variants
    /\ World.count Spec.is_judge new
       <= Z.to_nat num_variants * Z.to_nat num_iterations
    /\ World.count Spec.is_revise new
       <= Z.to_nat num_variants * Z.to_nat num_iterations
    /\ World.count Measure.is_merge new = 1
    /\ World.count Measure.is_any_llm new
       <= Z.to_nat num_variants
          + Z.to_nat num_variants * Z.to_nat num_iterations * 2 + 1
    /\ World.count World.is_web new = 0
    /\ World.count Measure.is_retrieve new = 0
    /\ exists pre p,
        new = (pre ++ [World.LLM p result])%list
        /\ World.system p = SelfEvolution.merge_system.
Proof. apply evolve_answer_spec. Qed.

(* ------------------------------------------------------------------ *)
(** ** The evolution loop when no verdict is good enough *)
(* ------------------------------------------------------------------ *)

Section EvolveExhausted.
Import PyStr World Spec Measure SelfEvolution.
Variable env : Env.
Variable question : string.

Lemma evolve_loop_exhausted (l : list Z) : forall current log new result,
  for_each l (evolve_round env question) current log
  = (Ok result, (log ++ new)%list) ->
  no_good_verdict new = true ->
  count is_judge new = List.length l
  /\ count is_revise new = List.length l
  /\ match l with
     | [] => result = current /\ new = []
     | _ => exists pre c fb,
         new = (pre ++ [LLM (revise_prompt question c fb) result])%list
     end.
Proof.
  induction l as [| x l IH]; intros current log new result E Hno.
  - simpl in E. unfold ret in E. inversion E as [[Hr Hl]].
    assert (Hn : new = []).
    { apply (app_inv_head log). rewrite app_nil_r. symmetry. exact Hl. }
    subst new. repeat split; reflexivity.
  - simpl in E. unfold bind at 1 in E. unfold evolve_round at 1 in E.
    unfold Evaluator.evaluate_answer, bind, invoke, ret in E.
    set (r1 := model env log (Evaluator.answer_prompt question current)) in E.
    set (e1 := LLM (Evaluator.answer_prompt question current) r1) in E.
    assert (Hb : good_verdict e1
                 = PyFloat.geb (Evaluator._extract_score r1) 8)
      by reflexivity.
    destruct (PyFloat.geb (Evaluator._extract_score r1) 8) eqn:Hg.
    + inversion E as [[Hr Hl]]. apply app_inv_head in Hl. subst new.
      unfold no_good_verdict in Hno. cbn [forallb] in Hno.
      rewrite Hb in Hno. discriminate Hno.
    + unfold _revise_with_feedback, invoke in E.
      set (fb := Evaluator._extract_feedback r1) in E.
      set (r2 := model env (log ++ [e1])%list
                       (revise_prompt question current fb)) in E.
      set (e2 := LLM (revise_prompt question current fb) r2) in E.
      destruct (evolve_loop_spec env question l r2
                  ((log ++ [e1]) ++ [e2])%list)
        as [new' [result' [E' _]]].
      rewrite E' in E. inversion E as [[Hr Hl]]. subst result'.
      rewrite <- !app_assoc in Hl. apply app_inv_head in Hl.
      simpl in Hl. subst new.
      assert (Hno' : no_good_verdict new' = true).
      { unfold no_good_verdict in *. cbn [forallb] in Hno.
        apply andb_true_iff in Hno. destruct Hno as [_ Hno].
        apply andb_true_iff in Hno. destruct Hno as [_ Hno]. exact Hno. }
      destruct (IH r2 ((log ++ [e1]) ++ [e2])%list new' result E' Hno')
        as [C1 [C2 Hlast]].
      rewrite !(count_cons is_judge), !(count_cons is_revise), C1, C2.
      split; [reflexivity |]. split; [reflexivity |].
      destruct l as [| y l'].
      * destruct Hlast as [-> ->]. exists [e1], current, fb. reflexivity.
      * destruct Hlast as [pre [c [fb' ->]]].
        exists (e1 :: e2 :: pre), c, fb'. reflexivity.
Qed.

End EvolveExhausted.

(** X2.  When no verdict reaches 8.0, [_evolve_variant] runs all of its
    rounds: exactly [num_iterations] judge calls and [num_iterations]
    revisions, and the value returned is the last revision; with a bound
    of zero or less it makes no call and returns the variant it was
    given. *)
Theorem evolve_variant_exhausted (env : World.Env)
        (question variant : string) (num_iterations : Z)
        (log new : World.Log) (result : string) :
  SelfEvolution._evolve_variant env question variant num_iterations log
  = (World.Ok result, (log ++ new)%list) ->
  Measure.no_good_verdict new = true ->
  World.count Spec.is_judge new = Z.to_nat num_iterations
  /\ World.count Spec.is_revise new = Z.to_nat num_iterations
  /\ (if (num_iterations <=? 0)%Z
      then result = variant /\ new = []
      else exists pre c fb,
          new = (pre ++ [World.LLM
                           (SelfEvolution.revise_prompt question c fb)
                           result])%list).
Proof.
  unfold SelfEvolution._evolve_variant. intros E Hno.
  destruct (evolve_loop_exhausted env question (World.range num_iterations)
              variant log new result E Hno) as [C1 [C2 H]].
  rewrite length_range in C1, C2.
  split; [exact C1 |]. split; [exact C2 |].
  destruct (num_iterations <=? 0)%Z eqn:Hn.
  - apply Z.leb_le in Hn.
    assert (Hr : World.range num_iterations = []).
    { unfold World.range. replace (Z.to_nat num_iterations) with 0 by lia.
      reflexivity. }
    rewrite Hr in H. exact H.
  - apply Z.leb_gt in Hn.
    destruct (World.range num_iterations) as [| y l] eqn:Hr; [| exact H].
    apply (f_equal (@List.length Z)) in Hr. rewrite length_range in Hr.
    simpl in Hr. lia.
Qed.

Lemma evolve_variant_exhausted_witness :
  match SelfEvolution._evolve_variant
          (Demo.env_of Demo.plan_text [] "Score: 6")
          "q" "v0" 2 []
  with
  | (World.Ok result, new) =>
      World.count Spec.is_judge new = 2 /\ World.count Spec.is_revise new = 2
  | _ => False
  end.
Proof.
  destruct (SelfEvolution._evolve_variant
              (Demo.env_of Demo.plan_text [] "Score: 6") "q" "v0" 2 [])
    as [[result | e] new] eqn:E.
  - destruct (evolve_variant_exhausted
                (Demo.env_of Demo.plan_text [] "Score: 6") "q" "v0" 2
                [] new result E) as [C1 [C2 _]].
    + vm_compute in E. inversion E. reflexivity.
    + split; [exact C1 | exact C2].
  - vm_compute in E. discriminate E.
Defined.

(* ------------------------------------------------------------------ *)
(** ** The direct-call run: its budget of calls *)
(* ------------------------------------------------------------------ *)

(** A bound for [evolve_answer], by unfolding it down to its calls. *)
Ltac evolve_bound :=
  unfold SelfEvolution.evolve_answer, SelfEvolution._generate_variants,
    SelfEvolution._merge_variants, SelfEvolution._evolve_variant,
    SelfEvolution.evolve_round, SelfEvolution._revise_with_feedback,
    Evaluator.evaluate_answer;
  adds_bound.

Section RunBudget.
Import PyStr World Spec Measure State Agent.
Variable env : Env.

Lemma llm_evolve q a :
  adds_at_most is_any_llm 7 (SelfEvolution.evolve_answer env q a 2 1).
Proof.
  intros log.
  destruct (evolve_answer_spec env q a 2 1 log)
    as [result [new [E [_ [_ [_ [_ [L _]]]]]]]].
  exists new. rewrite E. split; [reflexivity | simpl in L; lia].
Qed.

Lemma retrieve_evolve q a nv ni :
  adds_at_most is_retrieve 0 (SelfEvolution.evolve_answer env q a nv ni).
Proof. evolve_bound. Qed.

Lemma llm_kb_lookup q : adds_at_most is_any_llm 0 (kb_lookup env q).
Proof. unfold kb_lookup. destruct (retriever env); adds_bound. Qed.

Lemma retrieve_kb_lookup q : adds_at_most is_retrieve 1 (kb_lookup env q).
Proof.
  unfold kb_lookup. destruct (retriever env) as [f |].
  - eapply adds_weaken;
      [| apply (adds_bind is_retrieve 1 0); [| intros; apply adds_ret]].
    + lia.
    + intros log. eexists. split; [reflexivity | apply count_one_le].
  - eapply adds_weaken; [| apply adds_ret]. lia.
Qed.

Hint Resolve llm_evolve retrieve_evolve llm_kb_lookup retrieve_kb_lookup
  web_evolve web_kb_lookup web_generate_plan : adds.

Lemma llm_search_step cfg step st :
  adds_at_most is_any_llm 10 (search_step env cfg step st).
Proof.
  unfold search_step, _generate_search_question, _search_and_answer,
    store_and_denoise, add_search_result, _denoise_draft.
  adds_bound.
Qed.

Lemma retrieve_search_step cfg step st :
  adds_at_most is_retrieve 1 (search_step env cfg step st).
Proof.
  unfold search_step, _generate_search_question, _search_and_answer,
    store_and_denoise, add_search_result, _denoise_draft.
  adds_bound.
Qed.

Hint Resolve llm_search_step retrieve_search_step web_search_step : adds.

Ltac run_bound :=
  unfold run, Planner.generate_plan, _generate_initial_draft,
    _generate_final_report, _iterative_search_and_refine;
  eapply adds_weaken; [| adds_exact]; rewrite length_range; simpl; lia.

Lemma llm_run cfg address brief :
  adds_at_most is_any_llm (3 + 10 * Z.to_nat (max_search_steps cfg))
               (run env cfg address brief).
Proof. run_bound. Qed.

Lemma web_run cfg address brief :
  adds_at_most is_web (Z.to_nat (max_search_steps cfg))
               (run env cfg address brief).
Proof. run_bound. Qed.

Lemma retrieve_run cfg address brief :
  adds_at_most is_retrieve (Z.to_nat (max_search_steps cfg))
               (run env cfg address brief).
Proof. run_bound. Qed.

End RunBudget.

(** X3.  A run of the direct-call agent with step budget [N], whether it
    ends or raises, makes at most [3 + 10 * N] model calls (the plan, the
    initial draft and the final report, and per step the question, the
    synthesis, up to seven calls of self-evolution and the denoising), at
    most [N] web searches and at most [N] retrievals. *)
Theorem run_call_budget (env : World.Env) (cfg : Agent.Config)
        (address brief : string) (log : World.Log) :
  exists new,
    snd (Agent.run env cfg address brief log) = (log ++ new)%list
    /\ World.count Measure.is_any_llm new
       <= 3 + 10 * Z.to_nat (Agent.max_search_steps cfg)
    /\ World.count World.is_web new <= Z.to_nat (Agent.max_search_steps cfg)
    /\ World.count Measure.is_retrieve new
       <= Z.to_nat (Agent.max_search_steps cfg).
Proof.
  destruct (llm_run env cfg address brief log) as [n1 [E1 C1]].
  destruct (web_run env cfg address brief log) as [n2 [E2 C2]].
  destruct (retrieve_run env cfg address brief log) as [n3 [E3 C3]].
  rewrite E1 in E2, E3.
  apply app_inv_head in E2. apply app_inv_head in E3. subst n2 n3.
  exists n1. auto.
Qed.

(* ------------------------------------------------------------------ *)
(** ** The direct-call run: its stages, and the two feature switches *)
(* ------------------------------------------------------------------ *)

Section RunStages.
Import PyStr World Spec Measure State Agent.
Variable env : Env.

Lemma final_evolve q a nv ni :
  adds_at_most is_final 0 (SelfEvolution.evolve_answer env q a nv ni).
Proof. evolve_bound. Qed.

Lemma final_kb_lookup q : adds_at_most is_final 0 (kb_lookup env q).
Proof. unfold kb_lookup. destruct (retriever env); adds_bound. Qed.

Hint Resolve final_evolve final_kb_lookup : adds.

Lemma final_search_step cfg step st :
  adds_at_most is_final 0 (search_step env cfg step st).
Proof.
  unfold search_step, _generate_search_question, _search_and_answer,
    store_and_denoise, add_search_result, _denoise_draft, synth_prompt.
  adds_bound.
Qed.

(** The stages of a run that does not raise. *)
Lemma run_inv cfg address brief log st log' :
  run env cfg address brief log = (Ok st, log') ->
  exists plan st0 st1 pre new,
    (st0 = set_plan (new_state address brief) plan
     \/ exists d, st0 = set_draft_report
                          (set_plan (new_state address brief) plan) d)
    /\ (use_diffusion cfg = false ->
        st0 = set_plan (new_state address brief) plan)
    /\ Forall (fun e => exists p r,
                   e = LLM p r
                   /\ (system p = Planner.planner_system
                       \/ system p = draft_system)) pre
    /\ _iterative_search_and_refine env cfg st0 (log ++ pre)%list
       = (Ok st1, ((log ++ pre) ++ new)%list)
    /\ count is_final new = 0
    /\ st = set_final_report st1
              (model env ((log ++ pre) ++ new)%list
                 (mkPrompt final_system final_user
                    [("address", query st1);
                     ("brief", brief_or_default (State.brief st1));
                     ("research", qa_text (search_history st1));
                     ("draft", if use_diffusion cfg then draft_report st1
                               else EmptyString)]))
    /\ log' = (((log ++ pre) ++ new)
                 ++ [LLM (mkPrompt final_system final_user
                            [("address", query st1);
                             ("brief", brief_or_default (State.brief st1));
                             ("research", qa_text (search_history st1));
                             ("draft", if use_diffusion cfg
                                       then draft_report st1
                                       else EmptyString)])
                         (final_report st)])%list.
Proof.
  unfold run, Planner.generate_plan, _generate_initial_draft,
    _generate_final_report.
  unfold bind at 1 2 3 4. unfold invoke at 1. unfold lift at 1 2.
  set (e0 := LLM (Planner.planner_prompt address brief) _).
  destruct (Planner.plan_of_content env address _) as [plan |];
    [| discriminate].
  destruct (count_sections plan) as [n |]; [| discriminate].
  unfold bind at 1.
  set (stp := set_plan (new_state address brief) plan).
  assert (Hloop : forall s l1 stl ll,
             _iterative_search_and_refine env cfg s l1 = (Ok stl, ll) ->
             exists new, ll = (l1 ++ new)%list /\ count is_final new = 0).
  { intros s l1 stl ll Hl.
    assert (Ha : adds_at_most is_final 0
                   (_iterative_search_and_refine env cfg s)).
    { unfold _iterative_search_and_refine. apply adds_for_each_zero.
      intros. apply final_search_step. }
    destruct (Ha l1) as [new [E C]]. rewrite Hl in E. simpl in E.
    exists new. split; [exact E | lia]. }
  destruct (use_diffusion cfg) eqn:Hd.
  - unfold bind at 1 2. unfold lift.
    destruct (initial_draft_vars env stp) as [vars |]; [| discriminate].
    unfold invoke at 1. unfold ret at 1.
    set (e1 := LLM (mkPrompt draft_system draft_user vars) _).
    unfold bind at 1.
    destruct (_iterative_search_and_refine env cfg _ _)
      as [[stl | e] ll] eqn:Hl; [| discriminate].
    destruct (Hloop _ _ _ _ Hl) as [new [E C]]. subst ll.
    unfold bind, invoke, ret. intros H. inversion H; subst st log'.
    exists plan, (set_draft_report stp (model env (log ++ [e0])%list
                    (mkPrompt draft_system draft_user vars))),
      stl, [e0; e1], new.
    assert (Hpre : (log ++ [e0; e1])%list = ((log ++ [e0]) ++ [e1])%list)
      by (rewrite <- app_assoc; reflexivity).
    rewrite Hpre.
    split; [right; eexists; reflexivity |].
    split; [discriminate |].
    split.
    { apply Forall_cons;
        [eexists _, _; split; [reflexivity | left; reflexivity] |].
      apply Forall_cons;
        [eexists _, _; split; [reflexivity | right; reflexivity] |].
      apply Forall_nil. }
    split; [exact Hl |].
    split; [exact C |].
    split; reflexivity.
  - unfold ret at 1. unfold bind at 1.
    destruct (_iterative_search_and_refine env cfg _ _)
      as [[stl | e] ll] eqn:Hl; [| discriminate].
    destruct (Hloop _ _ _ _ Hl) as [new [E C]]. subst ll.
    unfold bind, invoke, ret. intros H. inversion H; subst st log'.
    exists plan, stp, stl, [e0], new.
    split; [left; reflexivity |].
    split; [reflexivity |].
    split.
    { apply Forall_cons;
        [eexists _, _; split; [reflexivity | left; reflexivity] |].
      apply Forall_nil. }
    split; [exact Hl |].
    split; [exact C |].
    split; reflexivity.
Qed.

(** The calls made before the loop are the planner's and the initial
    draft's. *)
Lemma count_before_loop f (pre : Log) :
  (forall p r, system p = Planner.planner_system -> f (LLM p r) = false) ->
  (forall p r, system p = draft_system -> f (LLM p r) = false) ->
  Forall (fun e => exists p r,
              e = LLM p r
              /\ (system p = Planner.planner_system
                  \/ system p = draft_system)) pre ->
  count f pre = 0.
Proof.
  intros Hp Hd H. induction H as [| e l [p [r [-> Hs]]] _ IH];
    [reflexivity |].
  rewrite count_cons, IH.
  destruct Hs as [Hs | Hs]; [rewrite (Hp p r Hs) | rewrite (Hd p r Hs)];
    reflexivity.
Qed.

End RunStages.

Section RunSwitches.
Import PyStr World Spec Measure State Agent.
Variable env : Env.

Lemma for_each_preserves {X S} (I : S -> Prop)
      (body : X -> S -> M (control S)) :
  (forall x s log c log',
      I s -> body x s log = (Ok c, log') ->
      I (match c with Continue s' => s' | Break s' => s' end)) ->
  forall l s log s' log',
    I s -> for_each l body s log = (Ok s', log') -> I s'.
Proof.
  intros Hb l. induction l as [| x l IH]; intros s log s' log' Hs H.
  - simpl in H. inversion H; subst. exact Hs.
  - simpl in H. unfold bind at 1 in H.
    destruct (body x s log) as [[c | e] l1] eqn:E; [| discriminate].
    specialize (Hb x s log c l1 Hs E).
    destruct c as [s1 | s1]; simpl in Hb.
    + exact (IH s1 l1 s' log' Hb H).
    + unfold ret in H. inversion H; subst. exact Hb.
Qed.

(** What an iteration does to the state is done by its last part. *)
Lemma search_step_state cfg step st log c log' :
  search_step env cfg step st log = (Ok c, log') ->
  c = Break st
  \/ exists q a log0,
      store_and_denoise env cfg st q a log0 = (Ok c, log').
Proof.
  unfold search_step. unfold bind at 1.
  destruct (_generate_search_question env st log) as [[q | e] l1];
    [| discriminate].
  destruct (is_done q).
  - unfold ret. intros H. inversion H. left. reflexivity.
  - unfold bind at 1.
    destruct (_search_and_answer env q st l1) as [[a | e] l2];
      [| discriminate].
    unfold bind at 1.
    match goal with
    | |- context [match ?c l2 with (_, _) => _ end] =>
        destruct (c l2) as [[a' | e] l3]; [| discriminate]
    end.
    intros H. right. exists q, a', l3. exact H.
Qed.

Lemma store_without_diffusion cfg st q a log c log' :
  use_diffusion cfg = false ->
  store_and_denoise env cfg st q a log = (Ok c, log') ->
  exists s, c = Continue s
            /\ draft_report s = draft_report st
            /\ revision_count s = revision_count st.
Proof.
  intros Hd. unfold store_and_denoise, add_search_result, bind, clock, ret.
  rewrite Hd. intros H. inversion H. eexists. split; [reflexivity |].
  split; reflexivity.
Qed.

Lemma loop_without_diffusion cfg st log st' log' :
  use_diffusion cfg = false ->
  _iterative_search_and_refine env cfg st log = (Ok st', log') ->
  draft_report st' = draft_report st
  /\ revision_count st' = revision_count st.
Proof.
  intros Hd. unfold _iterative_search_and_refine.
  apply (for_each_preserves
           (fun s => draft_report s = draft_report st
                     /\ revision_count s = revision_count st)).
  - intros x s l c l' [H1 H2] E.
    apply search_step_state in E. destruct E as [-> | [q [a [l0 E]]]].
    + auto.
    + apply (store_without_diffusion cfg s q a l0 c l' Hd) in E.
      destruct E as [s' [-> [E1 E2]]]. split; congruence.
  - auto.
Qed.

Lemma denoise_evolve q a nv ni :
  adds_at_most is_denoise 0 (SelfEvolution.evolve_answer env q a nv ni).
Proof. evolve_bound. Qed.

Lemma denoise_kb_lookup q : adds_at_most is_denoise 0 (kb_lookup env q).
Proof. unfold kb_lookup. destruct (retriever env); adds_bound. Qed.

Lemma draft_kb_lookup q : adds_at_most is_initial_draft 0 (kb_lookup env q).
Proof. unfold kb_lookup. destruct (retriever env); adds_bound. Qed.

Lemma evolution_kb q : adds_at_most is_evolution 0 (kb_lookup env q).
Proof. unfold kb_lookup. destruct (retriever env); adds_bound. Qed.

Hint Resolve denoise_evolve denoise_kb_lookup draft_kb_lookup draft_evolve
  evolution_kb : adds.

Lemma denoise_step_off cfg step st :
  use_diffusion cfg = false ->
  adds_at_most is_denoise 0 (search_step env cfg step st).
Proof.
  intros Hd.
  unfold search_step, _generate_search_question, _search_and_answer,
    store_and_denoise, add_search_result, synth_prompt.
  rewrite Hd. cbv iota. adds_bound.
Qed.

Lemma draft_step cfg step st :
  adds_at_most is_initial_draft 0 (search_step env cfg step st).
Proof.
  unfold search_step, _generate_search_question, _search_and_answer,
    store_and_denoise, add_search_result, _denoise_draft, synth_prompt.
  adds_bound.
Qed.

Lemma evolution_step_off cfg step st :
  use_self_evolution cfg = false ->
  adds_at_most is_evolution 0 (search_step env cfg step st).
Proof.
  intros He.
  unfold search_step, evolves, _generate_search_question,
    _search_and_answer, store_and_denoise, add_search_result,
    _denoise_draft, synth_prompt.
  rewrite He. cbn [andb]. cbv iota. adds_bound.
Qed.

Lemma run_diffusion_off_calls cfg address brief f :
  use_diffusion cfg = false ->
  f = is_denoise \/ f = is_initial_draft ->
  adds_at_most f 0 (run env cfg address brief).
Proof.
  intros Hd Hf.
  unfold run, Planner.generate_plan, _generate_final_report,
    _iterative_search_and_refine.
  rewrite Hd. cbv iota.
  apply (adds_bind f 0 0);
    [destruct Hf as [-> | ->]; adds_bound |].
  intros plan. apply (adds_bind f 0 0); [apply adds_lift |].
  intros _. apply (adds_bind f 0 0); [apply adds_ret |].
  intros st. apply (adds_bind f 0 0).
  - apply adds_for_each_zero. intros x s.
    destruct Hf as [-> | ->];
      [apply denoise_step_off; exact Hd | apply draft_step].
  - intros st'. apply (adds_bind f 0 0); [| intros; apply adds_ret].
    destruct Hf as [-> | ->]; adds_bound.
Qed.

Lemma run_evolution_off cfg address brief :
  use_self_evolution cfg = false ->
  adds_at_most is_evolution 0 (run env cfg address brief).
Proof.
  intros He.
  unfold run, Planner.generate_plan, _generate_initial_draft,
    _generate_final_report, _iterative_search_and_refine.
  apply (adds_bind is_evolution 0 0); [adds_bound |].
  intros plan. apply (adds_bind is_evolution 0 0); [apply adds_lift |].
  intros _. apply (adds_bind is_evolution 0 0).
  { destruct (use_diffusion cfg); adds_bound. }
  intros st. apply (adds_bind is_evolution 0 0).
  - apply adds_for_each_zero. intros x s.
    apply evolution_step_off. exact He.
  - intros st'. apply (adds_bind is_evolution 0 0);
      [adds_bound | intros; apply adds_ret].
Qed.

End RunSwitches.

(** X4.  In a run that does not raise, the final report is written once:
    the call that produces it is the last call of the run, no earlier
    call uses the final-report prompt, and it is given the address, the
    brief (or its default), the whole search history, untruncated, and
    the draft (empty when denoising is off); [final_report] is its
    response. *)
Theorem final_report_written_once (env : World.Env) (cfg : Agent.Config)
        (address brief : string) (log : World.Log)
        (st : State.AgentState) (log' : World.Log) :
  Agent.run env cfg address brief log = (World.Ok st, log') ->
  exists pre,
    log' = (log ++ pre
                ++ [World.LLM
                      (World.mkPrompt Agent.final_system Agent.final_user
                         [("address", address);
                          ("brief", Agent.brief_or_default brief);
                          ("research",
                           Agent.qa_text (State.search_history st));
                          ("draft", if Agent.use_diffusion cfg
                                    then State.draft_report st
                                    else EmptyString)])
                      (State.final_report st)])%list
    /\ World.count Measure.is_final pre = 0.
Proof.
  intros H. apply run_inv in H.
  destruct H as [plan [st0 [st1 [pre [new [Hst0 [_ [C0 [Hl [C1 [Hst ->]]]]]]]]]]].
  apply (count_before_loop Measure.is_final) in C0;
    [| intros p r Hs; unfold Measure.is_final, World.is_llm; rewrite Hs;
       reflexivity ..].
  unfold Agent._iterative_search_and_refine in Hl.
  apply loop_effect in Hl.
  destruct Hl as [_ [_ [_ [_ [_ [_ [_ [_ [Hq [Hb _]]]]]]]]]].
  assert (Hq0 : State.query st0 = address)
    by (destruct Hst0 as [-> | [d ->]]; reflexivity).
  assert (Hb0 : State.brief st0 = brief)
    by (destruct Hst0 as [-> | [d ->]]; reflexivity).
  exists (pre ++ new)%list. split.
  - rewrite Hst. simpl. rewrite Hq, Hb, Hq0, Hb0.
    rewrite <- !app_assoc. reflexivity.
  - rewrite count_app. lia.
Qed.

Lemma final_report_written_once_witness :
  match Agent.run (Demo.env ["q1"; "q2"]) Demo.cfg "12 Main St" EmptyString []
  with
  | (World.Ok st, log') =>
      exists pre p,
        log' = (pre ++ [World.LLM p (State.final_report st)])%list
        /\ World.count Measure.is_final pre = 0
  | (World.Raise _, _) => False
  end.
Proof.
  destruct (Agent.run (Demo.env ["q1"; "q2"]) Demo.cfg "12 Main St"
                      EmptyString []) as [[st | e] log'] eqn:E.
  - destruct (final_report_written_once _ _ _ _ _ _ _ E) as [pre [-> C]].
    eexists pre, _. split; [reflexivity | exact C].
  - vm_compute in E. discriminate E.
Defined.

(** X5.  With denoising switched off ([use_diffusion] false) a run makes
    no initial-draft call and no denoising call, and when it ends the
    draft is still empty and [revision_count] is still 0. *)
Theorem diffusion_off_leaves_draft_empty (env : World.Env)
        (cfg : Agent.Config) (address brief : string) (log : World.Log) :
  Agent.use_diffusion cfg = false ->
  (exists new,
      snd (Agent.run env cfg address brief log) = (log ++ new)%list
      /\ World.count Spec.is_initial_draft new = 0
      /\ World.count Measure.is_denoise new = 0)
  /\ (forall st,
         fst (Agent.run env cfg address brief log) = World.Ok st ->
         State.draft_report st = EmptyString
         /\ State.revision_count st = 0%Z).
Proof.
  intros Hd. split.
  - destruct (run_diffusion_off_calls env cfg address brief
                Spec.is_initial_draft Hd (or_intror eq_refl) log)
      as [n1 [E1 C1]].
    destruct (run_diffusion_off_calls env cfg address brief
                Measure.is_denoise Hd (or_introl eq_refl) log)
      as [n2 [E2 C2]].
    rewrite E1 in E2. apply app_inv_head in E2. subst n2.
    exists n1. repeat split; [exact E1 | lia | lia].
  - intros st Hr.
    destruct (Agent.run env cfg address brief log) as [r log'] eqn:E.
    simpl in Hr. subst r. apply run_inv in E.
    destruct E as [plan [st0 [st1 [pre [new [_ [Hst0 [_ [Hl [_ [Hst _]]]]]]]]]]].
    apply (loop_without_diffusion env cfg _ _ _ _ Hd) in Hl.
    destruct Hl as [H1 H2]. rewrite (Hst0 Hd) in H1, H2.
    rewrite Hst. simpl. auto.
Qed.

Lemma diffusion_off_leaves_draft_empty_witness :
  match fst (Agent.run (Demo.env ["q1"; "q2"]) Demo2.no_diffusion
                       "12 Main St" EmptyString []) with
  | World.Ok st =>
      State.draft_report st = EmptyString /\ State.revision_count st = 0%Z
  | World.Raise _ => False
  end.
Proof.
  destruct (fst (Agent.run (Demo.env ["q1"; "q2"]) Demo2.no_diffusion
                           "12 Main St" EmptyString [])) as [st | e] eqn:E.
  - exact (proj2 (diffusion_off_leaves_draft_empty
                    (Demo.env ["q1"; "q2"]) Demo2.no_diffusion
                    "12 Main St" EmptyString [] eq_refl) st E).
  - vm_compute in E. discriminate E.
Defined.

(** X6.  With self-evolution switched off ([use_self_evolution] false) a
    run makes no variant, judge, revision or merge call at all, whatever
    the step. *)
Theorem evolution_off_never_evolves (env : World.Env) (cfg : Agent.Config)
        (address brief : string) (log : World.Log) :
  Agent.use_self_evolution cfg = false ->
  exists new,
    snd (Agent.run env cfg address brief log) = (log ++ new)%list
    /\ World.count Spec.is_evolution new = 0.
Proof.
  intros He.
  destruct (run_evolution_off env cfg address brief He log) as [new [E C]].
  exists new. split; [exact E | lia].
Qed.

Lemma evolution_off_never_evolves_witness :
  World.count Spec.is_evolution
    (snd (Agent.run (Demo.env ["q1"; "q2"]) Demo2.no_evolution
                    "12 Main St" EmptyString [])) = 0.
Proof.
  destruct (evolution_off_never_evolves
              (Demo.env ["q1"; "q2"]) Demo2.no_evolution
              "12 Main St" EmptyString [] eq_refl) as [new [E C]].
  rewrite E. exact C.
Defined.

Section RunCompletes.
Import PyStr World Spec Measure PyJson State Agent.
Variable env : Env.

Lemma format_plan_sections plan text :
  _format_plan env plan = Ok text -> exists n, count_sections plan = Ok n.
Proof.
  unfold _format_plan, count_sections, rbind.
  destruct (dict_get plan "sections" (JArr [])) as [s | e]; [| discriminate].
  destruct s; simpl; try discriminate; eauto.
Qed.

Lemma search_step_ok cfg step st log text :
  _format_plan env (plan st) = Ok text ->
  exists c log',
    search_step env cfg step st log = (Ok c, log')
    /\ plan (match c with Continue s => s | Break s => s end) = plan st.
Proof.
  intros Hp.
  unfold search_step, _generate_search_question, question_vars.
  rewrite Hp. unfold bind at 1 2 3. unfold lift, rbind, invoke at 1, ret at 1.
  match goal with
  | |- context [is_done ?q] => set (question := q); destruct (is_done question)
  end.
  - eexists _, _. split; reflexivity.
  - unfold bind at 1.
    match goal with
    | |- context [_search_and_answer env question st ?l] =>
        destruct (search_and_answer_log env question st l)
          as [kb [answer [E _]]]
    end.
    rewrite E.
    unfold bind at 1.
    set (log2 := (_ ++ _)%list).
    assert (Ha : exists a l3,
               (if evolves cfg step
                then SelfEvolution.evolve_answer env question answer 2 1
                else ret answer) log2 = (Ok a, l3)).
    { destruct (evolves cfg step).
      - destruct (evolve_answer_spec env question answer 2 1 log2)
          as [r [new [Er _]]].
        eauto.
      - unfold ret. eauto. }
    destruct Ha as [a [l3 Ha]]. rewrite Ha.
    destruct (store_and_denoise_effect env cfg st question a l3)
      as [s [r [tail [Es [_ [_ [_ [_ [_ [_ [_ [_ [P _]]]]]]]]]]]]].
    rewrite Es. eexists _, _. split; [reflexivity | exact P].
Qed.

Lemma loop_ok cfg text (l : list Z) : forall st log,
  _format_plan env (plan st) = Ok text ->
  exists st' log',
    for_each l (search_step env cfg) st log = (Ok st', log')
    /\ plan st' = plan st.
Proof.
  induction l as [| x l IH]; intros st log Hp.
  - simpl. unfold ret. eauto.
  - simpl. unfold bind at 1.
    destruct (search_step_ok cfg x st log text Hp) as [c [l1 [E P]]].
    rewrite E. destruct c as [s | s]; simpl in P.
    + destruct (IH s l1) as [st' [log' [E' P']]]; [rewrite P; exact Hp |].
      exists st', log'. split; [exact E' | congruence].
    + unfold ret. eauto.
Qed.

Lemma run_ok cfg address brief log plan text :
  fst (Planner.generate_plan env address brief log) = Ok plan ->
  _format_plan env plan = Ok text ->
  exists st, fst (run env cfg address brief log) = Ok st
             /\ State.plan st = plan.
Proof.
  intros Hg Hp.
  destruct (format_plan_sections plan text Hp) as [n Hn].
  unfold run. unfold bind at 1.
  destruct (Planner.generate_plan env address brief log) as [[p | e] l1];
    simpl in Hg; [| discriminate].
  inversion Hg; subst p.
  unfold bind at 1. unfold lift at 1. rewrite Hn.
  unfold bind at 1.
  set (st0 := set_plan (new_state address brief) plan).
  assert (H0 : exists s l2,
             (if use_diffusion cfg
              then (d <- _generate_initial_draft env st0 ;;
                    ret (set_draft_report st0 d))%m
              else ret st0) l1 = (Ok s, l2)
             /\ State.plan s = plan).
  { destruct (use_diffusion cfg).
    - unfold _generate_initial_draft, initial_draft_vars, bind, lift, rbind,
        invoke, ret.
      simpl. rewrite Hp. eexists _, _. split; reflexivity.
    - unfold ret. eexists _, _. split; reflexivity. }
  destruct H0 as [s [l2 [E0 P0]]]. rewrite E0.
  unfold bind at 1. unfold _iterative_search_and_refine.
  destruct (loop_ok cfg text (range (max_search_steps cfg)) s l2)
    as [st' [l3 [El Pl]]]; [rewrite P0; exact Hp |].
  rewrite El.
  unfold bind, _generate_final_report, invoke, ret. simpl.
  eexists. split; [reflexivity |]. simpl. congruence.
Qed.

Lemma format_default_plan q :
  _format_plan env (Planner.default_plan q)
  = Ok ("1. General Research" ++ nl ++ "   - " ++ q).
Proof. reflexivity. Qed.

Lemma run_raises_at_sections cfg address brief log plan e :
  fst (Planner.generate_plan env address brief log) = Ok plan ->
  count_sections plan = Raise e ->
  run env cfg address brief log
  = (Raise e,
     (log ++ [LLM (Planner.planner_prompt address brief)
                  (model env log (Planner.planner_prompt address brief))])%list).
Proof.
  rewrite generate_plan_call. simpl. intros Hg Hn.
  unfold run. unfold bind at 1. rewrite generate_plan_call, Hg.
  unfold bind at 1. unfold lift at 1. rewrite Hn. reflexivity.
Qed.

End RunCompletes.

(** X7.  A run raises only over the plan.  When the planner returns a
    plan and [_format_plan] can render it, the run completes, whatever
    the model, the search tool and the retriever answer afterwards, and
    the state it returns carries that plan. *)
Theorem run_completes_on_well_formed_plan (env : World.Env)
        (cfg : Agent.Config) (address brief : string) (log : World.Log)
        (plan : Json.json) (text : string) :
  fst (Planner.generate_plan env address brief log) = World.Ok plan ->
  Agent._format_plan env plan = World.Ok text ->
  exists st,
    fst (Agent.run env cfg address brief log) = World.Ok st
    /\ State.plan st = plan.
Proof. apply run_ok. Qed.

Lemma run_completes_on_well_formed_plan_witness :
  exists st,
    fst (Agent.run (Demo.env ["q1"; "q2"]) Demo.cfg "12 Main St"
                   EmptyString []) = World.Ok st.
Proof.
  destruct (run_completes_on_well_formed_plan
              (Demo.env ["q1"; "q2"]) Demo.cfg "12 Main St" EmptyString []
              (Json.JObj
                 [("sections",
                   Json.JArr
                     [Json.JObj
                        [("title", Json.JStr "Zoning");
                         ("questions",
                          Json.JArr [Json.JStr "What is the zoning?"])]])])
              ("1. Zoning" ++ nl ++ "   - What is the zoning?"))
    as [st [E _]].
  - vm_compute. reflexivity.
  - vm_compute. reflexivity.
  - exists st. exact E.
Defined.

(** X8.  The planner's fallback is safe: when the model's plan text is
    not JSON and holds no brace pair, the run completes on the default
    plan, whose only question is the address. *)
Theorem run_completes_on_fallback_plan (env : World.Env)
        (cfg : Agent.Config) (address brief : string) (log : World.Log) :
  let content :=
    World.model env log (Planner.planner_prompt address brief) in
  World.json_loads env content = None ->
  Spec.braces_found content = false ->
  exists st,
    fst (Agent.run env cfg address brief log) = World.Ok st
    /\ State.plan st = Planner.default_plan address.
Proof.
  intros content Hj Hb.
  apply (run_ok env cfg address brief log (Planner.default_plan address)
           ("1. General Research" ++ nl ++ "   - " ++ address)).
  - rewrite generate_plan_call. simpl.
    apply plan_of_no_braces; assumption.
  - apply format_default_plan.
Qed.

Lemma run_completes_on_fallback_plan_witness :
  exists st,
    fst (Agent.run (Demo.env_of "no plan today" ["q1"] "Score: 9")
                   Demo.cfg "12 Main St" EmptyString []) = World.Ok st
    /\ State.plan st = Planner.default_plan "12 Main St".
Proof.
  apply (run_completes_on_fallback_plan
           (Demo.env_of "no plan today" ["q1"] "Score: 9")
           Demo.cfg "12 Main St" EmptyString []).
  - vm_compute. reflexivity.
  - vm_compute. reflexivity.
Defined.

(** X9.  A plan of the wrong shape stops the run at once.  When the
    decoded plan is not a JSON object, [state.plan.get] raises
    [AttributeError]; when it is an object whose [sections] entry is a
    number, a boolean or null, [len] raises [TypeError].  In both cases
    the planner call is the only call made: no draft, no search, no
    report. *)
Theorem run_raises_on_misshapen_plan (env : World.Env)
        (cfg : Agent.Config) (address brief : string) (log : World.Log)
        (plan : Json.json) :
  fst (Planner.generate_plan env address brief log) = World.Ok plan ->
  let planner_call :=
    World.LLM (Planner.planner_prompt address brief)
              (World.model env log (Planner.planner_prompt address brief)) in
  (match plan with Json.JObj _ => False | _ => True end ->
   Agent.run env cfg address brief log
   = (World.Raise World.AttributeError, (log ++ [planner_call])%list))
  /\ (forall kvs v,
         plan = Json.JObj kvs ->
         Json.assoc_last "sections" kvs = Some v ->
         match v with
         | Json.JArr _ | Json.JStr _ | Json.JObj _ => False
         | _ => True
         end ->
         Agent.run env cfg address brief log
         = (World.Raise World.TypeError, (log ++ [planner_call])%list)).
Proof.
  intros Hg planner_call. split.
  - intros Hs.
    apply (run_raises_at_sections env cfg address brief log plan);
      [exact Hg |].
    destruct plan; try reflexivity. contradiction.
  - intros kvs v -> Hv Hk.
    apply (run_raises_at_sections env cfg address brief log (Json.JObj kvs));
      [exact Hg |].
    unfold Agent.count_sections, PyJson.dict_get, PyJson.rbind.
    rewrite Hv. destruct v; try reflexivity; contradiction.
Qed.

Lemma run_raises_on_misshapen_plan_witness :
  fst (Agent.run (Demo.env_of "[1, 2]" ["q1"] "Score: 9")
                 Demo.cfg "12 Main St" EmptyString [])
  = World.Raise World.AttributeError.
Proof.
  destruct (run_raises_on_misshapen_plan
              (Demo.env_of "[1, 2]" ["q1"] "Score: 9")
              Demo.cfg "12 Main St" EmptyString []
              (Json.JArr [Json.JNum "1"; Json.JNum "2"]))
    as [H _].
  - vm_compute. reflexivity.
  - rewrite (H I). reflexivity.
Defined.

Section StripFacts.
Import PyStr Measure.

Lemma lstrip_all_space pre s :
  all_space pre = true -> lstrip (pre ++ s) = lstrip s.
Proof.
  induction pre as [| c pre IH]; simpl; intros H; [reflexivity |].
  apply andb_true_iff in H. destruct H as [Hc Hp]. rewrite Hc. auto.
Qed.

Lemma rstrip_all_space post :
  all_space post = true -> rstrip post = EmptyString.
Proof.
  induction post as [| c post IH]; simpl; intros H; [reflexivity |].
  apply andb_true_iff in H. destruct H as [Hc Hp].
  rewrite (IH Hp), Hc. reflexivity.
Qed.

Lemma rstrip_app_space s post :
  all_space post = true -> rstrip (s ++ post) = rstrip s.
Proof.
  intros H. induction s as [| c s IH]; simpl.
  - apply rstrip_all_space. exact H.
  - rewrite IH. reflexivity.
Qed.

Lemma lstrip_decompose s :
  exists pre, s = pre ++ lstrip s /\ all_space pre = true.
Proof.
  induction s as [| c s [pre [E H]]]; simpl.
  - exists EmptyString. auto.
  - destruct (is_space c) eqn:Hc.
    + exists (String c pre). simpl. rewrite Hc, H. split; [congruence | auto].
    + exists EmptyString. auto.
Qed.

Lemma rstrip_decompose s :
  exists post, s = rstrip s ++ post /\ all_space post = true.
Proof.
  induction s as [| c s [post [E H]]]; simpl.
  - exists EmptyString. auto.
  - destruct (rstrip s) as [| a r] eqn:Er.
    + simpl in E. subst post. destruct (is_space c) eqn:Hc.
      * exists (String c s). simpl. rewrite Hc, H. auto.
      * exists s. auto.
    + exists post. simpl. split; [| exact H]. f_equal. exact E.
Qed.

(** A string that is empty or starts with a character that is not
    white space is left alone by [lstrip]. *)
Lemma lstrip_clean s :
  match s with
  | EmptyString => True
  | String c _ => is_space c = false
  end -> lstrip s = s.
Proof. destruct s as [| c s]; simpl; [auto | intros ->; reflexivity]. Qed.

Lemma lstrip_head s :
  match lstrip s with
  | EmptyString => True
  | String c _ => is_space c = false
  end.
Proof.
  induction s as [| c s IH]; simpl; [exact I |].
  destruct (is_space c) eqn:Hc; [exact IH | exact Hc].
Qed.

Lemma rstrip_head s :
  match s with
  | EmptyString => True
  | String c _ => is_space c = false
  end ->
  match rstrip s with
  | EmptyString => True
  | String c _ => is_space c = false
  end.
Proof.
  destruct s as [| c s]; simpl; [auto |].
  intros Hc. destruct (rstrip s); [rewrite Hc |]; exact Hc.
Qed.

Lemma rstrip_idem s : rstrip (rstrip s) = rstrip s.
Proof.
  induction s as [| c s IH]; simpl; [reflexivity |].
  destruct (rstrip s) as [| a r] eqn:Er.
  - destruct (is_space c) eqn:Hc; simpl; [reflexivity |].
    rewrite Hc. reflexivity.
  - change (rstrip (String c (String a r))) with
      (match rstrip (String a r) with
       | EmptyString =>
           if is_space c then EmptyString else String c EmptyString
       | x => String c x
       end).
    rewrite IH. reflexivity.
Qed.

Lemma strip_idem s : strip (strip s) = strip s.
Proof.
  unfold strip.
  rewrite (lstrip_clean (rstrip (lstrip s))).
  - apply rstrip_idem.
  - apply rstrip_head. apply lstrip_head.
Qed.

Lemma strip_decompose s :
  exists pre post,
    s = pre ++ strip s ++ post
    /\ all_space pre = true /\ all_space post = true.
Proof.
  destruct (lstrip_decompose s) as [pre [E1 H1]].
  destruct (rstrip_decompose (lstrip s)) as [post [E2 H2]].
  exists pre, post. unfold strip. rewrite <- E2. auto.
Qed.

Lemma strip_padded pre core post :
  all_space pre = true -> all_space post = true ->
  strip core = core ->
  strip (pre ++ core ++ post) = core.
Proof.
  intros H1 H2 Hc. unfold strip. rewrite lstrip_all_space by exact H1.
  destruct core as [| c core].
  - simpl. apply rstrip_all_space.
    clear - H2. induction post as [| a post IH]; simpl in *; [reflexivity |].
    apply andb_true_iff in H2. destruct H2 as [Ha Hp]. rewrite Ha. auto.
  - assert (Hh : is_space c = false).
    { pose proof (rstrip_head (lstrip (String c core)) (lstrip_head _)) as H.
      unfold strip in Hc. rewrite Hc in H. exact H. }
    rewrite <- Hc at 2. unfold strip.
    rewrite (lstrip_clean (String c core ++ post)) by exact Hh.
    rewrite (lstrip_clean (String c core)) by exact Hh.
    apply rstrip_app_space. exact H2.
Qed.

End StripFacts.

Section Sentinel.
Import PyStr World Spec Measure State Agent.
Variable env : Env.

Lemma done_raw_iff raw :
  is_done (strip raw) = true
  <-> exists pre post,
      all_space pre = true /\ all_space post = true
      /\ (raw = pre ++ post \/ raw = pre ++ "DONE" ++ post).
Proof.
  rewrite is_done_iff. split.
  - intros H. destruct (strip_decompose raw) as [pre [post [E [H1 H2]]]].
    exists pre, post. split; [exact H1 |]. split; [exact H2 |].
    destruct H as [H | H]; rewrite H in E; [left | right]; exact E.
  - intros [pre [post [H1 [H2 [E | E]]]]]; subst raw.
    + left. apply (strip_padded pre EmptyString post H1 H2). reflexivity.
    + right. apply (strip_padded pre "DONE" post H1 H2). reflexivity.
Qed.

End Sentinel.

(** X10.  The direct loop tests the model's answer after [strip()]: an
    iteration leaves the loop exactly when the raw answer is white space
    only, or the word DONE with nothing but white space around it.  So
    a line break after DONE still ends the research, while DONE followed
    by a full stop, or written in lower case, is searched for as a
    question. *)
Theorem sentinel_ignores_surrounding_whitespace (env : World.Env)
        (cfg : Agent.Config) (step : Z) (st : State.AgentState)
        (log : World.Log) (vars : list (string * string)) :
  Agent.question_vars env st = World.Ok vars ->
  let raw := World.model env log (Agent.question_prompt vars) in
  (exists s,
      fst (Agent.search_step env cfg step st log)
      = World.Ok (World.Break s))
  <-> (exists pre post,
          Measure.all_space pre = true /\ Measure.all_space post = true
          /\ (raw = pre ++ post \/ raw = pre ++ "DONE" ++ post)).
Proof.
  intros Hv raw.
  destruct (direct_step_exit env cfg step st log vars Hv) as [H _].
  fold raw in H. rewrite H, <- done_raw_iff. symmetry. apply is_done_iff.
Qed.

Lemma sentinel_ignores_surrounding_whitespace_witness :
  exists s,
    fst (Agent.search_step
           (Demo.env_of Demo.plan_text [" DONE" ++ nl] "Score: 9")
           Demo.cfg 0 (State.new_state "12 Main St" EmptyString) [])
    = World.Ok (World.Break s).
Proof.
  apply (proj2 (sentinel_ignores_surrounding_whitespace
                  (Demo.env_of Demo.plan_text [" DONE" ++ nl] "Score: 9")
                  Demo.cfg 0 (State.new_state "12 Main St" EmptyString) []
                  [("address", "12 Main St"); ("plan", EmptyString);
                   ("previous", "None"); ("draft", "No draft")]
                  eq_refl)).
  exists " ", nl. split; [reflexivity |]. split; [reflexivity |].
  right. reflexivity.
Defined.

Section StoredQuestions.
Import PyStr World Spec Measure State Agent.
Variable env : Env.

Lemma web_queries_app (a b : Log) :
  web_queries (a ++ b)%list = (web_queries a ++ web_queries b)%list.
Proof.
  induction a as [| e a IH]; simpl; [reflexivity |].
  destruct e; simpl; rewrite IH; reflexivity.
Qed.

Lemma web_queries_none (l : Log) :
  count is_web l = 0 -> web_queries l = [].
Proof.
  induction l as [| e l IH]; [reflexivity |].
  rewrite count_cons. destruct e; simpl; intros H; try (apply IH; lia).
  discriminate H.
Qed.

(** One iteration that does not raise: it leaves by the exit with no
    search made, or searches the web once, for the question it then
    stores. *)
Lemma search_step_queries cfg step st log c log' :
  search_step env cfg step st log = (Ok c, log') ->
  exists new,
    log' = (log ++ new)%list
    /\ match c with
       | Break s => s = st /\ web_queries new = []
       | Continue s =>
           exists r,
             search_history s = (search_history st ++ [r])%list
             /\ web_queries new = [question r]
             /\ clean_question (question r)
       end.
Proof.
  unfold search_step, _generate_search_question.
  unfold bind at 1 2 3. unfold lift.
  destruct (question_vars env st) as [vars | e]; [| discriminate].
  unfold invoke at 1, ret at 1.
  set (raw := model env log (question_prompt vars)).
  set (log1 := (log ++ [LLM (question_prompt vars) raw])%list).
  destruct (is_done (strip raw)) eqn:Hd.
  - unfold ret. intros H. inversion H; subst.
    exists [LLM (question_prompt vars) raw]. split; [reflexivity |].
    split; reflexivity.
  - unfold bind at 1.
    destruct (search_and_answer_log env (strip raw) st log1)
      as [kb [answer [E [K _]]]].
    rewrite E. set (log2 := (log1 ++ _)%list).
    unfold bind at 1.
    assert (Ha : exists a ev,
               (if evolves cfg step
                then SelfEvolution.evolve_answer env (strip raw) answer 2 1
                else ret answer) log2 = (Ok a, (log2 ++ ev)%list)
               /\ count is_web ev = 0).
    { destruct (evolves cfg step).
      - destruct (evolve_answer_spec env (strip raw) answer 2 1 log2)
          as [r [new [Er [_ [_ [_ [_ [_ [W _]]]]]]]]].
        exists r, new. auto.
      - exists answer, []. unfold ret. rewrite app_nil_r. auto. }
    destruct Ha as [a [ev [Ha Wev]]]. rewrite Ha.
    destruct (store_and_denoise_effect env cfg st (strip raw) a
                (log2 ++ ev)%list)
      as [s [r [tail [Es [Wt [_ [Hh [Hq _]]]]]]]].
    rewrite Es. intros H. inversion H; subst c log'.
    eexists. split.
    + unfold log2, log1. rewrite <- !app_assoc. reflexivity.
    + exists r. split; [exact Hh |]. split.
      * simpl. rewrite !web_queries_app. simpl.
        rewrite (web_queries_none kb K), (web_queries_none ev Wev),
          (web_queries_none tail Wt), Hq.
        reflexivity.
      * rewrite Hq. unfold clean_question.
        split; [apply strip_idem |].
        split; intros Hx; rewrite Hx in Hd; discriminate Hd.
Qed.

Lemma loop_queries cfg (l : list Z) : forall st log st' log',
  for_each l (search_step env cfg) st log = (Ok st', log') ->
  exists new added,
    log' = (log ++ new)%list
    /\ search_history st' = (search_history st ++ added)%list
    /\ map question added = web_queries new
    /\ Forall (fun r => clean_question (question r)) added.
Proof.
  induction l as [| x l IH]; intros st log st' log' H.
  - simpl in H. inversion H; subst. exists [], [].
    rewrite !app_nil_r. auto.
  - simpl in H. unfold bind at 1 in H.
    destruct (search_step env cfg x st log) as [[c | e] log1] eqn:Hs;
      [| discriminate].
    apply search_step_queries in Hs. destruct Hs as [new1 [-> Hc]].
    destruct c as [s | s].
    + destruct Hc as [r [Hh [Hw Hq]]].
      apply IH in H. destruct H as [new [added [-> [Hh' [Hw' Hq']]]]].
      exists (new1 ++ new)%list, (r :: added).
      split; [rewrite app_assoc; reflexivity |].
      split; [rewrite Hh', Hh, <- app_assoc; reflexivity |].
      split; [rewrite web_queries_app, Hw, <- Hw'; reflexivity |].
      constructor; assumption.
    + destruct Hc as [-> Hw]. unfold ret in H. inversion H; subst.
      exists new1, []. rewrite app_nil_r. simpl. auto.
Qed.

Lemma web_queries_length (l : Log) :
  List.length (web_queries l) = count is_web l.
Proof.
  induction l as [| e l IH]; [reflexivity |].
  rewrite count_cons. destruct e; simpl; rewrite IH; reflexivity.
Qed.

Lemma run_queries cfg address brief log st log' :
  run env cfg address brief log = (Ok st, log') ->
  exists new,
    log' = (log ++ new)%list
    /\ map question (search_history st) = web_queries new
    /\ Forall (fun r => clean_question (question r)) (search_history st).
Proof.
  intros H. pose proof (run_effect env cfg address brief log st log' H) as Hr.
  destruct Hr as [tot [Et [Ht _]]].
  apply run_inv in H.
  destruct H as [plan [st0 [st1 [pre [new [Hst0 [_ [_ [Hl [_ [Hst El]]]]]]]]]]].
  unfold _iterative_search_and_refine in Hl.
  apply loop_queries in Hl.
  destruct Hl as [new' [added [En [Hh [Hw Hq]]]]].
  apply app_inv_head in En. subst new'.
  assert (H0 : search_history st0 = [])
    by (destruct Hst0 as [-> | [d ->]]; reflexivity).
  rewrite H0 in Hh. simpl in Hh.
  assert (Hs : search_history st = added) by (rewrite Hst; exact Hh).
  rewrite El in Et. rewrite <- !app_assoc in Et.
  apply app_inv_head in Et. subst tot.
  rewrite Hs in *. clear Hs.
  rewrite !count_app, <- (web_queries_length new), <- Hw, length_map in Ht.
  rewrite count_cons, count_nil in Ht. simpl in Ht.
  assert (Wpre : web_queries pre = [])
    by (apply web_queries_none; lia).
  eexists. split; [rewrite El, <- !app_assoc; reflexivity |].
  split; [| exact Hq].
  rewrite !web_queries_app, Wpre, <- Hw. simpl.
  rewrite app_nil_r. reflexivity.
Qed.

End StoredQuestions.

(** X11.  In a run that does not raise, the questions kept in
    [search_history] are exactly the queries sent to the web search
    tool, in the same order; each of them is stripped of surrounding
    white space, is not empty and is not the sentinel. *)
Theorem history_records_the_searches (env : World.Env) (cfg : Agent.Config)
        (address brief : string) (log : World.Log)
        (st : State.AgentState) (log' : World.Log) :
  Agent.run env cfg address brief log = (World.Ok st, log') ->
  exists new,
    log' = (log ++ new)%list
    /\ map State.question (State.search_history st)
       = Measure.web_queries new
    /\ Forall (fun r => Measure.clean_question (State.question r))
              (State.search_history st).
Proof. apply run_queries. Qed.

Lemma history_records_the_searches_witness :
  match Agent.run (Demo.env [" q1 "; "q2"]) Demo.cfg "12 Main St"
                  EmptyString [] with
  | (World.Ok st, log') =>
      map State.question (State.search_history st)
      = Measure.web_queries log'
  | (World.Raise _, _) => False
  end.
Proof.
  destruct (Agent.run (Demo.env [" q1 "; "q2"]) Demo.cfg "12 Main St"
                      EmptyString []) as [[st | e] log'] eqn:E.
  - destruct (history_records_the_searches _ _ _ _ _ _ _ E)
      as [new [-> [H _]]].
    exact H.
  - vm_compute in E. discriminate E.
Defined.

Section AnswerBudgets.
Import PyStr World Spec Measure State Agent.
Variable env : Env.



End AnswerBudgets.


Section ScoreSign.
Import PyStr PyFloat.

Lemma digits_value_nonneg s : forall acc,
  (0 <= acc)%Z -> (0 <= digits_value s acc)%Z.
Proof.
  induction s as [| c s IH]; cbn [digits_value]; intros acc H; [exact H |].
  apply IH. lia.
Qed.

Lemma scaled_sign n d e a b :
  (0 <= n)%Z -> (0 < d)%Z -> scaled n d e = (a, b) ->
  (0 <= a)%Z /\ (0 < b)%Z.
Proof.
  intros Hn Hd. unfold scaled.
  destruct (e <? 0)%Z eqn:He; intros H; inversion H; subst.
  - apply Z.ltb_lt in He.
    assert (0 < 2 ^ (- e))%Z by (apply Z.pow_pos_nonneg; lia).
    split; [nia | exact Hd].
  - apply Z.ltb_ge in He.
    assert (0 < 2 ^ e)%Z by (apply Z.pow_pos_nonneg; lia).
    split; [exact Hn | nia].
Qed.

Lemma round_half_even_nonneg a b :
  (0 <= a)%Z -> (0 < b)%Z -> (0 <= round_half_even a b)%Z.
Proof.
  intros Ha Hb. unfold round_half_even.
  assert (0 <= a / b)%Z by (apply Z.div_pos; assumption).
  repeat match goal with |- context [if ?c then _ else _] => destruct c end;
    lia.
Qed.

Lemma nearest_nonneg n d :
  (0 <= n)%Z -> (0 < d)%Z -> geb (nearest n d) 0 = true.
Proof.
  intros Hn Hd. unfold nearest.
  destruct (n =? 0)%Z; [reflexivity |].
  destruct (scaled n d (Z.log2 n - Z.log2 d - 53)) as [a b].
  match goal with
  | |- context [scaled n d ?e] =>
      destruct (scaled n d e) as [a' b'] eqn:Es;
      destruct (scaled_sign n d e a' b' Hn Hd Es) as [Ha Hb];
      set (ex := e) in *
  end.
  pose proof (round_half_even_nonneg a' b' Ha Hb) as Hm.
  destruct (ex <? 0)%Z eqn:He.
  - unfold geb. apply Qle_bool_iff. rewrite Qred_correct.
    unfold Qle. simpl. lia.
  - apply Z.ltb_ge in He.
    destruct (2 ^ 1024 <=? round_half_even a' b' * 2 ^ ex)%Z; [reflexivity |].
    unfold geb. apply Qle_bool_iff. unfold Qle, inject_Z. simpl.
    assert (0 < 2 ^ ex)%Z by (apply Z.pow_pos_nonneg; lia).
    nia.
Qed.

End ScoreSign.

(** X13.  The score read from a verdict is never negative, whatever the
    text: the pattern accepts digits only, so a minus sign before the
    number makes the label not match at that place, and without a match
    the score is 5.0.  (Nothing bounds it from above.) *)
Theorem extracted_score_is_not_negative (content : string) :
  PyFloat.geb (Evaluator._extract_score content) 0 = true.
Proof.
  unfold Evaluator._extract_score.
  destruct (Evaluator.search Evaluator.match_score_at content)
    as [[i f] |]; [| reflexivity].
  unfold PyFloat.of_decimal. apply nearest_nonneg.
  - apply digits_value_nonneg. apply digits_value_nonneg. lia.
  - apply Z.pow_pos_nonneg; lia.
Qed.

Section Braces.
Import PyStr World Spec Measure Planner.

Lemma find_from_first c pre rest : forall i,
  free_of c pre = true ->
  find_from c (pre ++ String c rest) i
  = (i + Z.of_nat (String.length pre))%Z.
Proof.
  induction pre as [| a pre IH]; intros i H; simpl.
  - rewrite Ascii.eqb_refl. lia.
  - simpl in H. apply andb_true_iff in H. destruct H as [Ha Hp].
    apply negb_true_iff in Ha. rewrite Ha, IH by exact Hp. lia.
Qed.

Lemma rfind_from_free c post : forall i last,
  free_of c post = true -> rfind_from c post i last = last.
Proof.
  induction post as [| a post IH]; intros i last H; simpl; [reflexivity |].
  simpl in H. apply andb_true_iff in H. destruct H as [Ha Hp].
  apply negb_true_iff in Ha. rewrite Ha. apply IH. exact Hp.
Qed.

Lemma rfind_from_last c x post : forall i last,
  free_of c post = true ->
  rfind_from c (x ++ String c post) i last
  = (i + Z.of_nat (String.length x))%Z.
Proof.
  induction x as [| a x IH]; intros i last H.
  - simpl. rewrite Ascii.eqb_refl, rfind_from_free by exact H. lia.
  - cbn [append rfind_from String.length]. rewrite IH by exact H. lia.
Qed.

Lemma drop_app a : forall b, drop (String.length a) (a ++ b) = b.
Proof. induction a as [| c a IH]; intros b; simpl; auto. Qed.

Lemma take_app a : forall b, take (String.length a) (a ++ b) = a.
Proof.
  induction a as [| c a IH]; intros b; simpl.
  - destruct b; reflexivity.
  - rewrite IH. reflexivity.
Qed.

Lemma length_append a : forall b,
  String.length (a ++ b) = String.length a + String.length b.
Proof. induction a as [| c a IH]; intros b; simpl; auto. Qed.

Lemma append_assoc a : forall b c, (a ++ b) ++ c = a ++ (b ++ c).
Proof. induction a as [| x a IH]; intros b c; simpl; [| rewrite IH]; auto. Qed.

(** Prose around one object: the text from the first opening brace to
    the last closing brace is the object. *)
Lemma outermost_braces_of_prose pre body post :
  free_of "{" pre = true -> free_of "}" post = true ->
  let content := pre ++ "{" ++ body ++ "}" ++ post in
  braces_found content = true
  /\ outermost_braces content = "{" ++ body ++ "}".
Proof.
  intros Hpre Hpost content.
  assert (Hf : find "{" content = Z.of_nat (String.length pre)).
  { unfold find, content. simpl.
    rewrite (find_from_first "{" pre _ 0%Z Hpre). lia. }
  assert (Hr : rfind "}" content
               = Z.of_nat (String.length (pre ++ "{" ++ body))).
  { unfold rfind, content.
    replace (pre ++ "{" ++ body ++ "}" ++ post)
      with ((pre ++ "{" ++ body) ++ String "}" post)
      by (rewrite append_assoc; reflexivity).
    rewrite (rfind_from_last "}" _ post 0%Z (-1)%Z Hpost). lia. }
  unfold braces_found, outermost_braces. rewrite Hf, Hr.
  rewrite length_append. simpl String.length.
  split.
  - apply andb_true_iff. split.
    + apply negb_true_iff. apply Z.eqb_neq. lia.
    + apply Z.ltb_lt. lia.
  - unfold slice.
    replace (Z.to_nat (Z.of_nat (String.length pre)))
      with (String.length pre) by lia.
    replace (Z.to_nat
               (Z.of_nat (String.length pre + S (String.length body)) + 1
                - Z.of_nat (String.length pre)))
      with (String.length ("{" ++ body ++ "}"))
      by (simpl; rewrite length_append; simpl; lia).
    unfold content. rewrite drop_app.
    replace ("{" ++ body ++ "}" ++ post)
      with (("{" ++ body ++ "}") ++ post)
      by (simpl; rewrite append_assoc; reflexivity).
    apply take_app.
Qed.

End Braces.

(** X14.  When the planner's model wraps one JSON object in prose (no
    opening brace before it, no closing brace after it) and the whole
    text is not JSON, [generate_plan] decodes exactly the object, cut
    from its opening brace to its closing brace: the plan is its decoding
    when it is valid, and [JSONDecodeError] is raised when it is not. *)
Theorem plan_recovered_from_prose (env : World.Env)
        (query brief : string) (log : World.Log) (pre body post : string) :
  Measure.free_of "{" pre = true ->
  Measure.free_of "}" post = true ->
  World.model env log (Planner.planner_prompt query brief)
  = pre ++ "{" ++ body ++ "}" ++ post ->
  World.json_loads env (pre ++ "{" ++ body ++ "}" ++ post) = None ->
  fst (Planner.generate_plan env query brief log)
  = match World.json_loads env ("{" ++ body ++ "}") with
    | Some plan => World.Ok plan
    | None => World.Raise World.JSONDecodeError
    end.
Proof.
  intros Hpre Hpost Hm Hj.
  destruct (outermost_braces_of_prose pre body post Hpre Hpost) as [Hb Ho].
  rewrite generate_plan_call. cbn [fst]. rewrite Hm.
  destruct (World.json_loads env ("{" ++ body ++ "}")) as [v |] eqn:Ev.
  - apply plan_of_braces; [exact Hj | exact Hb | rewrite Ho; exact Ev].
  - apply plan_of_broken_braces; [exact Hj | exact Hb | rewrite Ho; exact Ev].
Qed.

Lemma plan_recovered_from_prose_witness :
  fst (Planner.generate_plan
         (Demo.env_of ("Here is the plan: {" ++ Demo.quoted "sections"
                       ++ ": []} Good luck.") [] "Score: 9")
         "12 Main St" EmptyString [])
  = World.Ok (Json.JObj [("sections", Json.JArr [])]).
Proof.
  rewrite (plan_recovered_from_prose
             (Demo.env_of ("Here is the plan: {" ++ Demo.quoted "sections"
                           ++ ": []} Good luck.") [] "Score: 9")
             "12 Main St" EmptyString []
             "Here is the plan: " (Demo.quoted "sections" ++ ": []")
             " Good luck.");
    vm_compute; reflexivity.
Defined.

Section GraphBudget.
Import PyStr World Spec Measure Graph.
Variable env : Env.
Variable f : Event -> bool.
Variables b1 b2 bq bw bk ba bd bf : nat.
Hypothesis H1 : forall st, adds_at_most f b1 (stage1_plan_node env st).
Hypothesis H2 : forall st, adds_at_most f b2 (stage2_draft_node env st).
Hypothesis Hq :
  forall vars, adds_at_most f bq (invoke env (search_question_prompt vars)).
Hypothesis Hw : forall q, adds_at_most f bw (web_search env q).
Hypothesis Hk : forall q, adds_at_most f bk (Agent.kb_lookup env q).
Hypothesis Ha :
  forall q w k, adds_at_most f ba (invoke env (graph_answer_prompt q w k)).
Hypothesis Hd : forall st, adds_at_most f bd (denoise_node env st).
Hypothesis Hf : forall st, adds_at_most f bf (final_report_node env st).

(** The search node, its self-evolution branch being dead. *)
Lemma search_node_adds st :
  adds_at_most f (bq + (bw + (bk + ba))) (search_node env st).
Proof.
  intros log. unfold search_node. unfold bind at 1. unfold lift.
  destruct (search_question_vars env st) as [vars | e].
  2: { exists []. rewrite app_nil_r, count_nil. split; [reflexivity | lia]. }
  unfold bind at 1.
  destruct (Hq vars log) as [new1 [E1 C1]].
  unfold invoke at 1. unfold invoke in E1. simpl in E1.
  apply app_inv_head in E1. subst new1.
  set (raw := model env log (search_question_prompt vars)) in *.
  set (asked := LLM (search_question_prompt vars) raw) in *.
  destruct (search_complete (strip raw) (step_count st)) eqn:Hc.
  - exists [asked]. split; [reflexivity | lia].
  - rewrite (no_evolution_before_exit _ _ Hc).
    match goal with
    | |- context [snd (bind ?c ?k ?l)] =>
        assert (Hrest : adds_at_most f (bw + (bk + (ba + (0 + 0))))
                          (bind c k))
    end.
    { apply adds_bind; [apply Hw |].
      intros web. apply adds_bind; [apply Hk |].
      intros kb. apply adds_bind; [apply Ha |].
      intros answer. apply adds_bind; [apply adds_ret |].
      intros [mu ans]. apply adds_ret. }
    destruct (Hrest (log ++ [asked])%list) as [new [En Cn]].
    exists (asked :: new). split.
    + rewrite En. rewrite <- app_assoc. reflexivity.
    + change (asked :: new) with ([asked] ++ new)%list.
      rewrite count_app. lia.
Qed.

Lemma node_step_adds {A} b (c : M A) (k : A -> Node * TTDDRGraphState) :
  adds_at_most f b c ->
  adds_at_most f b (bind c (fun x => ret (k x))).
Proof.
  intros H. eapply adds_weaken;
    [| eapply adds_bind; [exact H | intros; apply adds_ret]].
  lia.
Qed.

Lemma graph_adds_weaken k k' n st :
  k <= k' -> graph_adds env f k n st -> graph_adds env f k' n st.
Proof.
  intros Hk' H fuel log. destruct (H fuel log) as [new [E C]].
  exists new. split; [exact E | lia].
Qed.

Lemma graph_adds_END st : graph_adds env f 0 END st.
Proof.
  intros fuel log. exists []. rewrite app_nil_r, count_nil.
  destruct fuel; split; reflexivity.
Qed.

Lemma graph_adds_step n st k a :
  n <> END ->
  adds_at_most f a (step env n st) ->
  (forall log n' st' log',
      step env n st log = (Ok (n', st'), log') ->
      graph_adds env f k n' st') ->
  graph_adds env f (a + k) n st.
Proof.
  intros Hn Hs Hrest fuel log.
  destruct fuel as [| fuel].
  - exists []. rewrite app_nil_r, count_nil.
    destruct n; try congruence; split; try reflexivity; lia.
  - rewrite run_from_step by exact Hn.
    destruct (Hs log) as [new1 [E1 C1]].
    destruct (step env n st log) as [[[n' st'] | e] log1] eqn:Es;
      simpl in E1; subst log1.
    + destruct (Hrest _ _ _ _ Es fuel (log ++ new1)%list)
        as [new [E C]].
      exists (new1 ++ new)%list. rewrite E, app_assoc, count_app.
      split; [reflexivity | lia].
    + exists new1. split; [reflexivity | simpl; lia].
Qed.

Lemma graph_adds_final st : graph_adds env f (bf + 0) final_report_n st.
Proof.
  apply graph_adds_step; [discriminate | |].
  - unfold step. apply node_step_adds. apply Hf.
  - intros log n' st' log'. unfold step, bind, ret.
    destruct (final_report_node env st log) as [[s | e] l]; intros H;
      inversion H; subst. apply graph_adds_END.
Qed.

Lemma graph_adds_search_late st :
  (1 <= step_count st)%Z ->
  graph_adds env f ((bq + (bw + (bk + ba))) + (bf + 0)) search st.
Proof.
  intros Hc. apply graph_adds_step; [discriminate | |].
  - unfold step. apply node_step_adds. apply search_node_adds.
  - intros log n' st' log' H.
    apply step_search_inv in H. destruct H as [H ->].
    apply search_node_state in H.
    destruct H as [[_ ->] | [E _]]; [apply graph_adds_final |].
    unfold should_continue_search.
    replace (2 <=? step_count st')%Z with true
      by (symmetry; apply Z.leb_le; lia).
    simpl. apply graph_adds_final.
Qed.

Lemma graph_adds_denoise st :
  (1 <= step_count st)%Z ->
  graph_adds env f (bd + ((bq + (bw + (bk + ba))) + (bf + 0))) denoise st.
Proof.
  intros Hc. apply graph_adds_step; [discriminate | |].
  - unfold step. apply node_step_adds. apply Hd.
  - intros log n' st' log'. unfold step, bind, ret.
    destruct (denoise_node env st log) as [[s | e] l] eqn:Ed;
      intros H; inversion H; subst.
    apply denoise_keeps_count in Ed.
    unfold after_denoise_routing.
    destruct (2 <=? step_count st')%Z.
    + eapply graph_adds_weaken; [| apply graph_adds_final]. lia.
    + apply graph_adds_search_late. lia.
Qed.

Lemma graph_adds_search_first st :
  step_count st = 0%Z ->
  graph_adds env f
    ((bq + (bw + (bk + ba)))
     + (bd + ((bq + (bw + (bk + ba))) + (bf + 0)))) search st.
Proof.
  intros Hc. apply graph_adds_step; [discriminate | |].
  - unfold step. apply node_step_adds. apply search_node_adds.
  - intros log n' st' log' H.
    apply step_search_inv in H. destruct H as [H ->].
    apply search_node_state in H.
    destruct H as [[_ ->] | [E _]].
    + eapply graph_adds_weaken; [| apply graph_adds_final]. lia.
    + unfold should_continue_search.
      match goal with |- context [if ?b then _ else _] => destruct b end.
      * eapply graph_adds_weaken; [| apply graph_adds_final]. lia.
      * apply graph_adds_denoise. lia.
Qed.

Lemma graph_adds_stage2 st :
  step_count st = 0%Z ->
  graph_adds env f
    (b2 + ((bq + (bw + (bk + ba)))
           + (bd + ((bq + (bw + (bk + ba))) + (bf + 0))))) stage2_draft st.
Proof.
  intros Hc. apply graph_adds_step; [discriminate | |].
  - unfold step. apply node_step_adds. apply H2.
  - intros log n' st' log'.
    unfold step, stage2_draft_node, bind, ret, lift, invoke.
    destruct (titles env (plan st)); intros H; inversion H; subst.
    apply graph_adds_search_first. exact Hc.
Qed.

Lemma graph_adds_stage1 st :
  step_count st = 0%Z ->
  graph_adds env f
    (b1 + (b2 + ((bq + (bw + (bk + ba)))
                 + (bd + ((bq + (bw + (bk + ba))) + (bf + 0))))))
    stage1_plan st.
Proof.
  intros Hc. apply graph_adds_step; [discriminate | |].
  - unfold step. apply node_step_adds. apply H1.
  - intros log n' st' log'.
    unfold step, stage1_plan_node, bind, ret, lift.
    destruct (Planner.generate_plan env (address st) (brief st) log)
      as [[p | e] l]; [| discriminate].
    destruct (Agent.count_sections p); intros H; inversion H; subst.
    apply graph_adds_stage2. exact Hc.
Qed.

Lemma graph_adds_parse_input st :
  graph_adds env f
    (0 + (b1 + (b2 + ((bq + (bw + (bk + ba)))
                      + (bd + ((bq + (bw + (bk + ba))) + (bf + 0)))))))
    parse_input st.
Proof.
  apply graph_adds_step; [discriminate | |].
  - unfold step, parse_input_node. destruct (messages st); adds_bound.
  - intros log n' st' log'.
    unfold step, parse_input_node, bind, ret.
    destruct (messages st); intros H; inversion H; subst;
      apply graph_adds_stage1; reflexivity.
Qed.

End GraphBudget.


Section GraphBudgets.
Import PyStr World Spec Measure Graph.
Variable env : Env.

Ltac node_bound :=
  intros;
  unfold stage1_plan_node, stage2_draft_node, denoise_node,
    final_report_node, Planner.generate_plan, Planner.planner_prompt,
    search_question_prompt, graph_answer_prompt, Agent.kb_lookup;
  repeat match goal with
         | |- context [match ?x with _ => _ end] => destruct x
         end;
  adds_bound.

Lemma graph_llm_budget msgs :
  graph_adds env is_any_llm 8 parse_input (input_state msgs).
Proof.
  eapply graph_adds_weaken;
    [| apply (graph_adds_parse_input env is_any_llm 1 1 1 0 0 1 1 1)];
    [simpl; lia | node_bound ..].
Qed.

Lemma graph_retrieve_budget msgs :
  graph_adds env is_retrieve 2 parse_input (input_state msgs).
Proof.
  eapply graph_adds_weaken;
    [| apply (graph_adds_parse_input env is_retrieve 0 0 0 0 1 0 0 0)];
    [simpl; lia | try apply retrieve_kb_lookup; node_bound ..].
Qed.

Lemma graph_denoise_budget msgs :
  graph_adds env is_graph_denoise 1 parse_input (input_state msgs).
Proof.
  eapply graph_adds_weaken;
    [| apply (graph_adds_parse_input env is_graph_denoise 0 0 0 0 0 0 1 0)];
    [simpl; lia | node_bound ..].
Qed.

Lemma graph_evolution_budget msgs :
  graph_adds env is_evolution 0 parse_input (input_state msgs).
Proof.
  eapply graph_adds_weaken;
    [| apply (graph_adds_parse_input env is_evolution 0 0 0 0 0 0 0 0)];
    [simpl; lia | node_bound ..].
Qed.

End GraphBudgets.

(** X15.  Whatever the model and the tools answer, and however much fuel
    the graph is given, one run of the compiled graph makes at most 8
    model calls (the plan, the initial draft, two questions, two
    answers, one denoising, the final report), at most 2 retrievals, at
    most one denoising call, and no self-evolution call at all. *)
Theorem graph_call_budget (env : World.Env) (fuel : nat)
        (msgs : list string) (log : World.Log) :
  exists new,
    snd (Graph.run_graph env fuel msgs log) = (log ++ new)%list
    /\ World.count Measure.is_any_llm new <= 8
    /\ World.count Measure.is_retrieve new <= 2
    /\ World.count Measure.is_graph_denoise new <= 1
    /\ World.count Spec.is_evolution new = 0.
Proof.
  unfold Graph.run_graph.
  destruct (graph_llm_budget env msgs fuel log) as [new [E C1]].
  destruct (graph_retrieve_budget env msgs fuel log) as [n2 [E2 C2]].
  destruct (graph_denoise_budget env msgs fuel log) as [n3 [E3 C3]].
  destruct (graph_evolution_budget env msgs fuel log) as [n4 [E4 C4]].
  rewrite E in E2, E3, E4.
  apply app_inv_head in E2, E3, E4. subst n2 n3 n4.
  exists new. repeat split; try assumption. lia.
Qed.


Section GraphEnd.
Import PyStr World Spec Measure Graph.
Variable env : Env.

Lemma run_from_inv (I : Node -> TTDDRGraphState -> Log -> Prop) :
  (forall n st log n' st' log',
      I n st log -> step env n st log = (Ok (n', st'), log') ->
      I n' st' log') ->
  forall fuel n st log s log',
    I n st log ->
    run_from env fuel n st log = (Ok (Some s), log') ->
    I END s log'.
Proof.
  intros Hstep fuel. induction fuel as [| fuel IH]; intros n st log s log' Hi.
  - destruct n; simpl; unfold ret; intros H; inversion H; subst; exact Hi.
  - destruct n;
      try (rewrite run_from_step by discriminate;
           match goal with
           | |- context [step env ?n st log] =>
               destruct (step env n st log) as [[[n' st'] | e] l1] eqn:Es
           end;
           [intros H; exact (IH n' st' l1 s log' (Hstep _ _ _ _ _ _ Hi Es) H)
           | discriminate]).
    simpl. unfold ret. intros H. inversion H; subst. exact Hi.
Qed.

Lemma search_node_counted st log st' log' :
  graph_counted st ->
  search_node env st log = (Ok st', log') ->
  graph_counted st' /\ address st' = address st.
Proof.
  intros [Hc [Hle Hb]].
  unfold search_node, bind, lift, ret.
  destruct (search_question_vars env st) as [vars | e]; [| discriminate].
  unfold invoke at 1.
  destruct (search_complete _ (step_count st)) eqn:Hs.
  - intros H. inversion H; subst. split; [| reflexivity].
    split; [exact Hc |]. split; [exact Hle | exact Hb].
  - assert (Hlt : (step_count st < 2)%Z).
    { unfold search_complete in Hs. apply orb_false_iff in Hs.
      destruct Hs as [_ Hs]. apply Z.leb_gt in Hs. exact Hs. }
    revert Hs.
    repeat match goal with
           | |- context [match ?c ?l with (_, _) => _ end] =>
               destruct (c l) as [[? | ?] ?]
           | |- context [if ?b then _ else _] => destruct b
           | |- context [match ?x with (_, _) => _ end] =>
               is_var x; destruct x
           end;
      intros Hs H; inversion H; subst; (split; [| reflexivity]);
      unfold graph_counted; simpl; rewrite length_app; simpl;
      (split; [lia | split; [lia | exact Hb]]).
Qed.

Lemma graph_step_counted (a : string) n st log n' st' log' :
  match n with
  | parse_input => a = last_message (messages st)
  | _ => graph_counted st /\ address st = a
  end ->
  step env n st log = (Ok (n', st'), log') ->
  n' <> parse_input /\ graph_counted st' /\ address st' = a.
Proof.
  destruct n; intros Hi; unfold step.
  - unfold parse_input_node, bind, ret.
    destruct (messages st) eqn:Em; intros H; inversion H; subst;
      (split; [discriminate |]); unfold graph_counted; simpl;
      repeat split; lia.
  - destruct Hi as [[Hc [Hle Hb]] Ha].
    unfold stage1_plan_node, bind, ret, lift.
    destruct (Planner.generate_plan env (address st) (brief st) log)
      as [[p | e] l]; [| discriminate].
    destruct (Agent.count_sections p); intros H; inversion H; subst.
    split; [discriminate |]. unfold graph_counted. simpl. auto.
  - destruct Hi as [[Hc [Hle Hb]] Ha].
    unfold stage2_draft_node, bind, ret, lift, invoke.
    destruct (titles env (plan st)); intros H; inversion H; subst.
    split; [discriminate |]. unfold graph_counted. simpl. auto.
  - destruct Hi as [Hg Ha]. unfold bind, ret.
    destruct (search_node env st log) as [[s | e] l] eqn:Es;
      intros H; inversion H; subst.
    destruct (search_node_counted st log st' log' Hg Es) as [Hg' Ha'].
    split; [| split; [exact Hg' | exact Ha']].
    unfold should_continue_search.
    match goal with |- context [if ?b then _ else _] => destruct b end;
      discriminate.
  - destruct Hi as [[Hc [Hle Hb]] Ha].
    unfold denoise_node, bind, ret, invoke.
    destruct (search_history st) eqn:Eh; intros H; inversion H; subst;
      (split;
       [unfold after_denoise_routing; simpl;
        match goal with |- context [if ?b then _ else _] => destruct b end;
        discriminate |]);
      unfold graph_counted; simpl; try rewrite Eh; auto.
  - destruct Hi as [[Hc [Hle Hb]] Ha].
    unfold final_report_node, bind, ret, invoke.
    intros H; inversion H; subst.
    split; [discriminate |]. unfold graph_counted. simpl. auto.
  - destruct Hi as [Hg Ha]. unfold ret. intros H; inversion H; subst.
    split; [discriminate |]. auto.
Qed.

(** The prompt of the final report, on the state the graph ends in. *)
Lemma graph_step_end n st log st' log' :
  step env n st log = (Ok (END, st'), log') ->
  (n = END /\ st' = st /\ log' = log)
  \/ log' = (log ++ [LLM (mkPrompt graph_final_system graph_final_user
                            [("address", address st');
                             ("brief", brief st');
                             ("research",
                              take 3000 (pairs_text (search_history st')));
                             ("draft", take 1500 (draft_report st'))])
                         (final_report st')])%list.
Proof.
  destruct n; unfold step, bind, ret.
  - unfold parse_input_node, ret.
    destruct (messages st); intros H; inversion H.
  - destruct (stage1_plan_node env st log) as [[s | e] l]; intros H;
      inversion H.
  - destruct (stage2_draft_node env st log) as [[s | e] l]; intros H;
      inversion H.
  - destruct (search_node env st log) as [[s | e] l]; intros H;
      inversion H.
    unfold should_continue_search in *.
    match goal with
    | H : (if ?b then _ else _) = END |- _ => destruct b; discriminate H
    end.
  - destruct (denoise_node env st log) as [[s | e] l]; intros H;
      inversion H.
    unfold after_denoise_routing in *.
    match goal with
    | H : (if ?b then _ else _) = END |- _ => destruct b; discriminate H
    end.
  - unfold final_report_node, bind, ret, invoke. intros H.
    inversion H; subst. right. reflexivity.
  - intros H. inversion H; subst. left. auto.
Qed.

Lemma graph_end_inv fuel msgs log st log' :
  run_graph env fuel msgs log = (Ok (Some st), log') ->
  graph_counted st
  /\ address st = last_message msgs
  /\ exists pre,
      log' = (pre ++ [LLM (mkPrompt graph_final_system graph_final_user
                            [("address", address st);
                             ("brief", brief st);
                             ("research",
                              take 3000 (pairs_text (search_history st)));
                             ("draft", take 1500 (draft_report st))])
                         (final_report st)])%list.
Proof.
  unfold run_graph.
  apply (run_from_inv
           (fun n s l =>
              match n with
              | parse_input => s = input_state msgs
              | END =>
                  graph_counted s /\ address s = last_message msgs
                  /\ exists pre,
                      l = (pre ++ [LLM (mkPrompt graph_final_system
                                          graph_final_user
                            [("address", address s);
                             ("brief", brief s);
                             ("research",
                              take 3000 (pairs_text (search_history s)));
                             ("draft", take 1500 (draft_report s))])
                                       (final_report s)])%list
              | _ => graph_counted s /\ address s = last_message msgs
              end)); [| reflexivity].
  intros n s l n' s' l' Hi Hs.
  assert (Hc : n' <> parse_input /\ graph_counted s'
               /\ address s' = last_message msgs).
  { apply (graph_step_counted (last_message msgs) n s l n' s' l');
      [| exact Hs].
    destruct n; try exact Hi.
    - subst s. reflexivity.
    - destruct Hi as [H1 [H2 _]]. auto. }
  destruct Hc as [Hn [Hg Ha]].
  destruct n'; try (split; assumption); [congruence |].
  split; [exact Hg |]. split; [exact Ha |].
  apply graph_step_end in Hs. destruct Hs as [[-> [-> ->]] | ->].
  - destruct Hi as [_ [_ Hp]]. exact Hp.
  - eexists. reflexivity.
Qed.

End GraphEnd.

(** X16.  The state a graph run ends in.  When the compiled graph reaches
    END, its step counter equals the number of question-answer pairs
    kept, which is at most 2; the address is the text of the last input
    message; the brief is empty, so the report is written for an empty
    brief and never for the default one; and the last call of the run is
    the final-report call, made on that address, on the first 3000
    characters of the research text and the first 1500 characters of the
    draft, whose response is [final_report]. *)
Theorem graph_end_state (env : World.Env) (fuel : nat) (msgs : list string)
        (log : World.Log) (st : Graph.TTDDRGraphState) (log' : World.Log) :
  Graph.run_graph env fuel msgs log = (World.Ok (Some st), log') ->
  Graph.step_count st = Z.of_nat (List.length (Graph.search_history st))
  /\ List.length (Graph.search_history st) <= 2
  /\ Graph.brief st = EmptyString
  /\ Graph.address st = Graph.last_message msgs
  /\ exists pre,
      log' = (pre ++ [World.LLM
                        (World.mkPrompt Graph.graph_final_system
                           Graph.graph_final_user
                           [("address", Graph.last_message msgs);
                            ("brief", EmptyString);
                            ("research",
                             PyStr.take 3000
                               (Graph.pairs_text (Graph.search_history st)));
                            ("draft",
                             PyStr.take 1500 (Graph.draft_report st))])
                        (Graph.final_report st)])%list.
Proof.
  intros H. apply graph_end_inv in H.
  destruct H as [[Hc [Hle Hb]] [Ha [pre Hp]]].
  split; [exact Hc |]. split; [lia |]. split; [exact Hb |].
  split; [exact Ha |]. exists pre. rewrite Hp, Ha, Hb. reflexivity.
Qed.

Lemma graph_end_state_witness :
  match Graph.run_graph (Demo.env ["q1"; "q2"; "q3"]) 7 ["12 Main St"] []
  with
  | (World.Ok (Some st), _) =>
      Graph.step_count st
      = Z.of_nat (List.length (Graph.search_history st))
      /\ Graph.address st = "12 Main St"
  | _ => False
  end.
Proof.
  destruct (Graph.run_graph (Demo.env ["q1"; "q2"; "q3"]) 7
                            ["12 Main St"] [])
    as [[[st |] | e] log'] eqn:E.
  - destruct (graph_end_state _ _ _ _ _ _ E) as [H1 [_ [_ [H2 _]]]].
    split; [exact H1 | exact H2].
  - vm_compute in E. discriminate E.
  - vm_compute in E. discriminate E.
Defined.

Section DenoiseCount.
Import PyStr World Spec Measure State Agent.
Variable env : Env.

Lemma denoise_question st :
  adds_at_most is_denoise 0 (_generate_search_question env st).
Proof. unfold _generate_search_question. adds_bound. Qed.

Lemma denoise_answer q st :
  adds_at_most is_denoise 0 (_search_and_answer env q st).
Proof.
  unfold _search_and_answer, synth_prompt.
  eapply adds_weaken;
    [| eapply adds_bind;
       [adds_exact
       | intros; eapply adds_bind;
         [apply denoise_kb_lookup | intros; adds_exact]]];
    simpl; lia.
Qed.

(** One iteration that does not raise makes a denoising call exactly
    when it runs to its end under [use_diffusion], and then the revision
    counter moves by one. *)
Lemma search_step_denoise cfg step st log c log' :
  search_step env cfg step st log = (Ok c, log') ->
  exists new,
    log' = (log ++ new)%list
    /\ match c with
       | Break s => s = st /\ count is_denoise new = 0
       | Continue s =>
           Z.of_nat (count is_denoise new)
           = (revision_count s - revision_count st)%Z
       end.
Proof.
  unfold search_step. unfold bind at 1.
  destruct (adds_zero_at is_denoise (_generate_search_question env st)
              log (denoise_question st)) as [n1 [E1 C1]].
  destruct (_generate_search_question env st log) as [[q | e] l1];
    [| discriminate].
  simpl in E1. subst l1.
  destruct (is_done q).
  - unfold ret. intros H. inversion H; subst. exists n1. auto.
  - unfold bind at 1.
    destruct (adds_zero_at is_denoise (_search_and_answer env q st)
                (log ++ n1)%list (denoise_answer q st)) as [n2 [E2 C2]].
    destruct (_search_and_answer env q st (log ++ n1)%list)
      as [[a | e] l2]; [| discriminate].
    simpl in E2. subst l2.
    unfold bind at 1.
    match goal with
    | |- context [match ?c ((log ++ n1) ++ n2)%list with (_, _) => _ end] =>
        assert (Ha : adds_at_most is_denoise 0 c)
          by (apply (adds_if is_denoise 0 0);
              [apply denoise_evolve | apply adds_ret]);
        destruct (adds_zero_at is_denoise c ((log ++ n1) ++ n2)%list Ha)
          as [n3 [E3 C3]];
        destruct (c ((log ++ n1) ++ n2)%list) as [[a' | e] l3];
        [| discriminate]
    end.
    simpl in E3. subst l3.
    unfold store_and_denoise, add_search_result, _denoise_draft, bind,
      clock, ret, invoke.
    destruct (use_diffusion cfg); intros H; inversion H; subst c log'.
    + eexists. split; [rewrite <- !app_assoc; reflexivity |].
      rewrite !count_app, C1, C2, C3, count_cons, count_nil. simpl. lia.
    + exists (n1 ++ n2 ++ n3)%list.
      split; [rewrite <- !app_assoc; reflexivity |].
      rewrite !count_app, C1, C2, C3. simpl. lia.
Qed.

Lemma loop_denoise cfg (l : list Z) : forall st log st' log',
  for_each l (search_step env cfg) st log = (Ok st', log') ->
  exists new,
    log' = (log ++ new)%list
    /\ Z.of_nat (count is_denoise new)
       = (revision_count st' - revision_count st)%Z.
Proof.
  induction l as [| x l IH]; intros st log st' log' H.
  - simpl in H. inversion H; subst. exists [].
    rewrite app_nil_r, count_nil. split; [reflexivity | lia].
  - simpl in H. unfold bind at 1 in H.
    destruct (search_step env cfg x st log) as [[c | e] log1] eqn:Hs;
      [| discriminate].
    apply search_step_denoise in Hs. destruct Hs as [new1 [-> Hc]].
    destruct c as [s | s].
    + apply IH in H. destruct H as [new [-> Hn]].
      exists (new1 ++ new)%list.
      split; [rewrite app_assoc; reflexivity |].
      rewrite count_app. lia.
    + destruct Hc as [-> Hw]. unfold ret in H. inversion H; subst.
      exists new1. split; [reflexivity | lia].
Qed.

Lemma run_denoise cfg address brief log st log' :
  run env cfg address brief log = (Ok st, log') ->
  exists new,
    log' = (log ++ new)%list
    /\ Z.of_nat (count is_denoise new) = revision_count st.
Proof.
  intros H. apply run_inv in H.
  destruct H as [plan [st0 [st1 [pre [new [Hst0 [_ [C0 [Hl [_ [Hst El]]]]]]]]]]].
  apply (count_before_loop is_denoise) in C0;
    [| intros p r Hs; unfold is_denoise, is_llm; rewrite Hs; reflexivity ..].
  unfold _iterative_search_and_refine in Hl.
  apply loop_denoise in Hl. destruct Hl as [new' [En Hn]].
  apply app_inv_head in En. subst new'.
  assert (H0 : revision_count st0 = 0%Z)
    by (destruct Hst0 as [-> | [d ->]]; reflexivity).
  eexists. split; [rewrite El, <- !app_assoc; reflexivity |].
  rewrite !count_app, C0, count_cons, count_nil, Hst. simpl. lia.
Qed.

End DenoiseCount.

(** X17.  In a run that does not raise, [revision_count] is the number
    of denoising calls the run made: the counter moves only with a
    denoising call, and every denoising call moves it by one. *)
Theorem revision_count_is_denoise_calls (env : World.Env)
        (cfg : Agent.Config) (address brief : string) (log : World.Log)
        (st : State.AgentState) (log' : World.Log) :
  Agent.run env cfg address brief log = (World.Ok st, log') ->
  exists new,
    log' = (log ++ new)%list
    /\ Z.of_nat (World.count Measure.is_denoise new)
       = State.revision_count st.
Proof. apply run_denoise. Qed.

Lemma revision_count_is_denoise_calls_witness :
  match Agent.run (Demo.env ["q1"; "q2"]) Demo.cfg "12 Main St"
                  EmptyString [] with
  | (World.Ok st, log') =>
      Z.of_nat (World.count Measure.is_denoise log')
      = State.revision_count st
  | (World.Raise _, _) => False
  end.
Proof.
  destruct (Agent.run (Demo.env ["q1"; "q2"]) Demo.cfg "12 Main St"
                      EmptyString []) as [[st | e] log'] eqn:E.
  - destruct (revision_count_is_denoise_calls _ _ _ _ _ _ _ E)
      as [new [-> H]].
    exact H.
  - vm_compute in E. discriminate E.
Defined.

Section DoneInside.
Import PyStr World Spec Measure Graph.

Lemma smap_app f a : forall b, smap f (a ++ b) = smap f a ++ smap f b.
Proof. induction a as [| c a IH]; intros b; simpl; [| rewrite IH]; auto. Qed.

Lemma startswith_app p : forall b, startswith p (p ++ b) = true.
Proof.
  induction p as [| c p IH]; intros b; simpl; [reflexivity |].
  rewrite Ascii.eqb_refl. apply IH.
Qed.

Lemma contains_head p s : startswith p s = true -> contains p s = true.
Proof. intros H. destruct s; simpl in *; rewrite H; reflexivity. Qed.

Lemma contains_app p a : forall b, contains p (a ++ p ++ b) = true.
Proof.
  induction a as [| c a IH]; intros b.
  - cbn [append]. apply contains_head. apply startswith_app.
  - cbn [append contains]. rewrite IH. apply orb_true_r.
Qed.

Lemma done_inside a w b step :
  upper w = "DONE" -> search_complete (a ++ w ++ b) step = true.
Proof.
  intros Hw. unfold search_complete, upper in *.
  rewrite !smap_app, Hw, contains_app. reflexivity.
Qed.

End DoneInside.

(** X18.  In the graph the sentinel is looked for anywhere in the
    upper-cased question: a question in which the letters d, o, n, e
    follow each other in any letter case, also inside a longer word,
    ends the research at the search node, with no web search made and
    nothing stored. *)
Theorem graph_stops_on_done_inside_a_word (env : World.Env)
        (st : Graph.TTDDRGraphState) (log : World.Log)
        (vars : list (string * string)) (a w b : string) :
  Graph.search_question_vars env st = World.Ok vars ->
  let raw := World.model env log (Graph.search_question_prompt vars) in
  PyStr.strip raw = a ++ w ++ b ->
  PyStr.upper w = "DONE" ->
  exists st',
    Graph.step env Graph.search st log
    = (World.Ok (Graph.final_report_n, st'),
       (log ++ [World.LLM (Graph.search_question_prompt vars) raw])%list)
    /\ Graph.search_history st' = Graph.search_history st
    /\ Graph.step_count st' = Graph.step_count st.
Proof.
  intros Hv raw Hs Hw.
  destruct (graph_search_exit env st log vars Hv) as [H _].
  apply H. fold raw. rewrite Hs. apply done_inside. exact Hw.
Qed.

Lemma graph_stops_on_done_inside_a_word_witness :
  exists st',
    fst (Graph.step (Demo.env ["Is the lot abandoned?"]) Graph.search
           (Graph.input_state ["12 Main St"]) [])
    = World.Ok (Graph.final_report_n, st').
Proof.
  destruct (graph_stops_on_done_inside_a_word
              (Demo.env ["Is the lot abandoned?"])
              (Graph.input_state ["12 Main St"]) []
              [("address", EmptyString); ("step", "1");
               ("plan", EmptyString); ("history", "None")]
              "Is the lot aban" "done" "d?" eq_refl eq_refl eq_refl)
    as [st' [E _]].
  exists st'. rewrite E. reflexivity.
Defined.
